(** * Consensus analysis (ImageAnalyses/ConsensusAnalysis.py)

    A shallow embedding of [run_ttests] and of its nested helper [tau], and
    the properties of the specification checked against it.

    - float64 arrays are lists of Rocq's primitive binary64 floats, so that
      division by zero, [inf * 0] and the square root of a negative number
      behave as they do in numpy (inf, nan, nan); the maps are taken to be
      float64, and sums run from the left (numpy adds eight or more
      contiguous values pairwise, which can differ in the last bits);
    - the input tree and the results directory are one finite map from
      paths to volumes (directories are not modelled);
    - the loop body is written in a small state-and-exception monad over
      that map: a Python exception leaves the files written so far;
    - the libraries outside the sources are either parameters ([glob]'s
      enumeration order, the p-value of Student's t, [multipletests], the
      store's answer to a write) or modelled from the specification (the
      masker, [t_corr], the FDR procedure), each marked where it is defined;
    - [run_ttests] is embedded twice: on the image files alone, where of
      the logging only the evaluation of the arguments is modelled (it can
      raise), and, as [run_ttests_logged], on the image files and the log
      file, with every call of [log_to_file]; what [print] puts out is not
      modelled;
    - of [mk_figures], the arrays that it hands to the plots are modelled
      (the thresholded t map, the histogram of tau); the drawing is not. *)

From Stdlib Require Import Floats ZArith Uint63 QArith Lia Lqa Ascii.
From stdpp Require Import gmap strings list sorting pretty.

(** ** numpy on binary64 *)

Module Numpy.

Definition vec := list float.
(** A 2-D array, row-major: [data[i]] is row [i]. *)
Definition matrix := list vec.

Definition of_nat (n : nat) : float := PrimFloat.of_uint63 (Uint63.of_Z (Z.of_nat n)).

(** [a.shape[0]] and [a.shape[1]]; an array without rows is taken to have
    no columns. *)
Definition shape0 (a : matrix) : nat := length a.
Definition shape1 (a : matrix) : nat :=
  match a with [] => 0 | r :: _ => length r end.

(** [a[:, j]] *)
Definition col (a : matrix) (j : nat) : vec := map (fun r => nth j r 0%float) a.
Definition diag (a : matrix) : vec :=
  map (fun i => nth i (nth i a []) 0%float) (seq 0 (length a)).

(** [numpy.sum] ([numpy.add.reduce]) of a 1-D array, accumulated from the
    left, as numpy does for fewer than eight values; its pairwise sum of a
    longer contiguous array is not modelled. *)
Definition add_reduce (x : vec) : float := fold_left PrimFloat.add x 0%float.

(** [numpy.mean] of a 1-D array: [sum / count]; the mean of an empty array
    is [0/0 = nan]. *)
Definition mean (x : vec) : float := (add_reduce x / of_nat (length x))%float.

(** [numpy.mean(a)] of a 2-D array: the mean of the flattened array. *)
Definition mean_all (a : matrix) : float := mean (concat a).

(** [numpy.var] of a 1-D array with [ddof] delta degrees of freedom:
    [sum((x - x.mean())**2) / (count - ddof)]. *)
Definition var_ddof (ddof : nat) (x : vec) : float :=
  let m := mean x in
  (add_reduce (map (fun xi => let d := (xi - m)%float in (d * d)%float) x)
   / of_nat (length x - ddof))%float.

(** [numpy.var(a, axis)] with the default [ddof=0]: axis 1 reduces each row,
    axis 0 each column. *)
Definition var (a : matrix) (axis : nat) : vec :=
  match axis with
  | 0 => map (fun j => var_ddof 0 (col a j)) (seq 0 (shape1 a))
  | _ => map (var_ddof 0) a
  end.

Definition dot (x y : vec) : float := add_reduce (zip_with PrimFloat.mul x y).

(** [y.dot(A)] for a 1-D [y]: entry [j] is [y . A[:, j]]. *)
Definition vecmat (y : vec) (a : matrix) : vec :=
  map (fun j => dot y (col a j)) (seq 0 (shape1 a)).

(** [A.dot(B)] for 2-D arrays. *)
Definition matmul (a b : matrix) : matrix := map (fun r => vecmat r b) a.

Definition eye (n : nat) : matrix :=
  map (fun i => map (fun j => if Nat.eqb i j then 1%float else 0%float) (seq 0 n))
      (seq 0 n).
Definition ones (r c : nat) : matrix := repeat (repeat 1%float c) r.

Definition mat_sub (a b : matrix) : matrix := zip_with (zip_with PrimFloat.sub) a b.
Definition mat_div (a : matrix) (s : float) : matrix :=
  map (map (fun x => (x / s)%float)) a.
Definition trace (a : matrix) : float := add_reduce (diag a).

(** [numpy.clip(x, lo, hi)]: nan stays nan. *)
Definition clip (lo hi x : float) : float :=
  if PrimFloat.is_nan x then x
  else if (x <? lo)%float then lo
  else if (hi <? x)%float then hi
  else x.

(** [numpy.cov(a)] with rows as variables ([rowvar=True], [ddof=1]). *)
Definition cov (a : matrix) : matrix :=
  let X := map (fun r => let avg := mean r in map (fun x => (x - avg)%float) r) a in
  let fact := of_nat (shape1 a - 1) in
  map (fun xi => map (fun xj => (dot xi xj * (1 / fact))%float) X) X.

(** [numpy.corrcoef(a)]: the covariance scaled by the standard deviations of
    its two rows, then clipped to [-1, 1]. *)
Definition corrcoef (a : matrix) : matrix :=
  let c := cov a in
  let stddev := map PrimFloat.sqrt (diag c) in
  zip_with (fun row si =>
    zip_with (fun cij sj => clip (-1)%float 1%float (cij / si / sj)%float) row stddev)
    c stddev.

End Numpy.

Import Numpy.

(** ** The moments handed to [t_corr] (run_ttests, lines 51-54) *)

(** [img_mean = numpy.mean(data)] *)
Definition img_mean (data : matrix) : float := mean_all data.
(** [img_var = numpy.mean(numpy.var(data, 1))] *)
Definition img_var (data : matrix) : float := mean (var data 1).
(** [cc = numpy.corrcoef(data)] *)
Definition cc (data : matrix) : matrix := corrcoef data.

(** ** The nested helper [tau] (run_ttests, lines 83-91) *)

Definition tau_R (n : nat) : matrix :=
  mat_sub (eye n) (mat_div (matmul (ones n 1) (ones 1 n)) (of_nat n)).

Definition sampvar_est (n : nat) (Q : matrix) : float := trace (matmul (tau_R n) Q).

(** The array [tau2] after the loop over the columns of [data]. *)
Definition tau2 (data Q : matrix) : vec :=
  let n := shape0 data in
  let R := tau_R n in
  let s := sampvar_est n Q in
  map (fun i => let Y := col data i in ((1 / s) * dot (vecmat Y R) Y)%float)
      (seq 0 (shape1 data)).

Definition tau (data Q : matrix) : vec := map PrimFloat.sqrt (tau2 data Q).

(** ** Failures and the file store *)

(** The failure kinds of the error taxonomy, and the exceptions of Python
    and its libraries that the run can meet: a file that cannot be read or
    written, a numpy argument error, the failure of another library. *)
Inductive exn : Type :=
| ShapeMismatch
| DegenerateInput
| NumericInstability
| OSError
| ValueError
| LibraryError.

Inductive result (A : Type) : Type :=
| Ok (a : A)
| Err (e : exn).
Arguments Ok {A} a.
Arguments Err {A} e.

(** A volumetric image: the grid shape and the voxel values in row-major
    order. *)
Record volume : Type := Volume { vol_shape : nat * nat * nat; voxels : list float }.

(** The spatial mask: a boolean grid of the same kind. *)
Record mask_img : Type := Mask { mask_shape : nat * nat * nat; mask_bits : list bool }.

(** The files of the run, by path. *)
Abbreviation files := (gmap string volume).

(** A computation that reads and writes files and may raise: an exception
    returns the store as it is at that point. *)
Definition io (A : Type) : Type := files -> result A * files.

Definition ret {A} (a : A) : io A := fun fs => (Ok a, fs).
Definition bind {A B} (c : io A) (k : A -> io B) : io B :=
  fun fs => match c fs with
            | (Ok a, fs') => k a fs'
            | (Err e, fs') => (Err e, fs')
            end.
Definition lift {A} (r : result A) : io A := fun fs => (r, fs).

Declare Scope run_scope.
Delimit Scope run_scope with run.
Notation "'let*' x ':=' c 'in' k" := (bind c (fun x => k))
  (at level 10, x name, c at level 100, k at level 200) : run_scope.

(** [for x in l: body(x)] *)
Fixpoint for_each {A} (l : list A) (body : A -> io unit) : io unit :=
  match l with
  | [] => ret tt
  | x :: l' => (let* _ := body x in for_each l' body)%run
  end.

(** ** Paths *)

(** [s.endswith(suffix)] *)
Definition ends_with (suffix s : string) : bool :=
  String.prefix (String.rev suffix) (String.rev s).

(** [os.path.join(a, b)] (posix). *)
Definition path_join (a b : string) : string :=
  if String.prefix "/" b then b
  else if String.eqb a "" || ends_with "/" a then a +:+ b
  else a +:+ "/" +:+ b.

(** The directory part that [os.path.join] puts before a relative name. *)
Definition dir_prefix (a : string) : string :=
  if String.eqb a "" || ends_with "/" a then a else a +:+ "/".

(** ['%d' % hyp] *)
Definition fmt_d (hyp : nat) : string := pretty hyp.

Definition t_name (hyp : nat) : string := "hypo" +:+ fmt_d hyp +:+ "_t.nii.gz".
Definition p_name (hyp : nat) : string := "hypo" +:+ fmt_d hyp +:+ "_1-p.nii.gz".
Definition fdr_name (hyp : nat) : string := "hypo" +:+ fmt_d hyp +:+ "_1-fdr.nii.gz".
Definition tau_name (hyp : nat) : string := "hypo" +:+ fmt_d hyp +:+ "_tau.nii.gz".

Fixpoint strip_prefix (pre s : string) : option string :=
  match pre with
  | EmptyString => Some s
  | String a pre' =>
      match s with
      | String b s' => if Ascii.eqb a b then strip_prefix pre' s' else None
      | EmptyString => None
      end
  end.

Definition strip_suffix (suf s : string) : option string :=
  match strip_prefix (String.rev suf) (String.rev s) with
  | Some r => Some (String.rev r)
  | None => None
  end.

Fixpoint has_slash (s : string) : bool :=
  match s with
  | EmptyString => false
  | String a s' => Ascii.eqb a "/"%char || has_slash s'
  end.

Definition dir_name (s : string) : bool :=
  match s with
  | EmptyString => false
  | String a _ => negb (Ascii.eqb a "."%char) && negb (has_slash s)
  end.

(** The pattern ['zstat/*/hypo%d_unthresh.nii.gz' % hyp] under the output
    directory matches [<output>/zstat/<team>/hypo<hyp>_unthresh.nii.gz] where
    [<team>] is one directory name: not empty, without a slash, not hidden.
    The output directory is matched as it is written: [glob] would read a
    star, a question mark or an opening bracket in it as part of the
    pattern. *)
Definition is_map (output : string) (hyp : nat) (p : string) : bool :=
  match strip_prefix (path_join output "zstat/") p with
  | Some rest =>
      match strip_suffix ("/hypo" +:+ fmt_d hyp +:+ "_unthresh.nii.gz") rest with
      | Some team => dir_name team
      | None => false
      end
  | None => false
  end.

(** ** The masker *)

Module Masker.

(** Modelled from the spec: nilearn's [NiftiMasker] is not part of the
    sources. Section 4.1: [forward] samples, for each image, the voxels
    where the mask is true, in the row-major order of the grid, and fails
    with [ShapeMismatch] when an image's grid differs from the mask's;
    [inverse] scatters a vector back into a grid of the mask's shape, with
    0 outside the mask. *)
Fixpoint sample (bits : list bool) (vox : list float) : vec :=
  match bits, vox with
  | b :: bits', x :: vox' => if b then x :: sample bits' vox' else sample bits' vox'
  | _, _ => []
  end.

Fixpoint scatter (bits : list bool) (x : vec) : list float :=
  match bits with
  | [] => []
  | true :: bits' =>
      match x with
      | x0 :: x' => x0 :: scatter bits' x'
      | [] => 0%float :: scatter bits' []
      end
  | false :: bits' => 0%float :: scatter bits' x
  end.

Definition n_voxels (mask : mask_img) : nat := length (filter (fun b => b = true) (mask_bits mask)).

Definition forward1 (mask : mask_img) (img : volume) : result vec :=
  if decide (vol_shape img = mask_shape mask /\ length (voxels img) = length (mask_bits mask))
  then Ok (sample (mask_bits mask) (voxels img))
  else Err ShapeMismatch.

Fixpoint forward (mask : mask_img) (images : list volume) : result matrix :=
  match images with
  | [] => Ok []
  | img :: rest =>
      match forward1 mask img with
      | Ok row =>
          match forward mask rest with
          | Ok rows => Ok (row :: rows)
          | Err e => Err e
          end
      | Err e => Err e
      end
  end.

Definition inverse (mask : mask_img) (x : vec) : volume :=
  Volume (mask_shape mask) (scatter (mask_bits mask) x).

End Masker.

(** ** The run *)

(** The fields of [narps] that [run_ttests] reads: [narps.dirs.MNI_mask],
    [narps.dirs.dirs['output']] and [narps.dirs.dirs['consensus']]. *)
Record narps_t : Type := Narps {
  MNI_mask : mask_img;
  dirs_output : string;
  dirs_consensus : string
}.

(** What [run_ttests] calls and does not define: the imports of the module
    and the file system. Each call returns its value or raises. *)
Record env : Type := Env {
  (** [utils.t_corr(data, res_mean, res_var, Q)]: the t statistics and the
      p-values. *)
  t_corr : matrix -> float -> float -> matrix -> result (vec * vec);
  (** nilearn's masker on the images of the files, and back. *)
  masker_transform : mask_img -> list volume -> result matrix;
  masker_inverse : mask_img -> vec -> volume;
  (** statsmodels' [multipletests(pvals, alpha, 'fdr_tsbh')]: the rejection
      vector and the adjusted p-values. *)
  multipletests : vec -> float -> result (list bool * vec);
  (** The order in which the file system enumerates the paths it holds. *)
  listdir : files -> list string;
  (** Whether the store accepts a write to the path (permissions, space). *)
  writable : string -> bool;
  (** [narps.hypnums] *)
  hypnums : list nat
}.

Section Run.

Variable E : env.

(** [os.path.exists(p)] *)
Definition path_exists (p : string) : io bool :=
  fun fs => (Ok (bool_decide (is_Some (fs !! p))), fs).

(** [glob.glob(os.path.join(output, 'zstat/*/hypo%d_unthresh.nii.gz' % hyp))]:
    the matching paths, in the order the file system lists them. *)
Definition glob (output : string) (hyp : nat) : io (list string) :=
  fun fs => (Ok (filter (fun p => is_map output hyp p) (listdir E fs)), fs).

(** Reading one image file. *)
Definition load (p : string) : io volume :=
  fun fs => match fs !! p with
            | Some img => (Ok img, fs)
            | None => (Err OSError, fs)
            end.

Fixpoint load_all (ps : list string) : io (list volume) :=
  match ps with
  | [] => ret []
  | p :: ps' => (let* img := load p in let* imgs := load_all ps' in ret (img :: imgs))%run
  end.

(** [masker.fit_transform(maps)] *)
Definition fit_transform (masker : mask_img) (maps : list string) : io matrix :=
  (let* imgs := load_all maps in lift (masker_transform E masker imgs))%run.

(** [masker.inverse_transform(x)] *)
Definition inverse_transform (masker : mask_img) (x : vec) : volume :=
  masker_inverse E masker x.

(** [img.to_filename(p)] *)
Definition to_filename (img : volume) (p : string) : io unit :=
  fun fs => if writable E p then (Ok tt, <[p := img]> fs) else (Err OSError, fs).

(** The literal [0.05], as the nearest binary64 value. *)
Definition alpha_005 : float := 0x1.999999999999ap-5%float.

Definition one_minus (x : vec) : vec := map (fun p => (1 - p)%float) x.

(** Lines 55-59: the arguments of the log call,
    [numpy.mean(cc[numpy.triu_indices_from(cc, 1)])]. [numpy.cov] squeezes
    its result, so [numpy.corrcoef] of a single row is a 0-d array, and
    [numpy.triu_indices_from] raises [ValueError] for an array that is not
    2-d. For any other number of rows the mean of the upper triangle is
    computed (nan when it is empty) and logged. *)
Definition log_moments (data : matrix) : result unit :=
  if (shape0 data =? 1)%nat then Err ValueError else Ok tt.

(** Lines 67-97: the four result volumes, written one after the other. *)
Definition write_results (narps : narps_t) (hyp : nat) (data : matrix)
    (tvals pvals : vec) : io unit :=
  let masker := MNI_mask narps in
  let results_dir := dirs_consensus narps in
  (let* _ := to_filename (inverse_transform masker tvals)
          (path_join results_dir (t_name hyp)) in
   let* _ := to_filename (inverse_transform masker (one_minus pvals))
          (path_join results_dir (p_name hyp)) in
   let* fdr_results := lift (multipletests E pvals alpha_005) in
   let* _ := to_filename (inverse_transform masker (one_minus (snd fdr_results)))
          (path_join results_dir (fdr_name hyp)) in
   let tau_est := tau data (cc data) in
   to_filename (inverse_transform masker tau_est) (path_join results_dir (tau_name hyp)))%run.

(** Lines 44-97: the body of the loop for one hypothesis, past the guard. *)
Definition consensus_analysis (narps : narps_t) (hyp : nat) : io unit :=
  (let* maps := glob (dirs_output narps) hyp in
   let maps := merge_sort String.le maps in
   let* data := fit_transform (MNI_mask narps) maps in
   let* _ := lift (log_moments data) in
   let* tp := lift (t_corr E data (img_mean data) (img_var data) (cc data)) in
   write_results narps hyp data (fst tp) (snd tp))%run.

(** Lines 39-43: [not overwrite and os.path.exists(.../hypo%d_1-fdr.nii.gz)]. *)
Definition use_existing (narps : narps_t) (overwrite : bool) (hyp : nat) : io bool :=
  if negb overwrite
  then path_exists (path_join (dirs_consensus narps) (fdr_name hyp))
  else ret false.

Definition run_hyp (narps : narps_t) (overwrite : bool) (hyp : nat) : io unit :=
  (let* skip := use_existing narps overwrite hyp in
   if skip then ret tt else consensus_analysis narps hyp)%run.

Definition run_ttests (narps : narps_t) (overwrite : bool) : io unit :=
  for_each (hypnums E) (run_hyp narps overwrite).

End Run.

(** The same collaborators with another enumeration order, or another
    store. *)
Definition with_listdir (E : env) (l : files -> list string) : env :=
  Env (t_corr E) (masker_transform E) (masker_inverse E) (multipletests E) l
      (writable E) (hypnums E).

Definition with_writable (E : env) (w : string -> bool) : env :=
  Env (t_corr E) (masker_transform E) (masker_inverse E) (multipletests E) (listdir E)
      w (hypnums E).

(** ** The correlated t-test *)

Module Utils.

(** Modelled from the spec: [utils.t_corr] is not part of the sources.
    Section 4.2, correlated t-test: the adjusted standard error is
    [sqrt(variance * (sum of all entries of Q) / n^2)], a voxel's statistic
    is its mean over the teams divided by that, the p-value is two-sided
    with [n - 1] degrees of freedom, and the test fails with
    [DegenerateInput] if [n < 2] or the variance is zero or NaN.
    [t_two_sided_p] is scipy's two-sided p-value of a t statistic under
    Student's t with the given degrees of freedom. *)
Definition t_corr (t_two_sided_p : nat -> float -> float)
    (data : matrix) (res_mean res_var : float) (Q : matrix) : result (vec * vec) :=
  let n := shape0 data in
  if (n <? 2)%nat || PrimFloat.is_zero res_var || PrimFloat.is_nan res_var
  then Err DegenerateInput
  else
    let se := PrimFloat.sqrt (res_var * add_reduce (concat Q) / (of_nat n * of_nat n))%float in
    let tvals := map (fun j => (mean (col data j) / se)%float) (seq 0 (shape1 data)) in
    Ok (tvals, map (t_two_sided_p (n - 1)) tvals).

End Utils.

(** ** The specification's reading of the moments and of tau *)

(** The spec's variance: the mean over the voxels (columns) of the sample
    variance ([ddof = 1]) of the team values at that voxel. *)
Definition spec_variance (data : matrix) : float :=
  mean (map (fun j => var_ddof 1 (col data j)) (seq 0 (shape1 data))).

(** What [img_var] is, written out entry by entry: the mean over the [n]
    teams of the variance, with divisor [v], of a team's [v] voxel values. *)
Definition entry (data : matrix) (i j : nat) : float := nth j (nth i data []) 0%float.

(** [f 0 + f 1 + ... + f (n-1)], accumulated from the left. *)
Definition sigma (n : nat) (f : nat -> float) : float :=
  fold_left (fun acc k => (acc + f k)%float) (seq 0 n) 0%float.

Definition team_mean (v : nat) (data : matrix) (i : nat) : float :=
  (sigma v (entry data i) / of_nat v)%float.

Definition team_variance (v : nat) (data : matrix) (i : nat) : float :=
  (sigma v (fun j => let d := (entry data i j - team_mean v data i)%float in (d * d)%float)
   / of_nat v)%float.

Definition mean_team_variance (n v : nat) (data : matrix) : float :=
  (sigma n (team_variance v data) / of_nat n)%float.

(** Python's [max(x, y)]: [y] if [y > x], else [x]. *)
Definition py_max (x y : float) : float := if (x <? y)%float then y else x.

(** The spec's step 4: [tau = sqrt(max(tau2, 0))] per voxel. *)
Definition clamped_tau (data Q : matrix) : vec :=
  map (fun x => PrimFloat.sqrt (py_max x 0%float)) (tau2 data Q).

(** [|x| <= 1e-6]: zero within the tolerance of section 4.2. *)
Definition approx_zero (x : float) : bool := (PrimFloat.abs x <=? 0x1.0c6f7a0b5ed8dp-20)%float.

Definition nonfinite (x : float) : bool := PrimFloat.is_nan x || PrimFloat.is_infinity x.

(** The outcomes of a square root: nan, a zero, a positive number or
    [+inf]. *)
Definition sf_sqrt_range (s : SpecFloat.spec_float) : Prop :=
  match s with
  | SpecFloat.S754_nan => True
  | SpecFloat.S754_zero _ => True
  | SpecFloat.S754_infinity sg => sg = false
  | SpecFloat.S754_finite sg _ _ => sg = false
  end.

(** ** The significance corrector *)

Module FDR.

(** Modelled from the spec: statsmodels' [multipletests] is not part of the
    sources. Section 4.3: a two-stage Benjamini-Hochberg procedure over the
    whole p-value vector, returning a rejection vector in the order of the
    input. Stage one is the Benjamini-Hochberg step-up at [alpha]: with the
    p-values sorted increasingly, reject the [k] smallest, [k] the largest
    rank with [p_(k) <= (k/m) * alpha]. Unless it rejects none or all,
    stage two is the same step-up at [alpha * m / (m - r1)], [r1] the number
    of stage-one rejections. P-values and levels are exact rationals. *)

Definition le_pvalue (a b : nat * Q) : Prop := Qle_bool (snd a) (snd b) = true.
Definition le_index (a b : nat * bool) : Prop := (fst a <= fst b)%nat.

#[global] Instance le_pvalue_dec : RelDecision le_pvalue.
Proof. intros a b. unfold le_pvalue. apply _. Defined.
#[global] Instance le_index_dec : RelDecision le_index.
Proof. intros a b. unfold le_index. apply _. Defined.

(** [(k/m) * alpha] *)
Definition bh_line (m k : nat) (alpha : Q) : Q :=
  (inject_Z (Z.of_nat k) / inject_Z (Z.of_nat m) * alpha)%Q.

(** The largest rank [k' > k] whose p-value lies on or under the line, or 0:
    [sorted] holds the p-values of ranks [k+1, k+2, ...]. *)
Fixpoint last_rank (m : nat) (alpha : Q) (k : nat) (sorted : list Q) : nat :=
  match sorted with
  | [] => 0
  | p :: rest =>
      match last_rank m alpha (S k) rest with
      | 0 => if Qle_bool p (bh_line m (S k) alpha) then S k else 0
      | r => r
      end
  end.

(** The indices of the p-values with their values, by increasing p-value. *)
Definition argsort (pvals : list Q) : list (nat * Q) :=
  merge_sort le_pvalue (zip (seq 0 (length pvals)) pvals).

(** The step-up: the rejection vector in the order of the input. *)
Definition bh_reject (alpha : Q) (pvals : list Q) : list bool :=
  let m := length pvals in
  let sorted := argsort pvals in
  let k := last_rank m alpha 0 (map snd sorted) in
  let flags := map (fun r => bool_decide (r < k)%nat) (seq 0 m) in
  map snd (merge_sort le_index (zip (map fst sorted) flags)).

(** [reject.sum()] *)
Definition n_rejected (reject : list bool) : nat := length (filter (fun b => Is_true b) reject).

Definition correct (pvals : list Q) (alpha : Q) : list bool :=
  let m := length pvals in
  let stage1 := bh_reject alpha pvals in
  let r1 := n_rejected stage1 in
  if (r1 =? 0)%nat || (r1 =? m)%nat then stage1
  else bh_reject (alpha * inject_Z (Z.of_nat m) / inject_Z (Z.of_nat (m - r1)))%Q pvals.

End FDR.

(** ** What a hypothesis reads and writes *)

Section Effects.

Variable E : env.

(** The file system lists each file once. *)
Definition lists_files : Prop :=
  forall fs : files, NoDup (listdir E fs) /\ forall p, p ∈ listdir E fs <-> is_Some (fs !! p).

(** The sorted list of maps handed to the masker. *)
Definition sorted_maps (narps : narps_t) (hyp : nat) (fs : files) : list string :=
  merge_sort String.le (filter (fun p => is_map (dirs_output narps) hyp p) (listdir E fs)).

(** The feature matrix of a hypothesis. *)
Definition features (narps : narps_t) (hyp : nat) (fs : files) : result matrix :=
  fst (fit_transform E (MNI_mask narps) (sorted_maps narps hyp fs) fs).

(** The paths of the four result volumes, in the order they are written. *)
Definition out_paths (narps : narps_t) (hyp : nat) : list string :=
  map (path_join (dirs_consensus narps)) [t_name hyp; p_name hyp; fdr_name hyp; tau_name hyp].

(** The four writes of [write_results], in order; the adjusted p-values are
    those of [multipletests] when it returns. *)
Definition planned_writes (narps : narps_t) (hyp : nat) (data : matrix)
    (tvals pvals : vec) : list (string * volume) :=
  let padj := match multipletests E pvals alpha_005 with
              | Ok r => snd r
              | Err _ => []
              end in
  zip (out_paths narps hyp)
      (map (inverse_transform E (MNI_mask narps))
           [tvals; one_minus pvals; one_minus padj; tau data (cc data)]).

Definition apply_writes (ws : list (string * volume)) (fs : files) : files :=
  fold_left (fun m w => <[fst w := snd w]> m) ws fs.

(** All four result volumes of a hypothesis exist. *)
Definition artifacts_exist (narps : narps_t) (hyp : nat) (fs : files) : Prop :=
  Forall (fun p => is_Some (fs !! p)) (out_paths narps hyp).

(** The matrix is degenerate for the t-test: fewer than two teams, or a
    variance estimate that is zero or nan. *)
Definition degenerate (data : matrix) : Prop :=
  (shape0 data < 2)%nat \/
  PrimFloat.is_zero (img_var data) = true \/
  PrimFloat.is_nan (img_var data) = true.

End Effects.


(** ** The whole run *)

(** The writes are to result volumes, of whatever hypothesis. *)
Definition result_paths (narps : narps_t) (ws : list (string * volume)) : Prop :=
  forall p, p ∈ map fst ws -> exists hyp, p ∈ out_paths narps hyp.

(** The same collaborators with another list of hypotheses. *)
Definition with_hypnums (E : env) (l : list nat) : env :=
  Env (t_corr E) (masker_transform E) (masker_inverse E) (multipletests E) (listdir E)
      (writable E) l.

(** ** Characters of a path *)

(** Every character of the string satisfies [P]. *)
Fixpoint string_forall (P : ascii -> bool) (s : string) : bool :=
  match s with
  | EmptyString => true
  | String a s' => P a && string_forall P s'
  end.

(** The string does not start with a character that satisfies [P]. *)
Definition head_not (P : ascii -> bool) (s : string) : bool :=
  match s with
  | EmptyString => true
  | String a _ => negb (P a)
  end.

(** A decimal digit. *)
Definition is_digit (a : ascii) : bool :=
  (48 <=? nat_of_ascii a)%nat && (nat_of_ascii a <=? 57)%nat.

Definition not_slash (a : ascii) : bool := negb (Ascii.eqb a "/"%char).

(** ** The arrays of the figures (mk_figures) *)

(** The figures are drawn by matplotlib and nilearn from arrays that
    [mk_figures] computes; the arrays are modelled, the drawing is not. *)

(** numpy's cast of a boolean to float64. *)
Definition of_bool (b : bool) : float := if b then 1%float else 0%float.

(** Line 123, [threshdata = (pdata > thresh)*tdata], at one voxel of the
    two arrays: the comparison gives a boolean, which the product with the
    float64 [tdata] takes as 1.0 or 0.0. *)
Definition threshdata (thresh pdata tdata : float) : float :=
  (of_bool (thresh <? pdata) * tdata)%float.

(** The ceiling of a float64 as an integer; none for nan and the
    infinities. *)
Definition ceil_Z (x : float) : option Z :=
  match Prim2SF x with
  | SpecFloat.S754_zero _ => Some 0%Z
  | SpecFloat.S754_finite s m e =>
      let n := if s then Z.neg m else Z.pos m in
      Some (if (0 <=? e)%Z then n * 2 ^ e else - ((- n) / 2 ^ (- e)))%Z
  | _ => None
  end.

(** [numpy.arange(start, stop, step)] on float64: [ceil((stop - start) / step)]
    values (none if that is not positive), the first [start], the second
    [start + step], and the [i]-th [start + i * delta] with [delta] the
    difference of the first two. numpy raises if the length is nan, an
    infinity or outside the range of its index type. *)
Definition arange (start stop step : float) : option vec :=
  match ceil_Z ((stop - start) / step) with
  | Some len =>
      if ((- 2 ^ 63 <=? len) && (len <? 2 ^ 63))%Z then
        let next := (start + step)%float in
        let delta := (next - start)%float in
        Some (map (fun i => match i with
                            | 0 => start
                            | 1 => next
                            | _ => (start + of_nat i * delta)%float
                            end)
                  (seq 0 (Z.to_nat len)))
      else None
  | None => None
  end.

(** The order in which numpy sorts and searches float64: nan comes after
    every number. *)
Definition npy_lt (a b : float) : bool :=
  (a <? b)%float || (PrimFloat.is_nan b && negb (PrimFloat.is_nan a)).

(** The number of entries of the array that satisfy [f]. *)
Definition count_if (f : float -> bool) (a : vec) : Z :=
  Z.of_nat (length (List.filter f a)).

(** [numpy.sort(a).searchsorted(v, side)]: the index at which [v] enters
    the sorted array, which is the number of entries that sort before [v]
    (side 'left'), or that do not sort after it (side 'right'). *)
Definition searchsorted_left (a : vec) (v : float) : Z := count_if (fun x => npy_lt x v) a.
Definition searchsorted_right (a : vec) (v : float) : Z :=
  count_if (fun x => negb (npy_lt v x)) a.

(** [numpy.diff(c)]: [c[1:] - c[:-1]]. *)
Definition diff (c : list Z) : list Z := zip_with Z.sub (tail c) c.

(** [numpy.histogram(a, bins=bin_edges)] for an array of edges: a
    [ValueError] if an edge is above the next one; else the cumulative
    counts at the edges, from the left at every edge but the last and from
    the right at the last, and their differences. (numpy sorts and counts
    the array in blocks and adds the counts up.) *)
Definition histogram (a : vec) (bin_edges : vec) : option (list Z * vec) :=
  let n := length bin_edges in
  if existsb (fun xy => (snd xy <? fst xy)%float)
             (zip (take (n - 1) bin_edges) (tail bin_edges))
  then None
  else
    let cum_n := map (searchsorted_left a) (take (n - 1) bin_edges)
                 ++ map (searchsorted_right a) (drop (n - 1) bin_edges) in
    Some (diff cum_n, bin_edges).

(** The literal [0.01], as the nearest binary64 value. *)
Definition step_001 : float := 0x1.47ae147ae147bp-7%float.

(** Lines 154-155: [numpy.histogram(taudata, bins=numpy.arange(0, 5, 0.01))]
    of the flattened array, where [taudata] is the array that the masker
    returned at line 149. *)
Definition tauhist (taudata : matrix) : option (list Z * vec) :=
  match arange 0 5 step_001 with
  | Some bins => histogram (concat taudata) bins
  | None => None
  end.

(** The sum of the counts of a histogram. *)
Definition hist_total (counts : list Z) : Z := fold_right Z.add 0%Z counts.

(** The last edge of the bins, [499 * 0.01] in binary64: the float64
    nearest to 4.99. *)
Definition last_edge : float := 0x1.3f5c28f5c28f6p+2%float.

(** The [k]-th edge of the bins of the histogram of tau, [k * 0.01] in
    binary64. *)
Definition tau_edge (k : nat) : float := (of_nat k * step_001)%float.


(** ** The run with its log *)

(** What [run_ttests] and [mk_figures] hand to [log_to_file]: the values
    that fill the format string of each call (the text itself is not
    modelled). *)
Inductive log_msg : Type :=
| LogFunc (func_name : string)
    (** ['%s' % func_name] *)
| LogMoments (img_mean img_var mean_cc : float)
    (** ['mean = %f, var = %f, mean_cc = %f' % (img_mean, img_var, mean_cc)] *)
| LogSignificant (n : nat)
    (** ['%d voxels significant at FDR corrected p<.05' % numpy.sum(fdr_results[0])] *)
| LogTau (hyp : nat) (taudata : matrix).
    (** ['hyp %d: median tau %0.3f, max tau %0.3f' % (hyp, median, max)], kept
        as the array that the median and the maximum are taken of. *)

(** The image files, and the messages written to the log file, the oldest
    first. The log file is kept apart from the image files: its path is
    taken to be none of theirs. *)
Definition world : Type := files * list log_msg.

(** A computation on both. *)
Definition logged (A : Type) : Type := world -> result A * world.

Definition lret {A} (a : A) : logged A := fun w => (Ok a, w).
Definition lbind {A B} (c : logged A) (k : A -> logged B) : logged B :=
  fun w => match c w with
           | (Ok a, w') => k a w'
           | (Err e, w') => (Err e, w')
           end.

Notation "'let+' x ':=' c 'in' k" := (lbind c (fun x => k))
  (at level 10, x name, c at level 100, k at level 200) : run_scope.

(** A computation on the image files, run on them. *)
Definition on_files {A} (c : io A) : logged A :=
  fun w => match c (fst w) with (r, fs') => (r, (fs', snd w)) end.

Fixpoint lfor_each {A} (l : list A) (body : A -> logged unit) : logged unit :=
  match l with
  | [] => lret tt
  | x :: l' => (let+ _ := body x in lfor_each l' body)%run
  end.

(** [cc[numpy.triu_indices_from(cc, 1)]]: the entries above the diagonal,
    row by row. *)
Definition triu1 (a : matrix) : vec := concat (imap (fun i row => drop (S i) row) a).

(** [numpy.sum] of a boolean array. *)
Definition count_true (b : list bool) : nat := length (List.filter id b).

Section LoggedRun.

Variable E : env.

(** [utils.log_to_file(logfile, msg)] is not part of the sources. It is
    taken to add the message to the end of the log file (the call leaves
    its [flush] argument at the default), or to raise [OSError] when the
    store refuses a write to that file. *)
Definition log_to_file (logfile : string) (msg : log_msg) : logged unit :=
  fun w => if writable E logfile then (Ok tt, (fst w, snd w ++ [msg])) else (Err OSError, w).

(** Lines 44-97 with their two calls of [log_to_file]. *)
Definition consensus_analysis_logged (narps : narps_t) (logfile : string) (hyp : nat) :
    logged unit :=
  let masker := MNI_mask narps in
  let results_dir := dirs_consensus narps in
  (let+ maps := on_files (glob E (dirs_output narps) hyp) in
   let maps := merge_sort String.le maps in
   let+ data := on_files (fit_transform E masker maps) in
   let+ _ := on_files (lift (log_moments data)) in
   let+ _ := log_to_file logfile
               (LogMoments (img_mean data) (img_var data) (mean (triu1 (cc data)))) in
   let+ tp := on_files (lift (t_corr E data (img_mean data) (img_var data) (cc data))) in
   let+ _ := on_files (to_filename E (inverse_transform E masker (fst tp))
                         (path_join results_dir (t_name hyp))) in
   let+ _ := on_files (to_filename E (inverse_transform E masker (one_minus (snd tp)))
                         (path_join results_dir (p_name hyp))) in
   let+ fdr_results := on_files (lift (multipletests E (snd tp) alpha_005)) in
   let+ _ := log_to_file logfile (LogSignificant (count_true (fst fdr_results))) in
   let+ _ := on_files (to_filename E (inverse_transform E masker (one_minus (snd fdr_results)))
                         (path_join results_dir (fdr_name hyp))) in
   let tau_est := tau data (cc data) in
   on_files (to_filename E (inverse_transform E masker tau_est)
               (path_join results_dir (tau_name hyp))))%run.

(** Lines 24-97: [run_ttests(narps, logfile, overwrite)], one turn of its
    loop first. The messages of [print] go to the standard output and are
    not modelled; nor is the making of the results directory. *)
Definition run_hyp_logged (narps : narps_t) (logfile : string) (overwrite : bool)
    (hyp : nat) : logged unit :=
  (let+ skip := on_files (use_existing narps overwrite hyp) in
   if skip then lret tt else consensus_analysis_logged narps logfile hyp)%run.

Definition run_ttests_logged (narps : narps_t) (logfile : string) (overwrite : bool) :
    logged unit :=
  (let+ _ := log_to_file logfile (LogFunc "run_ttests") in
   lfor_each (hypnums E) (run_hyp_logged narps logfile overwrite))%run.

(** Lines 145-155 of [mk_figures], for one hypothesis: the tau volume is
    loaded and masked, its median and maximum are logged ([numpy.max]
    raises [ValueError] for an array without entries), and the histogram
    is taken. *)
Definition mk_tauhist (narps : narps_t) (logfile : string) (hyp : nat) :
    logged (list Z * vec) :=
  (let+ tauimg := on_files (load (path_join (dirs_consensus narps) (tau_name hyp))) in
   let+ taudata := on_files (lift (masker_transform E (MNI_mask narps) [tauimg])) in
   let+ _ := on_files (lift (match concat taudata with
                             | [] => Err ValueError
                             | _ => Ok tt
                             end)) in
   let+ _ := log_to_file logfile (LogTau hyp taudata) in
   on_files (lift (match tauhist taudata with
                   | Some h => Ok h
                   | None => Err ValueError
                   end)))%run.

End LoggedRun.

(** ** Concrete inputs *)

(** Four identical teams over three voxels. *)
Definition scenario : matrix :=
  [[1; 2; 3]; [1; 2; 3]; [1; 2; 3]; [1; 2; 3]]%float.

(** Two teams over two voxels. *)
Definition two_by_two : matrix := [[1; 2]; [3; 4]]%float.

(** A mask of three voxels, all of them inside. *)
Definition mask3 : mask_img := Mask (3, 1, 1) [true; true; true].

Definition narps0 : narps_t :=
  Narps mask3 "/data/output" "/data/output/consensus_analysis".

Definition img123 : volume := Volume (3, 1, 1) [1; 2; 3]%float.

(** The maps of four teams for hypothesis 1, all equal to [[1, 2, 3]]. *)
Definition fs_scenario : files :=
  <["/data/output/zstat/teamA/hypo1_unthresh.nii.gz" := img123]>
  (<["/data/output/zstat/teamB/hypo1_unthresh.nii.gz" := img123]>
  (<["/data/output/zstat/teamC/hypo1_unthresh.nii.gz" := img123]>
  (<["/data/output/zstat/teamD/hypo1_unthresh.nii.gz" := img123]> ∅))).

(** The map of a single team. *)
Definition fs_one_team : files :=
  <["/data/output/zstat/teamA/hypo1_unthresh.nii.gz" := img123]> ∅.

(** The maps of two teams whose values do not vary: [[5, 5, 5]] each. *)
Definition img555 : volume := Volume (3, 1, 1) [5; 5; 5]%float.

Definition fs_flat : files :=
  <["/data/output/zstat/teamA/hypo1_unthresh.nii.gz" := img555]>
  (<["/data/output/zstat/teamB/hypo1_unthresh.nii.gz" := img555]> ∅).

(** A results directory that holds the 1-fdr volume of hypothesis 1 and
    nothing else of it. *)
Definition fs_fdr_only : files :=
  <["/data/output/consensus_analysis/hypo1_1-fdr.nii.gz" := img123]> fs_scenario.

(** Collaborators for the concrete runs: the masker and the t-test of the
    specification, a constant p-value, an FDR correction that rejects
    nothing, the file system's own order, and a store that takes every
    write. *)
Definition listdir0 (fs : files) : list string := map fst (map_to_list fs).
Definition p_half (df : nat) (t : float) : float := 0.5%float.
Definition reject_none (pvals : vec) (alpha : float) : result (list bool * vec) :=
  Ok (map (fun _ => false) pvals, pvals).
Definition always_writable (p : string) : bool := true.

Definition env0 : env :=
  Env (Utils.t_corr p_half) Masker.forward Masker.inverse reject_none listdir0
      always_writable [1%nat].

(** The same with the paths listed in the reverse order. *)
Definition listdir_rev (fs : files) : list string := rev (listdir0 fs).

(** The same with a store that refuses the tau volume. *)
Definition tau_refused (p : string) : bool := negb (ends_with "_tau.nii.gz" p).


(** The maps of four teams for hypothesis 1 and of a single team for
    hypothesis 2; no map for hypothesis 5. *)
Definition fs_two_hyps : files :=
  <["/data/output/zstat/teamA/hypo2_unthresh.nii.gz" := img123]> fs_scenario.

(** The collaborators of the concrete runs, looping over the hypotheses 1,
    2 and 5. *)
Definition env125 : env := with_hypnums env0 [1; 2; 5]%nat.

(** The literal [0.95], the default threshold of [mk_figures], as the
    nearest binary64 value. *)
Definition thresh_095 : float := 0x1.e666666666666p-1%float.

(** Tau values at four voxels: one in the first bin, one in the bin that
    starts at 1, one above the last edge, and nan. *)
Definition taudata4 : matrix := [[0x1p-8; 1; 7; nan]]%float.


Definition img124 : volume := Volume (3, 1, 1) [1; 2; 4]%float.
Definition img237 : volume := Volume (3, 1, 1) [2; 3; 7]%float.

(** The maps of three teams for hypothesis 1, each with values of its
    own. *)
Definition fs_three_teams : files :=
  <["/data/output/zstat/teamB/hypo1_unthresh.nii.gz" := img124]>
  (<["/data/output/zstat/teamA/hypo1_unthresh.nii.gz" := img123]>
  (<["/data/output/zstat/teamC/hypo1_unthresh.nii.gz" := img237]> ∅)).

(** Lines 219-221: the log file of the script. *)
Definition logfile0 : string := "/data/logs/ConsensusAnalysis.txt".

(** A tau volume of three voxels, with one value in the first bin, one in
    the bin that starts at 1 and one above the last edge, as the only file
    of the results directory. *)
Definition img_tau : volume := Volume (3, 1, 1) [0x1p-8; 1; 7]%float.
Definition fs_tau : files :=
  <["/data/output/consensus_analysis/hypo1_tau.nii.gz" := img_tau]> ∅.
(** * Properties *)

(** ** Lists and folds *)

Lemma fold_left_ext_in {A B} (f g : A -> B -> A) (l : list B) (a : A) :
  (forall acc x, In x l -> f acc x = g acc x) ->
  fold_left f l a = fold_left g l a.
Proof.
  revert a. induction l as [|x l IH]; intros a Hfg; simpl; [reflexivity|].
  rewrite (Hfg a x) by (left; reflexivity).
  apply IH. intros acc y Hy. apply Hfg. right. exact Hy.
Qed.

Lemma fold_left_seq_nth {A B} (g : A -> B -> A) (l : list B) (d : B) (a : A) :
  fold_left (fun acc k => g acc (nth k l d)) (seq 0 (length l)) a = fold_left g l a.
Proof.
  revert a. induction l as [|x l IH] using rev_ind; intros a; [reflexivity|].
  rewrite length_app, Nat.add_comm. simpl length.
  rewrite seq_S, !fold_left_app. simpl.
  rewrite app_nth2, Nat.sub_diag by lia. simpl. f_equal.
  rewrite <- IH. apply fold_left_ext_in.
  intros acc k Hk. apply in_seq in Hk. rewrite app_nth1 by lia. reflexivity.
Qed.

Lemma add_reduce_sigma (l : vec) :
  add_reduce l = sigma (length l) (fun k => nth k l 0%float).
Proof.
  unfold add_reduce, sigma.
  symmetry. apply (fold_left_seq_nth PrimFloat.add l 0%float).
Qed.

Lemma sigma_ext (n : nat) (f g : nat -> float) :
  (forall k, (k < n)%nat -> f k = g k) -> sigma n f = sigma n g.
Proof.
  intros Hfg. unfold sigma. apply fold_left_ext_in.
  intros acc k Hk. apply in_seq in Hk. rewrite Hfg by lia. reflexivity.
Qed.

Lemma add_reduce_map_sigma {B} (h : B -> float) (l : list B) (d : B) :
  add_reduce (map h l) = sigma (length l) (fun k => h (nth k l d)).
Proof.
  rewrite add_reduce_sigma, length_map. apply sigma_ext.
  intros k Hk. rewrite (nth_indep _ 0%float (h d)) by (rewrite length_map; lia).
  apply map_nth.
Qed.

(** ** The variance handed to the t-test (C1) *)

Lemma mean_team_mean (v : nat) (data : matrix) (i : nat) :
  length (nth i data []) = v -> mean (nth i data []) = team_mean v data i.
Proof.
  intros Hv. unfold mean, team_mean. rewrite add_reduce_sigma, Hv. reflexivity.
Qed.

Lemma var_team_variance (v : nat) (data : matrix) (i : nat) :
  length (nth i data []) = v -> var_ddof 0 (nth i data []) = team_variance v data i.
Proof.
  intros Hv. unfold var_ddof, team_variance.
  rewrite (add_reduce_map_sigma _ _ 0%float), Nat.sub_0_r, Hv.
  rewrite (mean_team_mean v) by exact Hv. reflexivity.
Qed.

(** C1, as the code has it: for an [n] by [v] feature matrix, the variance
    handed to the correlated t-test is the mean over the [n] teams of the
    variance with divisor [v] of each team's [v] voxel values: the variance
    is taken along the voxel dimension, one value per team. *)
Theorem img_var_is_mean_team_variance (n v : nat) (data : matrix) :
  shape0 data = n ->
  Forall (fun row => length row = v) data ->
  img_var data = mean_team_variance n v data.
Proof.
  intros Hn Hrows. unfold img_var, mean_team_variance, mean.
  change (var data 1) with (map (var_ddof 0) data).
  rewrite (add_reduce_map_sigma (B:=vec) _ _ []), length_map.
  unfold shape0 in Hn. rewrite Hn. f_equal.
  apply sigma_ext. intros k Hk. apply var_team_variance.
  rewrite Forall_forall in Hrows. apply Hrows, list_elem_of_In, nth_In. lia.
Qed.

(** C1 on two teams over two voxels. *)
Lemma img_var_is_mean_team_variance_witness :
  shape0 two_by_two = 2%nat /\
  Forall (fun row => length row = 2%nat) two_by_two /\
  img_var two_by_two = mean_team_variance 2 2 two_by_two.
Proof.
  split; [reflexivity|]. split; [repeat constructor|].
  apply (img_var_is_mean_team_variance 2 2 two_by_two); [reflexivity|repeat constructor].
Defined.

(** C1 fails as stated: for the teams [[1, 2]] and [[3, 4]] the code's
    variance is 0.25 (each team's variance over its two voxels), while the
    mean of the per-voxel sample variances across the two teams is 2. *)
Lemma img_var_not_per_voxel_sample_variance :
  img_var two_by_two = 0.25%float /\
  spec_variance two_by_two = 2%float /\
  (img_var two_by_two =? spec_variance two_by_two)%float = false.
Proof. repeat split; vm_compute; reflexivity. Qed.

(** ** Square roots in binary64 *)

Lemma binary_round_aux_range prec emax m e l :
  sf_sqrt_range (SpecFloat.binary_round_aux prec emax false m e l).
Proof.
  unfold SpecFloat.binary_round_aux.
  destruct (SpecFloat.shr_fexp prec emax m e l) as [mrs' e'].
  destruct (SpecFloat.shr_fexp prec emax _ e' SpecFloat.loc_Exact) as [mrs'' e''].
  destruct (SpecFloat.shr_m mrs''); simpl; [exact I| |exact I].
  destruct (Z.leb _ _); reflexivity.
Qed.

Lemma SFsqrt_range prec emax s : sf_sqrt_range (SpecFloat.SFsqrt prec emax s).
Proof.
  destruct s as [sg|sg| |sg m e]; simpl; try exact I.
  - destruct sg; simpl; [exact I|reflexivity].
  - destruct sg; [exact I|].
    destruct (SpecFloat.SFsqrt_core_binary prec emax (Z.pos m) e) as [[mz ez] lz].
    apply binary_round_aux_range.
Qed.

Lemma Prim2SF_zero : Prim2SF 0%float = SpecFloat.S754_zero false.
Proof. reflexivity. Qed.

(** [numpy.sqrt] never returns a negative number: the result is nan or it
    is [>= 0]. *)
Lemma sqrt_nan_or_nonneg (x : float) :
  PrimFloat.is_nan (PrimFloat.sqrt x) = true \/ (0 <=? PrimFloat.sqrt x)%float = true.
Proof.
  unfold PrimFloat.is_nan.
  rewrite FloatAxioms.eqb_spec, FloatAxioms.leb_spec, FloatAxioms.sqrt_spec, Prim2SF_zero.
  pose proof (SFsqrt_range FloatOps.prec FloatOps.emax (Prim2SF x)) as Hr.
  unfold FloatAxioms.SF64sqrt.
  destruct (SpecFloat.SFsqrt FloatOps.prec FloatOps.emax (Prim2SF x)) as [sg|sg| |sg m e];
    simpl in Hr; subst; simpl; auto.
Qed.

(** The square root of a number below zero is nan. *)
Lemma sqrt_negative_nan (x : float) :
  (x <? 0)%float = true -> PrimFloat.is_nan (PrimFloat.sqrt x) = true.
Proof.
  unfold PrimFloat.is_nan.
  rewrite FloatAxioms.ltb_spec, FloatAxioms.eqb_spec, FloatAxioms.sqrt_spec, Prim2SF_zero.
  unfold FloatAxioms.SF64sqrt.
  destruct (Prim2SF x) as [sg|sg| |sg m e]; simpl; try discriminate.
  - destruct sg; [reflexivity|discriminate].
  - destruct sg; [reflexivity|discriminate].
Qed.

(** ** The heterogeneity estimate (C2, C4) *)

(** C2, as the code has it: for four identical teams [[1, 2, 3]] the
    correlation matrix is all ones, the normaliser [trace(R.Q)] is 0 and so
    is every voxel's quadratic form, so [tau2 = (1/0) * 0] and tau is nan at
    each of the three voxels. *)
Theorem tau_scenario_nan :
  cc scenario = ones 4 4 /\
  sampvar_est 4 (cc scenario) = 0%float /\
  map (fun i => dot (vecmat (col scenario i) (tau_R 4)) (col scenario i)) [0; 1; 2]%nat
    = [0; 0; 0]%float /\
  tau scenario (cc scenario) = [nan; nan; nan].
Proof. repeat split; vm_compute; reflexivity. Qed.

(** C2 fails as stated: on that input no voxel's tau is within the
    tolerance of 0. *)
Lemma tau_scenario_not_zero :
  Forall (fun t => approx_zero t = false) (tau scenario (cc scenario)) /\
  ~ Forall (fun t => approx_zero t = true) (tau scenario (cc scenario)).
Proof.
  split.
  - vm_compute. repeat constructor.
  - intros H. apply Forall_inv in H. vm_compute in H. discriminate H.
Qed.

Lemma tau_is_sqrt_tau2 (data Q : matrix) : tau data Q = map PrimFloat.sqrt (tau2 data Q).
Proof. reflexivity. Qed.

(** C4, as the code has it: [tau] is [numpy.sqrt(tau2)] with no clamp.
    Every entry is nan or [>= 0]; an entry whose [tau2] is below zero is
    nan, not 0; and an entry that is not nan is the clamped value
    [sqrt(max(tau2, 0))]. *)
Theorem tau_nan_or_nonneg (data Q : matrix) :
  Forall (fun t => PrimFloat.is_nan t = true \/ (0 <=? t)%float = true) (tau data Q) /\
  Forall2 (fun x t => (x <? 0)%float = true -> PrimFloat.is_nan t = true)
    (tau2 data Q) (tau data Q) /\
  Forall2 (fun t c => PrimFloat.is_nan t = false -> t = c)
    (tau data Q) (clamped_tau data Q).
Proof.
  rewrite tau_is_sqrt_tau2. unfold clamped_tau.
  generalize (tau2 data Q) as xs. intros xs. repeat split.
  - induction xs as [|x xs IH]; simpl; constructor; auto using sqrt_nan_or_nonneg.
  - induction xs as [|x xs IH]; simpl; constructor; auto using sqrt_negative_nan.
  - induction xs as [|x xs IH]; simpl; constructor; auto.
    intros Hnn. unfold py_max. destruct (x <? 0)%float eqn:Hneg; [|reflexivity].
    rewrite (sqrt_negative_nan x Hneg) in Hnn. discriminate Hnn.
Qed.

(** C4 fails as stated: four identical teams are a feature matrix with
    [n >= 2] for which tau is returned, and none of its entries is [>= 0]. *)
Lemma tau_not_always_nonneg :
  (2 <= shape0 scenario)%nat /\
  Forall (fun t => (0 <=? t)%float = false) (tau scenario (cc scenario)) /\
  ~ Forall (fun t => (0 <=? t)%float = true) (tau scenario (cc scenario)).
Proof.
  split; [vm_compute; lia|]. split.
  - vm_compute. repeat constructor.
  - intros H. apply Forall_inv in H. vm_compute in H. discriminate H.
Qed.

(** ** The masker (C7) *)

Lemma sample_scatter (bits : list bool) (x : vec) :
  length x = length (filter (fun b => b = true) bits) ->
  Masker.sample bits (Masker.scatter bits x) = x.
Proof.
  revert x. induction bits as [|b bits IH]; intros x Hlen.
  - destruct x; [reflexivity|discriminate Hlen].
  - destruct b.
    + rewrite filter_cons_True in Hlen by reflexivity.
      destruct x as [|x0 x]; [discriminate Hlen|].
      simpl in *. f_equal. apply IH. lia.
    + rewrite filter_cons_False in Hlen by discriminate.
      simpl. apply IH. exact Hlen.
Qed.

Lemma length_scatter (bits : list bool) (x : vec) :
  length (Masker.scatter bits x) = length bits.
Proof.
  revert x. induction bits as [|b bits IH]; intros x; [reflexivity|].
  destruct b; [destruct x|]; simpl; rewrite IH; reflexivity.
Qed.

(** C7: for every mask with [v] true voxels and every vector [x] of length
    [v], the forward transform of the volume that the inverse transform
    makes of [x] is [x] itself, exactly. *)
Theorem masker_round_trip (mask : mask_img) (x : vec) :
  length x = Masker.n_voxels mask ->
  Masker.forward mask [Masker.inverse mask x] = Ok [x].
Proof.
  intros Hlen. unfold Masker.forward, Masker.forward1, Masker.inverse. simpl.
  rewrite length_scatter.
  destruct (decide _) as [_|Hne]; [|exfalso; apply Hne; split; reflexivity].
  rewrite sample_scatter by exact Hlen. reflexivity.
Qed.

(** C7 on a mask of three voxels. *)
Lemma masker_round_trip_witness :
  length [1; 2; 3]%float = Masker.n_voxels mask3 /\
  Masker.forward mask3 [Masker.inverse mask3 [1; 2; 3]%float] = Ok [[1; 2; 3]%float].
Proof.
  split; [reflexivity|].
  apply (masker_round_trip mask3 [1; 2; 3]%float). reflexivity.
Defined.

(** ** Paths *)

Lemma append_assoc (a b c : string) : a +:+ (b +:+ c) = (a +:+ b) +:+ c.
Proof.
  induction a as [|x a IH]; [reflexivity|].
  change (String x (a +:+ (b +:+ c)) = String x ((a +:+ b) +:+ c)).
  rewrite IH. reflexivity.
Qed.

Lemma rev_app_append (a b c : string) :
  String.rev_app (a +:+ b) c = String.rev_app b (String.rev_app a c).
Proof. revert c. induction a as [|x a IH]; intros c; simpl; [reflexivity|apply IH]. Qed.

Lemma rev_app_acc (a c : string) : String.rev_app a c = String.rev a +:+ c.
Proof.
  unfold String.rev. revert c.
  induction a as [|x a IH]; intros c; simpl; [reflexivity|].
  rewrite IH, (IH (String x "")), <- append_assoc. reflexivity.
Qed.

Lemma rev_append (a b : string) : String.rev (a +:+ b) = String.rev b +:+ String.rev a.
Proof. unfold String.rev at 1. rewrite rev_app_append. apply rev_app_acc. Qed.

Lemma rev_involutive (a : string) : String.rev (String.rev a) = a.
Proof.
  induction a as [|x a IH]; [reflexivity|].
  change (String x a) with (String x "" +:+ a).
  rewrite rev_append, rev_append, IH. reflexivity.
Qed.

Lemma strip_prefix_Some (pre s r : string) :
  strip_prefix pre s = Some r -> s = pre +:+ r.
Proof.
  revert s. induction pre as [|a pre IH]; intros s H; simpl in H.
  - injection H as ->. reflexivity.
  - destruct s as [|b s]; [discriminate H|].
    destruct (Ascii.eqb a b) eqn:Hab; [|discriminate H].
    apply Ascii.eqb_eq in Hab. subst b.
    change (String a s = String a (pre +:+ r)). f_equal. apply IH, H.
Qed.

Lemma strip_suffix_Some (suf s t : string) :
  strip_suffix suf s = Some t -> s = t +:+ suf.
Proof.
  unfold strip_suffix. intros H.
  destruct (strip_prefix (String.rev suf) (String.rev s)) as [r|] eqn:Hr; [|discriminate H].
  injection H as <-. apply strip_prefix_Some in Hr.
  rewrite <- (rev_involutive s), Hr, rev_append, rev_involutive. reflexivity.
Qed.

Lemma prefix_append (p s : string) : String.prefix p (p +:+ s) = true.
Proof.
  induction p as [|a p IH]; [destruct s; reflexivity|].
  change (String.prefix (String a p) (String a (p +:+ s)) = true). simpl.
  destruct (Ascii.ascii_dec a a) as [_|Hne]; [exact IH|contradiction].
Qed.

Lemma ends_with_append (a suffix : string) : ends_with suffix (a +:+ suffix) = true.
Proof. unfold ends_with. rewrite rev_append. apply prefix_append. Qed.

(** A map of a team ends in [_unthresh.nii.gz]. *)
Lemma is_map_ends_with (output : string) (hyp : nat) (p : string) :
  is_map output hyp p = true -> ends_with "_unthresh.nii.gz" p = true.
Proof.
  unfold is_map. intros H.
  destruct (strip_prefix _ p) as [rest|] eqn:Hp; [|discriminate H].
  destruct (strip_suffix _ rest) as [team|] eqn:Hs; [|discriminate H].
  apply strip_prefix_Some in Hp. apply strip_suffix_Some in Hs. subst p rest.
  rewrite !append_assoc. apply ends_with_append.
Qed.

Lemma path_join_relative (a b : string) :
  String.prefix "/" b = false -> path_join a b = dir_prefix a +:+ b.
Proof.
  intros Hb. unfold path_join, dir_prefix. rewrite Hb.
  destruct (String.eqb a "" || ends_with "/" a); [reflexivity|].
  rewrite <- append_assoc. reflexivity.
Qed.

Lemma out_paths_eq (narps : narps_t) (hyp : nat) :
  out_paths narps hyp =
  map (fun suffix => (dir_prefix (dirs_consensus narps) +:+ "hypo" +:+ fmt_d hyp) +:+ suffix)
      ["_t.nii.gz"; "_1-p.nii.gz"; "_1-fdr.nii.gz"; "_tau.nii.gz"].
Proof.
  unfold out_paths, t_name, p_name, fdr_name, tau_name. simpl.
  rewrite !path_join_relative by reflexivity.
  rewrite <- !append_assoc. reflexivity.
Qed.

Lemma out_paths_NoDup (narps : narps_t) (hyp : nat) : NoDup (out_paths narps hyp).
Proof.
  rewrite out_paths_eq. apply NoDup_fmap_2; [apply String.app_inj|].
  apply NoDup_ListNoDup. repeat constructor; simpl; intuition discriminate.
Qed.

(** No result volume is a map of a team, whatever the directories. *)
Lemma out_path_not_map (narps : narps_t) (hyp : nat) (output : string) (hyp' : nat) (p : string) :
  p ∈ out_paths narps hyp -> is_map output hyp' p = false.
Proof.
  intros Hp. destruct (is_map output hyp' p) eqn:Hm; [|reflexivity].
  apply is_map_ends_with in Hm. rewrite out_paths_eq in Hp.
  apply list_elem_of_fmap in Hp as (suffix & -> & Hs).
  unfold ends_with in Hm. rewrite rev_append in Hm.
  set (r := String.rev (_ +:+ _)) in Hm. clearbody r.
  repeat (apply elem_of_cons in Hs as [->|Hs]; [vm_compute in Hm; discriminate Hm|]).
  inversion Hs.
Qed.

(** ** Writes *)

Lemma apply_writes_lookup_notin (ws : list (string * volume)) (fs : files) (p : string) :
  p ∉ map fst ws -> apply_writes ws fs !! p = fs !! p.
Proof.
  revert fs. induction ws as [|w ws IH]; intros fs Hp; [reflexivity|].
  simpl in *. apply not_elem_of_cons in Hp as [Hne Hp].
  rewrite IH by exact Hp. apply lookup_insert_ne. congruence.
Qed.

Lemma apply_writes_lookup_in (ws : list (string * volume)) (fs : files) (p : string) (v : volume) :
  NoDup (map fst ws) -> (p, v) ∈ ws -> apply_writes ws fs !! p = Some v.
Proof.
  revert fs. induction ws as [|w ws IH]; intros fs Hnd Hin; [inversion Hin|].
  simpl in *. apply NoDup_cons in Hnd as [Hw Hnd].
  apply elem_of_cons in Hin as [<-|Hin].
  - rewrite apply_writes_lookup_notin by exact Hw. apply lookup_insert_eq.
  - apply IH; assumption.
Qed.

Lemma apply_writes_is_Some (ws : list (string * volume)) (fs : files) (p : string) :
  p ∈ map fst ws -> is_Some (apply_writes ws fs !! p).
Proof.
  revert fs. induction ws as [|w ws IH]; intros fs Hin; [inversion Hin|].
  simpl in *. destruct (decide (p ∈ map fst ws)) as [Hp|Hp]; [apply IH, Hp|].
  apply elem_of_cons in Hin as [->|Hin]; [|contradiction].
  rewrite apply_writes_lookup_notin by exact Hp. rewrite lookup_insert_eq. eauto.
Qed.

Lemma apply_writes_idemp (ws : list (string * volume)) (fs : files) :
  NoDup (map fst ws) -> apply_writes ws (apply_writes ws fs) = apply_writes ws fs.
Proof.
  intros Hnd. apply map_eq. intros p.
  destruct (decide (p ∈ map fst ws)) as [Hp|Hp].
  - apply list_elem_of_fmap in Hp as ([q v] & -> & Hin). simpl.
    rewrite !(apply_writes_lookup_in ws _ q v) by assumption. reflexivity.
  - rewrite apply_writes_lookup_notin by exact Hp. reflexivity.
Qed.

Lemma bind_ext {A B} (c1 c2 : io A) (k1 k2 : A -> io B) (fs : files) :
  c1 fs = c2 fs -> (forall a fs', k1 a fs' = k2 a fs') ->
  bind c1 k1 fs = bind c2 k2 fs.
Proof.
  intros Hc Hk. unfold bind. rewrite Hc.
  destruct (c2 fs) as [[a|e] fs']; [apply Hk|reflexivity].
Qed.

(** ** Sorting the maps *)

Lemma merge_sort_Permutation_eq (l1 l2 : list string) :
  l1 ≡ₚ l2 -> merge_sort String.le l1 = merge_sort String.le l2.
Proof.
  intros Hperm. apply (Sorted_unique String.le).
  - apply Sorted_merge_sort. apply _.
  - apply Sorted_merge_sort. apply _.
  - rewrite !merge_sort_Permutation. exact Hperm.
Qed.

(** ** One hypothesis *)

Section RunFacts.

Variable E : env.

Lemma load_all_state (ps : list string) (fs : files) : snd (load_all ps fs) = fs.
Proof.
  induction ps as [|p ps IH]; [reflexivity|].
  simpl. unfold bind, load. destruct (fs !! p); [|reflexivity].
  destruct (load_all ps fs) as [[imgs|e] fs'] eqn:Hl; simpl in *; subst; reflexivity.
Qed.

(** The images that [load_all] returns are those of the paths, in their
    order. *)
Lemma load_all_Forall2 (ps : list string) (fs : files) (imgs : list volume) :
  fst (load_all ps fs) = Ok imgs -> Forall2 (fun p img => fs !! p = Some img) ps imgs.
Proof.
  revert imgs. induction ps as [|p ps IH]; intros imgs.
  - intros [= <-]. constructor.
  - simpl. unfold bind, load. destruct (fs !! p) as [img|] eqn:Hp; [|discriminate].
    pose proof (load_all_state ps fs) as Hs.
    destruct (load_all ps fs) as [[rest|e] fs'] eqn:Hl; simpl in *; [|discriminate].
    intros [= <-]. constructor; [exact Hp|]. apply IH. reflexivity.
Qed.

Lemma load_all_ext (ps : list string) (fs1 fs2 : files) :
  (forall p, p ∈ ps -> fs1 !! p = fs2 !! p) ->
  fst (load_all ps fs1) = fst (load_all ps fs2).
Proof.
  induction ps as [|p ps IH]; intros Hext; [reflexivity|].
  simpl. unfold bind, load.
  rewrite (Hext p) by (left; reflexivity).
  destruct (fs2 !! p); [|reflexivity].
  pose proof (load_all_state ps fs1) as S1. pose proof (load_all_state ps fs2) as S2.
  assert (IH' : fst (load_all ps fs1) = fst (load_all ps fs2)).
  { apply IH. intros q Hq. apply Hext. right. exact Hq. }
  destruct (load_all ps fs1) as [r1 fs1'], (load_all ps fs2) as [r2 fs2'].
  simpl in *. subst. destruct r2; reflexivity.
Qed.

Lemma load_all_err (ps : list string) (fs : files) (e : exn) :
  fst (load_all ps fs) = Err e -> e = OSError.
Proof.
  induction ps as [|p ps IH]; [discriminate|].
  simpl. unfold bind, load. destruct (fs !! p); [|intros [= <-]; reflexivity].
  destruct (load_all ps fs) as [[imgs|e'] fs']; simpl in *; [discriminate|].
  intros [= <-]. apply IH. reflexivity.
Qed.

Lemma fit_transform_state (masker : mask_img) (ps : list string) (fs : files) :
  snd (fit_transform E masker ps fs) = fs.
Proof.
  unfold fit_transform, bind, lift. pose proof (load_all_state ps fs) as S.
  destruct (load_all ps fs) as [[imgs|e] fs']; simpl in *; subst; reflexivity.
Qed.

Lemma fit_transform_ext (masker : mask_img) (ps : list string) (fs1 fs2 : files) :
  (forall p, p ∈ ps -> fs1 !! p = fs2 !! p) ->
  fst (fit_transform E masker ps fs1) = fst (fit_transform E masker ps fs2).
Proof.
  intros Hext. unfold fit_transform, bind, lift.
  pose proof (load_all_ext ps fs1 fs2 Hext) as Hl.
  destruct (load_all ps fs1) as [r1 fs1'], (load_all ps fs2) as [r2 fs2'].
  simpl in Hl. subst. destruct r2; reflexivity.
Qed.

(** A failed [fit_transform] is a failed read or a failure of the masker. *)
Lemma fit_transform_err (masker : mask_img) (ps : list string) (fs : files) (e : exn) :
  fst (fit_transform E masker ps fs) = Err e ->
  e = OSError \/ exists imgs, masker_transform E masker imgs = Err e.
Proof.
  unfold fit_transform, bind, lift. pose proof (load_all_err ps fs) as Hl.
  destruct (load_all ps fs) as [[imgs|e'] fs']; simpl in *.
  - intros He. right. exists imgs. exact He.
  - intros [= <-]. left. apply Hl. reflexivity.
Qed.

(** A failed [write_results] is a refused write or a failure of
    [multipletests]. *)
Lemma write_results_err (narps : narps_t) (hyp : nat) (data : matrix) (tvals pvals : vec)
    (fs : files) (e : exn) :
  fst (write_results E narps hyp data tvals pvals fs) = Err e ->
  e = OSError \/ multipletests E pvals alpha_005 = Err e.
Proof.
  unfold write_results, to_filename, bind, lift. simpl.
  destruct (writable E _); [|intros [= <-]; left; reflexivity].
  destruct (writable E _); [|intros [= <-]; left; reflexivity].
  destruct (multipletests E pvals alpha_005) as [fdr|e']; [|intros [= <-]; right; reflexivity].
  destruct (writable E _); [|intros [= <-]; left; reflexivity].
  destruct (writable E _); [discriminate|intros [= <-]; left; reflexivity].
Qed.

Lemma log_moments_err (data : matrix) (e : exn) :
  log_moments data = Err e -> e = ValueError /\ shape0 data = 1%nat.
Proof.
  unfold log_moments. destruct (Nat.eqb_spec (shape0 data) 1); [|discriminate].
  intros [= <-]. split; [reflexivity|assumption].
Qed.

(** The loop body in terms of what it reads and what it writes. *)
Lemma consensus_analysis_eq (narps : narps_t) (hyp : nat) (fs : files) :
  consensus_analysis E narps hyp fs =
  match features E narps hyp fs with
  | Err e => (Err e, fs)
  | Ok data =>
      match log_moments data with
      | Err e => (Err e, fs)
      | Ok _ =>
          match t_corr E data (img_mean data) (img_var data) (cc data) with
          | Err e => (Err e, fs)
          | Ok tp => write_results E narps hyp data (fst tp) (snd tp) fs
          end
      end
  end.
Proof.
  unfold consensus_analysis, features, sorted_maps, glob, bind, lift. simpl.
  pose proof (fit_transform_state (MNI_mask narps)
    (merge_sort String.le (filter (fun p => is_map (dirs_output narps) hyp p) (listdir E fs)))
    fs) as S.
  destruct (fit_transform E _ _ fs) as [[data|e] fs']; simpl in *; subst; [|reflexivity].
  destruct (log_moments data); [|reflexivity].
  destruct (t_corr E _ _ _ _); reflexivity.
Qed.

(** [write_results] performs a prefix of its four writes; how long a prefix
    does not depend on the files. *)
Lemma write_results_plan (narps : narps_t) (hyp : nat) (data : matrix) (tvals pvals : vec) :
  exists (k : nat) (r : result unit),
    (k <= 4)%nat /\ (r = Ok tt <-> k = 4%nat) /\
    forall fs, write_results E narps hyp data tvals pvals fs =
               (r, apply_writes (take k (planned_writes E narps hyp data tvals pvals)) fs).
Proof.
  unfold write_results, planned_writes, out_paths, to_filename, bind, lift. simpl.
  destruct (writable E (path_join _ (t_name hyp))) eqn:W1;
    [|exists 0%nat, (Err OSError); repeat split; try lia; try discriminate].
  destruct (writable E (path_join _ (p_name hyp))) eqn:W2;
    [|exists 1%nat, (Err OSError); repeat split; try lia; try discriminate].
  destruct (multipletests E pvals alpha_005) as [fdr|e] eqn:MT;
    [|exists 2%nat, (Err e); repeat split; try lia; try discriminate].
  destruct (writable E (path_join _ (fdr_name hyp))) eqn:W3;
    [|exists 2%nat, (Err OSError); repeat split; try lia; try discriminate].
  destruct (writable E (path_join _ (tau_name hyp))) eqn:W4;
    [|exists 3%nat, (Err OSError); repeat split; try lia; try discriminate].
  exists 4%nat, (Ok tt). repeat split; try lia.
Qed.

Lemma planned_writes_paths (narps : narps_t) (hyp : nat) (data : matrix)
    (tvals pvals : vec) (k : nat) :
  map fst (take k (planned_writes E narps hyp data tvals pvals))
  = take k (out_paths narps hyp).
Proof.
  unfold planned_writes, out_paths. simpl.
  destruct k as [|[|[|[|k]]]]; simpl; rewrite ?take_nil; reflexivity.
Qed.

(** Writes to result volumes do not change what a hypothesis reads. *)
Lemma features_apply_writes (narps : narps_t) (hyp : nat) (ws : list (string * volume))
    (fs : files) :
  lists_files E ->
  (forall p, p ∈ map fst ws -> p ∈ out_paths narps hyp) ->
  features E narps hyp (apply_writes ws fs) = features E narps hyp fs.
Proof.
  intros Hls Hws.
  assert (Hkeep : forall p, is_map (dirs_output narps) hyp p = true ->
                            apply_writes ws fs !! p = fs !! p).
  { intros p Hp. apply apply_writes_lookup_notin. intros Hin.
    apply Hws in Hin. apply (out_path_not_map _ _ (dirs_output narps) hyp) in Hin.
    congruence. }
  assert (Hmaps : sorted_maps E narps hyp (apply_writes ws fs) = sorted_maps E narps hyp fs).
  { unfold sorted_maps. apply merge_sort_Permutation_eq.
    destruct (Hls (apply_writes ws fs)) as [Hnd' Hin'], (Hls fs) as [Hnd Hin].
    apply NoDup_Permutation; [apply NoDup_filter, Hnd'|apply NoDup_filter, Hnd|].
    intros p. rewrite !list_elem_of_filter, Hin', Hin. split.
    - intros [Hp Hs]. split; [exact Hp|]. rewrite <- Hkeep; [exact Hs|].
      apply Is_true_true, Hp.
    - intros [Hp Hs]. split; [exact Hp|]. rewrite Hkeep; [exact Hs|].
      apply Is_true_true, Hp. }
  unfold features. rewrite Hmaps. apply fit_transform_ext.
  intros p Hp. apply Hkeep. unfold sorted_maps in Hp.
  rewrite merge_sort_Permutation in Hp. apply list_elem_of_filter in Hp as [Hp _].
  apply Is_true_true, Hp.
Qed.

(** Running the analysis again on the files it left changes nothing. *)
Lemma consensus_analysis_idemp (narps : narps_t) (hyp : nat) (fs : files)
    (r : result unit) (fs' : files) :
  lists_files E ->
  consensus_analysis E narps hyp fs = (r, fs') ->
  consensus_analysis E narps hyp fs' = (r, fs').
Proof.
  intros Hls. rewrite consensus_analysis_eq.
  destruct (features E narps hyp fs) as [data|e] eqn:Hf.
  2:{ intros [= <- <-]. rewrite consensus_analysis_eq, Hf. reflexivity. }
  destruct (log_moments data) as [[]|e] eqn:Hlog.
  2:{ intros [= <- <-]. rewrite consensus_analysis_eq, Hf, Hlog. reflexivity. }
  destruct (t_corr E _ _ _ _) as [[tvals pvals]|e] eqn:Ht.
  2:{ intros [= <- <-]. rewrite consensus_analysis_eq, Hf, Hlog, Ht. reflexivity. }
  destruct (write_results_plan narps hyp data tvals pvals) as (k & r0 & Hk & Hr & Hrun).
  simpl. rewrite Hrun. intros [= <- <-].
  assert (Hpaths : forall p,
    p ∈ map fst (take k (planned_writes E narps hyp data tvals pvals)) ->
    p ∈ out_paths narps hyp).
  { intros p. rewrite planned_writes_paths. apply subseteq_take. }
  rewrite consensus_analysis_eq, features_apply_writes, Hf, Hlog, Ht by assumption.
  simpl. rewrite Hrun. f_equal. apply apply_writes_idemp.
  rewrite planned_writes_paths.
  eapply sublist_NoDup; [apply out_paths_NoDup|apply sublist_take].
Qed.

End RunFacts.

Lemma out_paths_distinct (narps : narps_t) (hyp : nat) :
  let rd := dirs_consensus narps in
  path_join rd (t_name hyp) <> path_join rd (p_name hyp) /\
  path_join rd (t_name hyp) <> path_join rd (fdr_name hyp) /\
  path_join rd (t_name hyp) <> path_join rd (tau_name hyp) /\
  path_join rd (p_name hyp) <> path_join rd (fdr_name hyp) /\
  path_join rd (p_name hyp) <> path_join rd (tau_name hyp) /\
  path_join rd (fdr_name hyp) <> path_join rd (tau_name hyp).
Proof.
  pose proof (out_paths_NoDup narps hyp) as Hnd. unfold out_paths in Hnd. simpl in Hnd.
  rewrite !NoDup_cons, !not_elem_of_cons in Hnd. simpl. tauto.
Qed.

(** ** The claims about one hypothesis and about the run *)

Section Claims.

Variable E : env.

(** C3, as the code has it, with the correlated t-test of the
    specification in the place of [t_corr]: a feature matrix of two or more
    teams, or of none, that is degenerate (fewer than two teams, or a
    variance estimate that is zero or nan) makes the analysis fail with
    [DegenerateInput], raised by the t-test, and nothing has been written
    at that point. A matrix of a single team does not get that far. *)
Theorem degenerate_input_fails (t_two_sided_p : nat -> float -> float)
    (narps : narps_t) (hyp : nat) (fs : files) (data : matrix) :
  (forall d m v q, t_corr E d m v q = Utils.t_corr t_two_sided_p d m v q) ->
  features E narps hyp fs = Ok data ->
  shape0 data <> 1%nat ->
  degenerate data ->
  consensus_analysis E narps hyp fs = (Err DegenerateInput, fs).
Proof.
  intros Ht Hf Hn Hd. rewrite consensus_analysis_eq, Hf. unfold log_moments.
  apply Nat.eqb_neq in Hn. rewrite Hn, Ht. unfold Utils.t_corr.
  destruct Hd as [Hlt|[Hz|Hnan]].
  - apply Nat.ltb_lt in Hlt. rewrite Hlt. reflexivity.
  - rewrite Hz, orb_true_r. reflexivity.
  - rewrite Hnan, orb_true_r. reflexivity.
Qed.

(** C5, as the code has it: no step inspects the result vectors. Whenever
    the maps load, the t-test and the FDR correction return and the store
    takes the four files, the analysis completes and each file holds its
    vector exactly as computed, whatever its entries (nan and inf
    included). And a failure of the analysis is a failed read, a refused
    write, numpy's [ValueError] for a single team, or the failure that the
    masker, [t_corr] or [multipletests] returned: no step of the run itself
    raises [NumericInstability]. *)
Theorem results_written_unchecked (narps : narps_t) (hyp : nat) (fs : files)
    (data : matrix) (tvals pvals : vec) (rej : list bool) (padj : vec) :
  (features E narps hyp fs = Ok data ->
   shape0 data <> 1%nat ->
   t_corr E data (img_mean data) (img_var data) (cc data) = Ok (tvals, pvals) ->
   multipletests E pvals alpha_005 = Ok (rej, padj) ->
   Forall (fun p => writable E p = true) (out_paths narps hyp) ->
   exists fs',
     consensus_analysis E narps hyp fs = (Ok tt, fs') /\
     fs' !! path_join (dirs_consensus narps) (t_name hyp)
       = Some (inverse_transform E (MNI_mask narps) tvals) /\
     fs' !! path_join (dirs_consensus narps) (p_name hyp)
       = Some (inverse_transform E (MNI_mask narps) (one_minus pvals)) /\
     fs' !! path_join (dirs_consensus narps) (fdr_name hyp)
       = Some (inverse_transform E (MNI_mask narps) (one_minus padj)) /\
     fs' !! path_join (dirs_consensus narps) (tau_name hyp)
       = Some (inverse_transform E (MNI_mask narps) (tau data (cc data)))) /\
  (forall e,
     fst (consensus_analysis E narps hyp fs) = Err e ->
     e = OSError \/ e = ValueError \/
     (exists imgs, masker_transform E (MNI_mask narps) imgs = Err e) \/
     (exists d, t_corr E d (img_mean d) (img_var d) (cc d) = Err e) \/
     (exists pv, multipletests E pv alpha_005 = Err e)).
Proof.
  split.
  - intros Hf Hn Ht Hmt Hw. rewrite consensus_analysis_eq, Hf. unfold log_moments.
    apply Nat.eqb_neq in Hn. rewrite Hn, Ht.
    unfold out_paths in Hw. simpl in Hw.
    apply Forall_cons in Hw as [W1 Hw]. apply Forall_cons in Hw as [W2 Hw].
    apply Forall_cons in Hw as [W3 Hw]. apply Forall_cons in Hw as [W4 _].
    destruct (out_paths_distinct narps hyp) as (D12 & D13 & D14 & D23 & D24 & D34).
    unfold write_results, to_filename, bind, lift. simpl.
    rewrite W1, W2, Hmt, W3, W4. simpl.
    eexists. split; [reflexivity|]. repeat split.
    + rewrite !lookup_insert_ne by congruence. apply lookup_insert_eq.
    + rewrite !lookup_insert_ne by congruence. apply lookup_insert_eq.
    + rewrite !lookup_insert_ne by congruence. apply lookup_insert_eq.
    + apply lookup_insert_eq.
  - intros e. rewrite consensus_analysis_eq. unfold features.
    pose proof (fit_transform_err E (MNI_mask narps) (sorted_maps E narps hyp fs) fs) as Hfe.
    destruct (fst (fit_transform E _ _ fs)) as [data'|e'].
    2:{ intros [= <-]. destruct (Hfe e' eq_refl) as [->|Hm]; auto. }
    destruct (log_moments data') as [[]|e'] eqn:Hlog.
    2:{ intros [= <-]. apply log_moments_err in Hlog as [-> _]. auto. }
    destruct (t_corr E data' _ _ _) as [tp|e'] eqn:Ht.
    2:{ intros [= <-]. right. right. right. left. exists data'. exact Ht. }
    intros He. apply write_results_err in He as [->|He]; eauto 7.
Qed.

(** C6, as the code has it: the four volumes are written one after the
    other and nothing is rolled back. A failure before the first write
    (while loading the maps, in the log call or in the t-test) ends the
    analysis with the files as they were. After that, the files at the end
    are told by the first step that fails: a refused t volume leaves the
    files as they were; a refused 1-p volume leaves them with the t volume
    written; a failure of [multipletests] or a refused 1-fdr volume leaves
    them with the t and 1-p volumes written; a refused tau volume leaves
    them with the t, 1-p and 1-fdr volumes written; and the analysis
    succeeds, with all four written, only when no step fails. *)
Theorem outputs_written_in_order (narps : narps_t) (hyp : nat) (fs : files) :
  let rd := dirs_consensus narps in
  let vol := inverse_transform E (MNI_mask narps) in
  let run := consensus_analysis E narps hyp fs in
  (forall e, features E narps hyp fs = Err e -> run = (Err e, fs)) /\
  (forall data e, features E narps hyp fs = Ok data ->
     log_moments data = Err e -> run = (Err e, fs)) /\
  (forall data e, features E narps hyp fs = Ok data ->
     log_moments data = Ok tt ->
     t_corr E data (img_mean data) (img_var data) (cc data) = Err e ->
     run = (Err e, fs)) /\
  (forall data tvals pvals,
     features E narps hyp fs = Ok data ->
     log_moments data = Ok tt ->
     t_corr E data (img_mean data) (img_var data) (cc data) = Ok (tvals, pvals) ->
     let fs1 := <[path_join rd (t_name hyp) := vol tvals]> fs in
     let fs2 := <[path_join rd (p_name hyp) := vol (one_minus pvals)]> fs1 in
     (writable E (path_join rd (t_name hyp)) = false -> run = (Err OSError, fs)) /\
     (writable E (path_join rd (t_name hyp)) = true ->
      writable E (path_join rd (p_name hyp)) = false -> run = (Err OSError, fs1)) /\
     (writable E (path_join rd (t_name hyp)) = true ->
      writable E (path_join rd (p_name hyp)) = true ->
      (forall e, multipletests E pvals alpha_005 = Err e -> run = (Err e, fs2)) /\
      (forall rej padj, multipletests E pvals alpha_005 = Ok (rej, padj) ->
         let fs3 := <[path_join rd (fdr_name hyp) := vol (one_minus padj)]> fs2 in
         let fs4 := <[path_join rd (tau_name hyp) := vol (tau data (cc data))]> fs3 in
         (writable E (path_join rd (fdr_name hyp)) = false -> run = (Err OSError, fs2)) /\
         (writable E (path_join rd (fdr_name hyp)) = true ->
          writable E (path_join rd (tau_name hyp)) = false -> run = (Err OSError, fs3)) /\
         (writable E (path_join rd (fdr_name hyp)) = true ->
          writable E (path_join rd (tau_name hyp)) = true -> run = (Ok tt, fs4))))).
Proof.
  cbv zeta. rewrite consensus_analysis_eq.
  split; [intros e ->; reflexivity|].
  split; [intros data e -> ->; reflexivity|].
  split; [intros data e -> -> ->; reflexivity|].
  intros data tvals pvals -> -> ->.
  unfold write_results, to_filename, bind, lift. simpl.
  split; [intros ->; reflexivity|].
  split; [intros -> ->; reflexivity|].
  intros -> ->. split; [intros e ->; reflexivity|].
  intros rej padj ->. simpl.
  split; [intros ->; reflexivity|].
  split; [intros -> ->; reflexivity|].
  intros -> ->. reflexivity.
Qed.

(** C8, as the code has it: with [overwrite=false] the hypothesis is
    skipped exactly when its 1-fdr volume exists, whatever the other three,
    and then no file changes; otherwise, and always with [overwrite=true],
    the analysis runs, and running it again on the files it left gives the
    same outcome and the same files. *)
Theorem overwrite_policy (narps : narps_t) (hyp : nat) (fs : files) :
  lists_files E ->
  (fst (use_existing narps false hyp fs) = Ok true <->
     is_Some (fs !! path_join (dirs_consensus narps) (fdr_name hyp))) /\
  (is_Some (fs !! path_join (dirs_consensus narps) (fdr_name hyp)) ->
     run_hyp E narps false hyp fs = (Ok tt, fs)) /\
  (fs !! path_join (dirs_consensus narps) (fdr_name hyp) = None ->
     run_hyp E narps false hyp fs = consensus_analysis E narps hyp fs) /\
  run_hyp E narps true hyp fs = consensus_analysis E narps hyp fs /\
  run_hyp E narps true hyp (snd (run_hyp E narps true hyp fs)) = run_hyp E narps true hyp fs.
Proof.
  intros Hls.
  assert (Htrue : forall fs0,
    run_hyp E narps true hyp fs0 = consensus_analysis E narps hyp fs0).
  { intros fs0. reflexivity. }
  split; [|repeat split].
  - unfold use_existing, path_exists. simpl. split.
    + intros [= Hex]. apply bool_decide_eq_true in Hex. exact Hex.
    + intros Hex. rewrite bool_decide_eq_true_2 by exact Hex. reflexivity.
  - intros Hex. unfold run_hyp, use_existing, bind, path_exists. simpl.
    rewrite bool_decide_eq_true_2 by exact Hex. reflexivity.
  - intros Hno. unfold run_hyp, use_existing, bind, path_exists. simpl.
    rewrite bool_decide_eq_false_2; [reflexivity|].
    rewrite Hno. intros [v Hv]. discriminate Hv.
  - rewrite !Htrue.
    destruct (consensus_analysis E narps hyp fs) as [r fs'] eqn:Hrun.
    apply (consensus_analysis_idemp E narps hyp fs r fs' Hls Hrun).
Qed.

(** C10: what the masker is handed for a hypothesis is the list of the
    discovered paths sorted lexicographically: the analysis is the masking
    of [sorted_maps] followed by the statistics and the writes, that list
    is sorted and holds the paths that [glob] found, and the rows of the
    feature matrix are the images of its paths, in its order. So the sorted
    list, the feature matrix, the analysis of each hypothesis and the whole
    run (outcome and files) are the same for any two orders in which the
    file system may enumerate the same paths. *)
Theorem run_independent_of_listing (listdir2 : files -> list string)
    (narps : narps_t) (overwrite : bool) :
  (forall fs, listdir E fs ≡ₚ listdir2 fs) ->
  (forall hyp fs,
     consensus_analysis E narps hyp fs
     = (let* data := fit_transform E (MNI_mask narps) (sorted_maps E narps hyp fs) in
        let* _ := lift (log_moments data) in
        let* tp := lift (t_corr E data (img_mean data) (img_var data) (cc data)) in
        write_results E narps hyp data (fst tp) (snd tp))%run fs /\
     Sorted String.le (sorted_maps E narps hyp fs) /\
     sorted_maps E narps hyp fs
       ≡ₚ filter (fun p => is_map (dirs_output narps) hyp p) (listdir E fs) /\
     (forall imgs, fst (load_all (sorted_maps E narps hyp fs) fs) = Ok imgs ->
        Forall2 (fun p img => fs !! p = Some img) (sorted_maps E narps hyp fs) imgs /\
        features E narps hyp fs = masker_transform E (MNI_mask narps) imgs) /\
     sorted_maps E narps hyp fs = sorted_maps (with_listdir E listdir2) narps hyp fs /\
     features E narps hyp fs = features (with_listdir E listdir2) narps hyp fs /\
     consensus_analysis E narps hyp fs
     = consensus_analysis (with_listdir E listdir2) narps hyp fs) /\
  (forall fs,
     run_ttests E narps overwrite fs = run_ttests (with_listdir E listdir2) narps overwrite fs).
Proof.
  intros Hperm.
  assert (Hmaps : forall hyp fs,
    sorted_maps E narps hyp fs = sorted_maps (with_listdir E listdir2) narps hyp fs).
  { intros hyp fs. unfold sorted_maps. apply merge_sort_Permutation_eq.
    simpl. rewrite (Hperm fs). reflexivity. }
  assert (Hfeat : forall hyp fs,
    features E narps hyp fs = features (with_listdir E listdir2) narps hyp fs).
  { intros hyp fs. unfold features. rewrite Hmaps. reflexivity. }
  assert (Hrun : forall hyp fs,
    consensus_analysis E narps hyp fs
    = consensus_analysis (with_listdir E listdir2) narps hyp fs).
  { intros hyp fs. rewrite !consensus_analysis_eq, Hfeat. reflexivity. }
  split.
  - intros hyp fs. split; [reflexivity|]. split.
    { unfold sorted_maps. apply Sorted_merge_sort. apply _. }
    split; [unfold sorted_maps; apply merge_sort_Permutation|].
    split; [|split; [apply Hmaps|split; [apply Hfeat|apply Hrun]]].
    intros imgs Hl. split; [apply load_all_Forall2, Hl|].
    unfold features, fit_transform, bind, lift.
    destruct (load_all (sorted_maps E narps hyp fs) fs) as [[imgs'|e] fs'];
      simpl in *; [|discriminate Hl].
    injection Hl as ->. reflexivity.
  - unfold run_ttests. simpl hypnums.
    induction (hypnums E) as [|hyp hyps IH]; intros fs; [reflexivity|].
    simpl. apply bind_ext; [|intros _ fs'; apply IH].
    unfold run_hyp. apply bind_ext; [reflexivity|].
    intros [|] fs'; [reflexivity|]. apply Hrun.
Qed.

End Claims.

(** ** The claims on concrete files *)

Lemma lists_files_env0 : lists_files env0.
Proof.
  intros fs. simpl. unfold listdir0. split.
  - apply NoDup_fst_map_to_list.
  - intros p. rewrite list_elem_of_fmap. split.
    + intros ([q v] & -> & Hin). apply elem_of_map_to_list in Hin. simpl. eauto.
    + intros [v Hv]. exists (p, v). split; [reflexivity|]. apply elem_of_map_to_list, Hv.
Qed.

(** C3 on two teams whose maps are constant (variance 0). *)
Lemma degenerate_input_fails_witness :
  features env0 narps0 1 fs_flat = Ok [[5; 5; 5]; [5; 5; 5]]%float /\
  shape0 [[5; 5; 5]; [5; 5; 5]]%float <> 1%nat /\
  degenerate [[5; 5; 5]; [5; 5; 5]]%float /\
  consensus_analysis env0 narps0 1 fs_flat = (Err DegenerateInput, fs_flat).
Proof.
  assert (Hflat : degenerate [[5; 5; 5]; [5; 5; 5]]%float).
  { right. left. vm_compute. reflexivity. }
  split; [vm_compute; reflexivity|]. split; [vm_compute; lia|]. split; [exact Hflat|].
  apply (degenerate_input_fails env0 p_half narps0 1 fs_flat [[5; 5; 5]; [5; 5; 5]]%float);
    [reflexivity|vm_compute; reflexivity|vm_compute; lia|exact Hflat].
Defined.

(** C3 fails as stated: the map of a single team gives a feature matrix of
    one row, and the analysis fails with numpy's [ValueError], raised in
    the log call before the t-test is reached, not with
    [DegenerateInput]. *)
Lemma single_team_fails_with_ValueError :
  features env0 narps0 1 fs_one_team = Ok [[1; 2; 3]]%float /\
  degenerate [[1; 2; 3]]%float /\
  consensus_analysis env0 narps0 1 fs_one_team = (Err ValueError, fs_one_team).
Proof.
  split; [vm_compute; reflexivity|]. split; [left; vm_compute; lia|].
  vm_compute. reflexivity.
Qed.

(** C5 on four identical teams: the run completes and the tau volume holds
    nan. *)
Lemma results_written_unchecked_witness :
  features env0 narps0 1 fs_scenario = Ok scenario /\
  Forall (fun p => writable env0 p = true) (out_paths narps0 1) /\
  exists fs',
    consensus_analysis env0 narps0 1 fs_scenario = (Ok tt, fs') /\
    fs' !! "/data/output/consensus_analysis/hypo1_tau.nii.gz"
    = Some (Volume (3, 1, 1) [nan; nan; nan]).
Proof.
  assert (Hw : Forall (fun p => writable env0 p = true) (out_paths narps0 1)).
  { vm_compute. repeat constructor. }
  split; [vm_compute; reflexivity|]. split; [exact Hw|].
  epose proof (proj1 (results_written_unchecked env0 narps0 1 fs_scenario scenario _ _ _ _))
    as H.
  edestruct H as (fs' & Hrun & _ & _ & _ & Htau).
  - vm_compute. reflexivity.
  - vm_compute. lia.
  - vm_compute. reflexivity.
  - vm_compute. reflexivity.
  - exact Hw.
  - exists fs'. split; [exact Hrun|exact Htau].
Defined.

(** C5 fails as stated: for four identical teams the tau vector is nan at
    every voxel, and yet the run completes and the tau volume holds the nan
    values. The tau vector depends on the maps alone, not on the stand-ins
    for the t-test and the FDR correction. *)
Lemma nan_tau_written_to_file :
  Forall (fun x => nonfinite x = true) (tau scenario (cc scenario)) /\
  features env0 narps0 1 fs_scenario = Ok scenario /\
  fst (run_ttests env0 narps0 true fs_scenario) = Ok tt /\
  snd (run_ttests env0 narps0 true fs_scenario)
    !! "/data/output/consensus_analysis/hypo1_tau.nii.gz"
  = Some (Volume (3, 1, 1) [nan; nan; nan]).
Proof.
  split; [vm_compute; repeat constructor|].
  repeat split; vm_compute; reflexivity.
Qed.

(** C6 fails as stated: when the store refuses the tau volume, the
    hypothesis fails and its t, 1-p and 1-fdr volumes, absent before, are
    left in the results directory without the tau volume. *)
Lemma tau_failure_leaves_three_volumes :
  fst (consensus_analysis (with_writable env0 tau_refused) narps0 1 fs_scenario)
  = Err OSError /\
  map (fun p => bool_decide (is_Some (fs_scenario !! p))) (out_paths narps0 1)
  = [false; false; false; false] /\
  map (fun p => bool_decide (is_Some
         (snd (consensus_analysis (with_writable env0 tau_refused) narps0 1 fs_scenario) !! p)))
      (out_paths narps0 1)
  = [true; true; true; false].
Proof. repeat split; vm_compute; reflexivity. Qed.

(** C6 on four teams and a store that refuses the tau volume: the
    analysis fails with the t, 1-p and 1-fdr volumes written and no tau
    volume. *)
Lemma outputs_written_in_order_witness :
  features (with_writable env0 tau_refused) narps0 1 fs_scenario = Ok scenario /\
  fst (consensus_analysis (with_writable env0 tau_refused) narps0 1 fs_scenario)
  = Err OSError /\
  snd (consensus_analysis (with_writable env0 tau_refused) narps0 1 fs_scenario)
    !! "/data/output/consensus_analysis/hypo1_1-fdr.nii.gz"
  = Some (Volume (3, 1, 1) [0.5; 0.5; 0.5]%float) /\
  snd (consensus_analysis (with_writable env0 tau_refused) narps0 1 fs_scenario)
    !! "/data/output/consensus_analysis/hypo1_tau.nii.gz" = None.
Proof.
  assert (Hf : features (with_writable env0 tau_refused) narps0 1 fs_scenario = Ok scenario)
    by (vm_compute; reflexivity).
  split; [exact Hf|].
  destruct (outputs_written_in_order (with_writable env0 tau_refused) narps0 1 fs_scenario)
    as (_ & _ & _ & H).
  destruct (H scenario _ _ Hf ltac:(reflexivity) ltac:(vm_compute; reflexivity))
    as (_ & _ & H2).
  destruct (H2 ltac:(reflexivity) ltac:(reflexivity)) as [_ H3].
  destruct (H3 _ _ ltac:(vm_compute; reflexivity)) as (_ & H4 & _).
  rewrite (H4 ltac:(reflexivity) ltac:(reflexivity)).
  split; [reflexivity|]. split; vm_compute; reflexivity.
Defined.

(** C8 on the files of four teams, with and without a 1-fdr volume. *)
Lemma overwrite_policy_witness :
  lists_files env0 /\
  run_hyp env0 narps0 false 1 fs_fdr_only = (Ok tt, fs_fdr_only) /\
  run_hyp env0 narps0 true 1 (snd (run_hyp env0 narps0 true 1 fs_scenario))
  = run_hyp env0 narps0 true 1 fs_scenario.
Proof.
  split; [exact lists_files_env0|]. split.
  - destruct (overwrite_policy env0 narps0 1 fs_fdr_only lists_files_env0)
      as (_ & Hskip & _).
    apply Hskip. vm_compute. eauto.
  - apply (overwrite_policy env0 narps0 1 fs_scenario lists_files_env0).
Defined.

(** C8 fails as stated: with only the 1-fdr volume of the hypothesis in
    the results directory, [overwrite=false] skips the hypothesis although
    its t, 1-p and tau volumes do not exist. *)
Lemma skipped_while_volumes_missing :
  run_hyp env0 narps0 false 1 fs_fdr_only = (Ok tt, fs_fdr_only) /\
  map (fun p => bool_decide (is_Some (fs_fdr_only !! p))) (out_paths narps0 1)
  = [false; false; true; false] /\
  ~ artifacts_exist narps0 1 fs_fdr_only.
Proof.
  split; [vm_compute; reflexivity|]. split; [vm_compute; reflexivity|].
  intros H. apply Forall_inv in H. vm_compute in H. destruct H as [v Hv]. discriminate Hv.
Qed.

Lemma listdir_rev_Permutation (fs : files) : listdir env0 fs ≡ₚ listdir_rev fs.
Proof. unfold listdir_rev. simpl. apply Permutation_rev. Qed.

(** C10 for a listing and its reverse, on three teams with maps of their
    own: masked in the order of either listing, the rows come in two
    different orders; the analysis masks the sorted paths and has the rows
    of team A, team B and team C in both cases. *)
Lemma run_independent_of_listing_witness :
  (forall fs, listdir env0 fs ≡ₚ listdir_rev fs) /\
  fst (fit_transform env0 mask3
         (filter (fun p => is_map "/data/output" 1 p) (listdir env0 fs_three_teams))
         fs_three_teams)
  = Ok [[2; 3; 7]; [1; 2; 3]; [1; 2; 4]]%float /\
  fst (fit_transform env0 mask3
         (filter (fun p => is_map "/data/output" 1 p) (listdir_rev fs_three_teams))
         fs_three_teams)
  = Ok [[1; 2; 4]; [1; 2; 3]; [2; 3; 7]]%float /\
  features env0 narps0 1 fs_three_teams = Ok [[1; 2; 3]; [1; 2; 4]; [2; 3; 7]]%float /\
  features (with_listdir env0 listdir_rev) narps0 1 fs_three_teams
  = Ok [[1; 2; 3]; [1; 2; 4]; [2; 3; 7]]%float /\
  fst (run_ttests env0 narps0 true fs_three_teams) = Ok tt /\
  run_ttests env0 narps0 true fs_three_teams
  = run_ttests (with_listdir env0 listdir_rev) narps0 true fs_three_teams.
Proof.
  destruct (run_independent_of_listing env0 listdir_rev narps0 true listdir_rev_Permutation)
    as [Hhyp Hrun].
  destruct (Hhyp 1%nat fs_three_teams) as (_ & _ & _ & _ & _ & Hfeat & _).
  split; [exact listdir_rev_Permutation|].
  split; [vm_compute; reflexivity|]. split; [vm_compute; reflexivity|].
  split; [vm_compute; reflexivity|]. split; [rewrite <- Hfeat; vm_compute; reflexivity|].
  split; [vm_compute; reflexivity|apply Hrun].
Defined.

(** ** The significance corrector (C9) *)

Module FDRFacts.
Import FDR.

Lemma inject_nat_nonneg (n : nat) : (0 <= inject_Z (Z.of_nat n))%Q.
Proof. change 0%Q with (inject_Z 0). rewrite <- Zle_Qle. lia. Qed.

Lemma bh_line_mono (m k : nat) (a a' : Q) :
  (a <= a')%Q -> (bh_line m k a <= bh_line m k a')%Q.
Proof.
  intros Ha. unfold bh_line.
  rewrite (Qmult_comm _ a), (Qmult_comm _ a').
  apply Qmult_le_compat_r; [exact Ha|].
  apply Qmult_le_0_compat; [apply inject_nat_nonneg|].
  apply Qinv_le_0_compat, inject_nat_nonneg.
Qed.

(** A rank found past [k] is past [k], and within the list. *)
Lemma last_rank_range (m : nat) (alpha : Q) (k : nat) (s : list Q) :
  last_rank m alpha k s = 0%nat \/
  (k < last_rank m alpha k s <= k + length s)%nat.
Proof.
  revert k. induction s as [|p s IH]; intros k; [left; reflexivity|].
  simpl. destruct (IH (S k)) as [H0|Hr].
  - rewrite H0. destruct (Qle_bool p _); [right; lia|left; reflexivity].
  - destruct (last_rank m alpha (S k) s) as [|r] eqn:E; [lia|]. right. lia.
Qed.

Lemma last_rank_le (m : nat) (alpha : Q) (s : list Q) :
  (last_rank m alpha 0 s <= length s)%nat.
Proof. destruct (last_rank_range m alpha 0 s); lia. Qed.

Lemma last_rank_mono (m : nat) (a a' : Q) (k : nat) (s : list Q) :
  (a <= a')%Q -> (last_rank m a k s <= last_rank m a' k s)%nat.
Proof.
  intros Ha. revert k. induction s as [|p s IH]; intros k; [reflexivity|].
  simpl. specialize (IH (S k)).
  destruct (last_rank_range m a' (S k) s) as [H0'|Hr'].
  - rewrite H0' in *. assert (H0 : last_rank m a (S k) s = 0%nat) by lia.
    rewrite H0. destruct (Qle_bool p (bh_line m (S k) a)) eqn:Hp; [|lia].
    apply Qle_bool_iff in Hp.
    assert (Hp' : Qle_bool p (bh_line m (S k) a') = true).
    { apply Qle_bool_iff. eapply Qle_trans; [exact Hp|apply bh_line_mono, Ha]. }
    rewrite Hp'. reflexivity.
  - destruct (last_rank m a' (S k) s) as [|r'] eqn:E'; [lia|].
    destruct (last_rank m a (S k) s) as [|r] eqn:E; [|exact IH].
    destruct (Qle_bool p _); lia.
Qed.

(** A rank is found only under the line: some p-value is at most
    [(k/m) * alpha] for a rank [k >= 1]. *)
Lemma last_rank_pos (m : nat) (alpha : Q) (k : nat) (s : list Q) :
  (0 < last_rank m alpha k s)%nat ->
  exists p j, p ∈ s /\ (1 <= j)%nat /\ (p <= bh_line m j alpha)%Q.
Proof.
  revert k. induction s as [|p s IH]; intros k; simpl; [lia|].
  destruct (last_rank m alpha (S k) s) as [|r] eqn:E.
  - destruct (Qle_bool p _) eqn:Hp; [|lia]. intros _.
    exists p, (S k). split; [left|split; [lia|apply Qle_bool_iff, Hp]].
  - intros _. destruct (IH (S k)) as (q & j & Hq & Hj & Hle); [rewrite E; lia|].
    exists q, j. split; [right; exact Hq|split; assumption].
Qed.

Lemma length_argsort (pvals : list Q) : length (argsort pvals) = length pvals.
Proof.
  unfold argsort. rewrite merge_sort_Permutation.
  rewrite length_zip_with, length_seq. lia.
Qed.

Lemma argsort_values (pvals : list Q) : map snd (argsort pvals) ≡ₚ pvals.
Proof.
  unfold argsort. rewrite merge_sort_Permutation.
  rewrite snd_zip by (rewrite length_seq; lia). reflexivity.
Qed.

Lemma count_below (k m : nat) :
  (k <= m)%nat ->
  length (filter (fun b => Is_true b) (map (fun r => bool_decide (r < k)%nat) (seq 0 m))) = k.
Proof.
  intros Hk. replace m with (k + (m - k))%nat by lia.
  rewrite seq_app, map_app, filter_app, length_app. simpl.
  assert (H1 : forall n s, (s + n <= k)%nat ->
    length (filter (fun b => Is_true b) (map (fun r => bool_decide (r < k)%nat) (seq s n))) = n).
  { induction n as [|n IH]; intros s Hs; [reflexivity|]. simpl.
    rewrite filter_cons_True by (apply bool_decide_pack; lia).
    simpl. rewrite IH by lia. reflexivity. }
  assert (H2 : forall n s, (k <= s)%nat ->
    length (filter (fun b => Is_true b) (map (fun r => bool_decide (r < k)%nat) (seq s n))) = 0%nat).
  { induction n as [|n IH]; intros s Hs; [reflexivity|]. simpl.
    rewrite filter_cons_False by (rewrite bool_decide_eq_false_2 by lia; exact id).
    apply IH. lia. }
  rewrite H1, H2 by lia. lia.
Qed.

(** The step-up rejects as many hypotheses as the last rank under the line. *)
Lemma n_rejected_bh (alpha : Q) (pvals : list Q) :
  n_rejected (bh_reject alpha pvals)
  = last_rank (length pvals) alpha 0 (map snd (argsort pvals)).
Proof.
  unfold n_rejected, bh_reject.
  set (k := last_rank _ _ _ _).
  assert (Hk : (k <= length pvals)%nat).
  { subst k. etransitivity; [apply last_rank_le|]. rewrite length_map, length_argsort. lia. }
  rewrite merge_sort_Permutation.
  rewrite snd_zip by (rewrite !length_map, length_seq, length_argsort; lia).
  apply count_below, Hk.
Qed.

Lemma n_rejected_bh_le (alpha : Q) (pvals : list Q) :
  (n_rejected (bh_reject alpha pvals) <= length pvals)%nat.
Proof.
  rewrite n_rejected_bh. etransitivity; [apply last_rank_le|].
  rewrite length_map, length_argsort. lia.
Qed.

Lemma n_rejected_bh_mono (a a' : Q) (pvals : list Q) :
  (a <= a')%Q -> (n_rejected (bh_reject a pvals) <= n_rejected (bh_reject a' pvals))%nat.
Proof. intros Ha. rewrite !n_rejected_bh. apply last_rank_mono, Ha. Qed.

(** With p-values that are not negative, a step-up that rejects something
    runs at a level that is not negative. *)
Lemma bh_rejects_nonneg_level (alpha : Q) (pvals : list Q) :
  Forall (fun p => 0 <= p)%Q pvals ->
  (0 < n_rejected (bh_reject alpha pvals))%nat ->
  (0 <= alpha)%Q.
Proof.
  intros Hp Hr. rewrite n_rejected_bh in Hr.
  apply last_rank_pos in Hr as (p & j & Hin & Hj & Hle).
  assert (Hm : (1 <= length pvals)%nat).
  { rewrite <- (Permutation_length (argsort_values pvals)), length_map.
    apply list_elem_of_fmap in Hin as (w & _ & Hw).
    destruct (argsort pvals); [inversion Hw|simpl; lia]. }
  assert (Hp0 : (0 <= p)%Q).
  { rewrite Forall_forall in Hp. apply Hp. rewrite <- (argsort_values pvals). exact Hin. }
  unfold bh_line in Hle.
  assert (Hpos : (0 < inject_Z (Z.of_nat j) / inject_Z (Z.of_nat (length pvals)))%Q).
  { apply Qlt_shift_div_l.
    - change 0%Q with (inject_Z 0). rewrite <- Zlt_Qlt. lia.
    - rewrite Qmult_0_l. change 0%Q with (inject_Z 0). rewrite <- Zlt_Qlt. lia. }
  destruct (Qlt_le_dec alpha 0) as [Hneg|Hok]; [|exact Hok].
  exfalso. apply (Qlt_irrefl 0). eapply Qle_lt_trans; [exact (Qle_trans _ _ _ Hp0 Hle)|].
  rewrite <- (Qmult_0_r (inject_Z (Z.of_nat j) / inject_Z (Z.of_nat (length pvals)))).
  apply Qmult_lt_l; assumption.
Qed.

(** The level of stage two grows with [alpha] and with the number of
    stage-one rejections. *)
Lemma stage_two_level_mono (m r r' : nat) (a a' : Q) :
  (0 <= a)%Q -> (a <= a')%Q -> (r <= r')%nat -> (r' < m)%nat ->
  (a * inject_Z (Z.of_nat m) / inject_Z (Z.of_nat (m - r))
   <= a' * inject_Z (Z.of_nat m) / inject_Z (Z.of_nat (m - r')))%Q.
Proof.
  intros Ha Haa Hr Hm.
  assert (Hd' : (0 < inject_Z (Z.of_nat (m - r')))%Q).
  { change 0%Q with (inject_Z 0). rewrite <- Zlt_Qlt. lia. }
  assert (Hdd : (inject_Z (Z.of_nat (m - r')) <= inject_Z (Z.of_nat (m - r)))%Q).
  { rewrite <- Zle_Qle. lia. }
  assert (HM : (0 <= inject_Z (Z.of_nat m))%Q) by apply inject_nat_nonneg.
  set (M := inject_Z (Z.of_nat m)) in *.
  set (d := inject_Z (Z.of_nat (m - r))) in *.
  set (d' := inject_Z (Z.of_nat (m - r'))) in *.
  assert (Hd : (0 < d)%Q) by (eapply Qlt_le_trans; eassumption).
  apply Qle_shift_div_r; [exact Hd|].
  assert (E : (a' * M / d' * d == a' * M * d / d')%Q) by (field; lra).
  rewrite E. apply Qle_shift_div_l; [exact Hd'|].
  apply Qle_trans with (a' * M * d')%Q.
  - apply Qmult_le_compat_r; [|lra]. apply Qmult_le_compat_r; assumption.
  - rewrite <- !Qmult_assoc, !(Qmult_comm a').
    apply Qmult_le_compat_r; [|lra].
    rewrite !(Qmult_comm M). apply Qmult_le_compat_r; assumption.
Qed.

End FDRFacts.

(** C9: for every vector of p-values (numbers that are not negative), the
    two-stage correction rejects at least as many hypotheses at a larger
    [alpha] as at a smaller one: lowering [alpha] never adds a rejection. *)
Theorem fdr_monotone_in_alpha (pvals : list Q) (alpha1 alpha2 : Q) :
  Forall (fun p => 0 <= p)%Q pvals ->
  (alpha1 <= alpha2)%Q ->
  (FDR.n_rejected (FDR.correct pvals alpha1) <= FDR.n_rejected (FDR.correct pvals alpha2))%nat.
Proof.
  intros Hp Ha. unfold FDR.correct.
  pose proof (FDRFacts.n_rejected_bh_mono alpha1 alpha2 pvals Ha) as Hmono.
  pose proof (FDRFacts.n_rejected_bh_le alpha1 pvals) as Hle1.
  pose proof (FDRFacts.n_rejected_bh_le alpha2 pvals) as Hle2.
  set (m := length pvals) in *.
  set (r1 := FDR.n_rejected (FDR.bh_reject alpha1 pvals)) in *.
  set (r2 := FDR.n_rejected (FDR.bh_reject alpha2 pvals)) in *.
  destruct (Nat.eqb_spec r1 0) as [Hr1|Hr1]; simpl.
  { fold r1. lia. }
  destruct (Nat.eqb_spec r1 m) as [Hr1m|Hr1m]; simpl.
  { fold r1. assert (Hr2m : r2 = m) by lia.
    destruct (Nat.eqb_spec r2 0); simpl; [fold r2; lia|].
    destruct (Nat.eqb_spec r2 m); [simpl; fold r2; lia|contradiction]. }
  destruct (Nat.eqb_spec r2 0) as [Hr2|Hr2]; [lia|]. simpl.
  destruct (Nat.eqb_spec r2 m) as [Hr2m|Hr2m]; simpl.
  { fold r2. rewrite Hr2m. apply FDRFacts.n_rejected_bh_le. }
  apply FDRFacts.n_rejected_bh_mono.
  apply FDRFacts.stage_two_level_mono; try lia; try assumption.
  apply (FDRFacts.bh_rejects_nonneg_level alpha1 pvals Hp). fold r1. lia.
Qed.

(** C9 at the levels 0.05 and 0.10: one rejection, then four. *)
Lemma fdr_monotone_in_alpha_witness :
  Forall (fun p => 0 <= p)%Q [1#100; 4#100; 3#100; 2#10; 9#10]%Q /\
  (5#100 <= 10#100)%Q /\
  FDR.n_rejected (FDR.correct [1#100; 4#100; 3#100; 2#10; 9#10]%Q (5#100)) = 1%nat /\
  FDR.n_rejected (FDR.correct [1#100; 4#100; 3#100; 2#10; 9#10]%Q (10#100)) = 4%nat /\
  (FDR.n_rejected (FDR.correct [1#100; 4#100; 3#100; 2#10; 9#10]%Q (5#100))
   <= FDR.n_rejected (FDR.correct [1#100; 4#100; 3#100; 2#10; 9#10]%Q (10#100)))%nat.
Proof.
  assert (Hp : Forall (fun p => 0 <= p)%Q [1#100; 4#100; 3#100; 2#10; 9#10]%Q).
  { repeat constructor; discriminate. }
  assert (Ha : (5#100 <= 10#100)%Q) by discriminate.
  split; [exact Hp|]. split; [exact Ha|].
  split; [vm_compute; reflexivity|]. split; [vm_compute; reflexivity|].
  apply (fdr_monotone_in_alpha _ _ _ Hp Ha).
Defined.

(** ** Products and comparisons in binary64 *)

Lemma is_nan_Prim2SF (x : float) :
  PrimFloat.is_nan x = true <-> Prim2SF x = SpecFloat.S754_nan.
Proof.
  unfold PrimFloat.is_nan. rewrite FloatAxioms.eqb_spec.
  destruct (Prim2SF x) as [sg|sg| |sg m e]; simpl.
  - split; discriminate.
  - destruct sg; split; discriminate.
  - split; reflexivity.
  - unfold SpecFloat.SFeqb. simpl. rewrite Z.compare_refl, Pos.compare_cont_refl.
    destruct sg; split; discriminate.
Qed.

Lemma is_nan_false_Prim2SF (x : float) :
  PrimFloat.is_nan x = false <-> Prim2SF x <> SpecFloat.S754_nan.
Proof.
  rewrite <- is_nan_Prim2SF. destruct (PrimFloat.is_nan x); split; congruence.
Qed.

Lemma SFcompare_antisym (x y : SpecFloat.spec_float) :
  SpecFloat.SFcompare y x = option_map CompOpp (SpecFloat.SFcompare x y).
Proof.
  destruct x as [sx|sx| |sx mx ex], y as [sy|sy| |sy my ey]; simpl;
    try reflexivity; try (destruct sx; reflexivity); try (destruct sy; reflexivity);
    try (destruct sx, sy; reflexivity).
  assert (Hm : Pos.compare_cont Eq my mx = CompOpp (Pos.compare_cont Eq mx my)).
  { symmetry. apply (Pos.compare_cont_antisym mx my Eq). }
  destruct sx, sy; try reflexivity; simpl;
    rewrite (Z.compare_antisym ex ey), Hm;
    destruct (ex ?= ey)%Z; simpl; try reflexivity;
    destruct (Pos.compare_cont Eq mx my); reflexivity.
Qed.

(** For two numbers, [a <= b] is the negation of [b < a]. *)
Lemma leb_negb_ltb (a b : float) :
  PrimFloat.is_nan a = false -> PrimFloat.is_nan b = false ->
  (a <=? b)%float = negb (b <? a)%float.
Proof.
  rewrite !is_nan_false_Prim2SF, FloatAxioms.leb_spec, FloatAxioms.ltb_spec.
  unfold SpecFloat.SFleb, SpecFloat.SFltb. rewrite (SFcompare_antisym (Prim2SF a)).
  intros Ha Hb.
  destruct (SpecFloat.SFcompare (Prim2SF a) (Prim2SF b)) as [[]|] eqn:Hc; try reflexivity.
  destruct (Prim2SF a), (Prim2SF b); simpl in Hc; congruence.
Qed.

(** A comparison with nan is false. *)
Lemma ltb_nan_l (a b : float) : PrimFloat.is_nan a = true -> (a <? b)%float = false.
Proof.
  rewrite is_nan_Prim2SF, FloatAxioms.ltb_spec. intros ->. reflexivity.
Qed.

Lemma ltb_nan_r (a b : float) : PrimFloat.is_nan b = true -> (a <? b)%float = false.
Proof.
  rewrite is_nan_Prim2SF, FloatAxioms.ltb_spec. intros ->.
  unfold SpecFloat.SFltb. destruct (Prim2SF a); reflexivity.
Qed.

Lemma leb_nan_l (a b : float) : PrimFloat.is_nan a = true -> (a <=? b)%float = false.
Proof.
  rewrite is_nan_Prim2SF, FloatAxioms.leb_spec. intros ->. reflexivity.
Qed.

Lemma leb_nan_r (a b : float) : PrimFloat.is_nan b = true -> (a <=? b)%float = false.
Proof.
  rewrite is_nan_Prim2SF, FloatAxioms.leb_spec. intros ->.
  unfold SpecFloat.SFleb. destruct (Prim2SF a); reflexivity.
Qed.

Lemma SFmul_1_l (s : SpecFloat.spec_float) :
  SpecFloat.valid_binary FloatOps.prec FloatOps.emax s = true ->
  SpecFloat.SFmul FloatOps.prec FloatOps.emax
    (SpecFloat.S754_finite false 4503599627370496 (-52)) s = s.
Proof.
  destruct s as [sg|sg| |sg m e]; try reflexivity.
  intros Hv. simpl in Hv. unfold SpecFloat.bounded, SpecFloat.canonical_mantissa in Hv.
  apply andb_prop in Hv as [Hc He]. apply Z.eqb_eq in Hc.
  unfold SpecFloat.SFmul. change (xorb false sg) with sg.
  unfold SpecFloat.binary_round_aux, SpecFloat.shr_fexp.
  change (4503599627370496 * m)%positive with
    (m~0~0~0~0~0~0~0~0~0~0~0~0~0~0~0~0~0~0~0~0~0~0~0~0~0~0~0~0~0~0~0~0~0~0~0~0~0~0~0~0~0~0~0~0~0~0~0~0~0~0~0~0)%positive.
  set (big := (m~0~0~0~0~0~0~0~0~0~0~0~0~0~0~0~0~0~0~0~0~0~0~0~0~0~0~0~0~0~0~0~0~0~0~0~0~0~0~0~0~0~0~0~0~0~0~0~0~0~0~0~0)%positive).
  assert (Hd : SpecFloat.Zdigits2 (Z.pos big) = (Z.pos (SpecFloat.digits2_pos m) + 52)%Z).
  { unfold big. cbn [SpecFloat.Zdigits2 SpecFloat.digits2_pos]. lia. }
  rewrite Hd.
  replace (SpecFloat.fexp FloatOps.prec FloatOps.emax
             (Z.pos (SpecFloat.digits2_pos m) + 52 + (-52 + e)) - (-52 + e))%Z
    with 52%Z.
  2:{ replace (Z.pos (SpecFloat.digits2_pos m) + 52 + (-52 + e))%Z
        with (Z.pos (SpecFloat.digits2_pos m) + e)%Z by lia.
      rewrite Hc. lia. }
  unfold SpecFloat.shr. unfold big.
  cbn [SpecFloat.iter_pos SpecFloat.shr_record_of_loc].
  cbn [SpecFloat.shr_1 orb].
  clear Hd. clearbody big. clear big.
  cbn [SpecFloat.shr_m SpecFloat.loc_of_shr_record SpecFloat.round_nearest_even
       SpecFloat.shr_r SpecFloat.shr_s SpecFloat.Zdigits2].
  replace (-52 + e + 52)%Z with e by lia.
  rewrite Hc, Z.sub_diag. cbn [SpecFloat.shr_m].
  rewrite He. reflexivity.
Qed.

(** The product with 1.0 is exact. *)
Lemma mul_1_l (t : float) : (1 * t)%float = t.
Proof.
  apply FloatAxioms.Prim2SF_inj. rewrite FloatAxioms.mul_spec.
  apply SFmul_1_l. apply FloatAxioms.Prim2SF_valid.
Qed.

Lemma nonfinite_Prim2SF (t : float) :
  nonfinite t = true <->
  Prim2SF t = SpecFloat.S754_nan \/ exists sg, Prim2SF t = SpecFloat.S754_infinity sg.
Proof.
  unfold nonfinite, PrimFloat.is_infinity.
  rewrite orb_true_iff, is_nan_Prim2SF, FloatAxioms.eqb_spec, FloatAxioms.abs_spec.
  destruct (Prim2SF t) as [sg|sg| |sg m e]; simpl.
  - split; [intros [H|H]; discriminate H|intros [H|[s H]]; discriminate H].
  - split; [right; eauto|right; reflexivity].
  - split; [left; reflexivity|left; reflexivity].
  - split; [intros [H|H]; discriminate H|intros [H|[s H]]; discriminate H].
Qed.

(** The product of 0.0 and a finite number is a zero; the product of 0.0
    and an infinity or nan is nan. *)
Lemma mul_0_l (t : float) :
  if nonfinite t then PrimFloat.is_nan (0 * t) = true
  else PrimFloat.is_zero (0 * t) = true.
Proof.
  destruct (nonfinite t) eqn:Hn.
  - apply nonfinite_Prim2SF in Hn. rewrite is_nan_Prim2SF, FloatAxioms.mul_spec.
    destruct Hn as [->|[sg ->]]; reflexivity.
  - unfold PrimFloat.is_zero. rewrite FloatAxioms.eqb_spec, FloatAxioms.mul_spec.
    destruct (Prim2SF t) as [sg|sg| |sg m e] eqn:Ht; try reflexivity.
    + assert (H : nonfinite t = true) by (apply nonfinite_Prim2SF; eauto). congruence.
    + assert (H : nonfinite t = true) by (apply nonfinite_Prim2SF; eauto). congruence.
Qed.

Lemma ltb_leb (x y : float) : (x <? y)%float = true -> (x <=? y)%float = true.
Proof.
  rewrite FloatAxioms.ltb_spec, FloatAxioms.leb_spec.
  unfold SpecFloat.SFltb, SpecFloat.SFleb.
  destruct (SpecFloat.SFcompare _ _) as [[]|]; try discriminate; reflexivity.
Qed.

Lemma SFltb_leb_trans (x a b : SpecFloat.spec_float) :
  SpecFloat.SFltb x a = true -> SpecFloat.SFleb a b = true -> SpecFloat.SFltb x b = true.
Proof.
  unfold SpecFloat.SFltb, SpecFloat.SFleb.
  destruct x as [sx|sx| |sx mx ex], a as [sa|sa| |sa ma ea], b as [sb|sb| |sb mb eb];
    simpl; try discriminate; try reflexivity;
    try (destruct sx; simpl; try discriminate; try reflexivity);
    try (destruct sa; simpl; try discriminate; try reflexivity);
    try (destruct sb; simpl; try discriminate; try reflexivity).
  - destruct (Z.compare_spec ex ea), (Z.compare_spec ea eb), (Z.compare_spec ex eb);
      subst; try lia; try discriminate; try reflexivity;
      change (Pos.compare_cont Eq) with Pos.compare;
      destruct (Pos.compare_spec mx ma), (Pos.compare_spec ma mb), (Pos.compare_spec mx mb);
      subst; simpl; try lia; try discriminate; try reflexivity.
  - destruct (Z.compare_spec ex ea), (Z.compare_spec ea eb), (Z.compare_spec ex eb);
      subst; try lia; try discriminate; try reflexivity;
      change (Pos.compare_cont Eq) with Pos.compare;
      destruct (Pos.compare_spec mx ma), (Pos.compare_spec ma mb), (Pos.compare_spec mx mb);
      subst; simpl; try lia; try discriminate; try reflexivity.
Qed.

Lemma ltb_leb_trans (x a b : float) :
  (x <? a)%float = true -> (a <=? b)%float = true -> (x <? b)%float = true.
Proof. rewrite !FloatAxioms.ltb_spec, FloatAxioms.leb_spec. apply SFltb_leb_trans. Qed.

Lemma is_zero_Prim2SF (x : float) :
  PrimFloat.is_zero x = true -> exists sg, Prim2SF x = SpecFloat.S754_zero sg.
Proof.
  unfold PrimFloat.is_zero. rewrite FloatAxioms.eqb_spec.
  change (Prim2SF PrimFloat.zero) with (SpecFloat.S754_zero false).
  destruct (Prim2SF x) as [sg|sg| |sg m e]; simpl; try discriminate; eauto.
  - destruct sg; discriminate.
  - destruct sg; discriminate.
Qed.


(** ** Names of the files *)

Lemma split_unique (P : ascii -> bool) (a b s1 s2 : string) :
  string_forall P a = true -> string_forall P b = true ->
  head_not P s1 = true -> head_not P s2 = true ->
  a +:+ s1 = b +:+ s2 -> a = b /\ s1 = s2.
Proof.
  revert b. induction a as [|x a IH]; intros [|y b] Ha Hb H1 H2 Heq.
  - split; [reflexivity|exact Heq].
  - change (s1 = String y (b +:+ s2)) in Heq. subst s1. simpl in *.
    apply andb_prop in Hb as [Hy _]. rewrite Hy in H1. discriminate H1.
  - change (String x (a +:+ s1) = s2) in Heq. subst s2. simpl in *.
    apply andb_prop in Ha as [Hx _]. rewrite Hx in H2. discriminate H2.
  - change (String x (a +:+ s1) = String y (b +:+ s2)) in Heq.
    injection Heq as -> Heq. simpl in Ha, Hb.
    apply andb_prop in Ha as [_ Ha]. apply andb_prop in Hb as [_ Hb].
    destruct (IH b Ha Hb H1 H2 Heq) as [-> ->]. split; reflexivity.
Qed.

Lemma pretty_N_char_digit (x : N) : is_digit (pretty_N_char x) = true.
Proof. unfold pretty_N_char. repeat case_match; reflexivity. Qed.

Lemma pretty_N_go_digits (x : N) (s : string) :
  string_forall is_digit s = true -> string_forall is_digit (pretty_N_go x s) = true.
Proof.
  revert s. induction (N.lt_wf_0 x) as [x _ IH]; intros s Hs.
  destruct (decide (x = 0%N)) as [->|Hx]; [rewrite pretty_N_go_0; exact Hs|].
  rewrite pretty_N_go_step by lia. apply IH.
  - apply N.div_lt; lia.
  - simpl. rewrite pretty_N_char_digit. exact Hs.
Qed.

(** ['%d' % hyp] is a string of digits. *)
Lemma fmt_d_digits (hyp : nat) : string_forall is_digit (fmt_d hyp) = true.
Proof.
  unfold fmt_d, pretty, pretty_nat, pretty, pretty_N.
  destruct (decide _); [reflexivity|]. apply pretty_N_go_digits. reflexivity.
Qed.

Lemma fmt_d_inj (h1 h2 : nat) : fmt_d h1 = fmt_d h2 -> h1 = h2.
Proof. unfold fmt_d. apply (inj pretty). Qed.

Lemma has_slash_not_slash (s : string) :
  has_slash s = false -> string_forall not_slash s = true.
Proof.
  induction s as [|a s IH]; [reflexivity|]. simpl. unfold not_slash at 1.
  destruct (Ascii.eqb a "/"); simpl; [discriminate|exact IH].
Qed.

(** The name of a result volume tells its hypothesis and its kind. *)
Lemma result_name_inj (d1 : string) (h1 h2 : nat) (s1 s2 : string) :
  s1 ∈ ["_t.nii.gz"; "_1-p.nii.gz"; "_1-fdr.nii.gz"; "_tau.nii.gz"] ->
  s2 ∈ ["_t.nii.gz"; "_1-p.nii.gz"; "_1-fdr.nii.gz"; "_tau.nii.gz"] ->
  (d1 +:+ "hypo" +:+ fmt_d h1) +:+ s1 = (d1 +:+ "hypo" +:+ fmt_d h2) +:+ s2 ->
  h1 = h2 /\ s1 = s2.
Proof.
  intros H1 H2 Heq.
  rewrite <- !append_assoc in Heq.
  apply (inj (String.app d1)) in Heq. apply (inj (String.app "hypo")) in Heq.
  apply (split_unique is_digit) in Heq as [Hd Hs]; try apply fmt_d_digits.
  - split; [apply fmt_d_inj, Hd|exact Hs].
  - repeat (apply elem_of_cons in H1 as [->|H1]; [reflexivity|]). inversion H1.
  - repeat (apply elem_of_cons in H2 as [->|H2]; [reflexivity|]). inversion H2.
Qed.

Lemma out_paths_hyp (narps : narps_t) (h1 h2 : nat) (p : string) :
  p ∈ out_paths narps h1 -> p ∈ out_paths narps h2 -> h1 = h2.
Proof.
  rewrite !out_paths_eq. intros H1 H2.
  apply list_elem_of_fmap in H1 as (s1 & -> & H1).
  apply list_elem_of_fmap in H2 as (s2 & Heq & H2).
  apply (result_name_inj _ h1 h2 s1 s2 H1 H2 Heq).
Qed.

(** A map of a team is the map of one hypothesis only. *)
Lemma is_map_hyp (output : string) (h1 h2 : nat) (p : string) :
  is_map output h1 p = true -> is_map output h2 p = true -> h1 = h2.
Proof.
  unfold is_map. destruct (strip_prefix _ p) as [rest|]; [|discriminate].
  destruct (strip_suffix _ rest) as [team1|] eqn:S1; [|discriminate].
  destruct (strip_suffix ("/hypo" +:+ fmt_d h2 +:+ _) rest) as [team2|] eqn:S2; [|discriminate].
  intros D1 D2. apply strip_suffix_Some in S1, S2. rewrite S1 in S2.
  assert (Hns : forall t, dir_name t = true -> string_forall not_slash t = true).
  { intros [|a t]; [reflexivity|]. unfold dir_name. intros H.
    apply andb_prop in H as [_ H]. apply has_slash_not_slash.
    destruct (has_slash (String a t)); [discriminate H|reflexivity]. }
  apply (split_unique not_slash) in S2 as [_ S2]; auto.
  apply (inj (String.app "/hypo")) in S2.
  apply (split_unique is_digit) in S2 as [Hd _]; auto using fmt_d_digits.
  apply fmt_d_inj, Hd.
Qed.

(** ** The loop over the hypotheses *)

Lemma apply_writes_app (ws1 ws2 : list (string * volume)) (fs : files) :
  apply_writes (ws1 ++ ws2) fs = apply_writes ws2 (apply_writes ws1 fs).
Proof. unfold apply_writes. apply fold_left_app. Qed.

Lemma apply_writes_keeps (ws : list (string * volume)) (fs : files) (p : string) :
  is_Some (fs !! p) -> is_Some (apply_writes ws fs !! p).
Proof.
  revert fs. induction ws as [|w ws IH]; intros fs Hp; [exact Hp|].
  simpl. apply IH. destruct (decide (fst w = p)) as [<-|Hne].
  - rewrite lookup_insert_eq. eauto.
  - rewrite lookup_insert_ne by exact Hne. exact Hp.
Qed.

(** What the last write to a path holds does not depend on the files
    before. *)
Lemma apply_writes_lookup_indep (ws : list (string * volume)) (fs1 fs2 : files) (p : string) :
  p ∈ map fst ws -> apply_writes ws fs1 !! p = apply_writes ws fs2 !! p.
Proof.
  induction ws as [|w ws IH] using rev_ind; intros Hp; [inversion Hp|].
  rewrite !apply_writes_app. simpl.
  destruct (decide (fst w = p)) as [<-|Hne].
  - rewrite !lookup_insert_eq. reflexivity.
  - rewrite !lookup_insert_ne by exact Hne. apply IH.
    rewrite map_app in Hp. apply elem_of_app in Hp as [Hp|Hp]; [exact Hp|].
    simpl in Hp. apply elem_of_cons in Hp as [->|Hp]; [contradiction|inversion Hp].
Qed.

Lemma apply_writes_twice (ws : list (string * volume)) (fs : files) :
  apply_writes ws (apply_writes ws fs) = apply_writes ws fs.
Proof.
  apply map_eq. intros p. destruct (decide (p ∈ map fst ws)) as [Hp|Hp].
  - apply apply_writes_lookup_indep, Hp.
  - rewrite apply_writes_lookup_notin by exact Hp. reflexivity.
Qed.

Lemma run_outcome {A} (c : io A) (fs : files) (r : result A) :
  fst (c fs) = r -> c fs = (r, snd (c fs)).
Proof. intros <-. destruct (c fs); reflexivity. Qed.

Lemma for_each_app {A} (l1 l2 : list A) (body : A -> io unit) (fs : files) :
  for_each (l1 ++ l2) body fs =
  match for_each l1 body fs with
  | (Ok _, fs1) => for_each l2 body fs1
  | (Err e, fs1) => (Err e, fs1)
  end.
Proof.
  revert fs. induction l1 as [|x l1 IH]; intros fs; [reflexivity|].
  simpl. unfold bind. destruct (body x fs) as [[[]|e] fs0]; [apply IH|reflexivity].
Qed.

Section LoopFacts.

Variable E : env.

(** The feature matrix of a hypothesis is read from its maps alone. *)
Lemma features_ext (narps : narps_t) (hyp : nat) (fs1 fs2 : files) :
  lists_files E ->
  (forall p, is_map (dirs_output narps) hyp p = true -> fs1 !! p = fs2 !! p) ->
  features E narps hyp fs1 = features E narps hyp fs2.
Proof.
  intros Hls Hkeep.
  assert (Hmaps : sorted_maps E narps hyp fs1 = sorted_maps E narps hyp fs2).
  { unfold sorted_maps. apply merge_sort_Permutation_eq.
    destruct (Hls fs1) as [Hnd1 Hin1], (Hls fs2) as [Hnd2 Hin2].
    apply NoDup_Permutation; [apply NoDup_filter, Hnd1|apply NoDup_filter, Hnd2|].
    intros p. rewrite !list_elem_of_filter, Hin1, Hin2. split.
    - intros [Hp Hs]. split; [exact Hp|]. rewrite <- Hkeep; [exact Hs|].
      apply Is_true_true, Hp.
    - intros [Hp Hs]. split; [exact Hp|]. rewrite Hkeep; [exact Hs|].
      apply Is_true_true, Hp. }
  unfold features. rewrite Hmaps. apply fit_transform_ext.
  intros p Hp. apply Hkeep. unfold sorted_maps in Hp.
  rewrite merge_sort_Permutation in Hp. apply list_elem_of_filter in Hp as [Hp _].
  apply Is_true_true, Hp.
Qed.

(** Writes to result volumes, of whatever hypothesis, do not change what a
    hypothesis reads. *)
Lemma features_result_writes (narps : narps_t) (hyp : nat) (ws : list (string * volume))
    (fs : files) :
  lists_files E -> result_paths narps ws ->
  features E narps hyp (apply_writes ws fs) = features E narps hyp fs.
Proof.
  intros Hls Hws. apply features_ext; [exact Hls|].
  intros p Hp. apply apply_writes_lookup_notin. intros Hin.
  apply Hws in Hin as [h Hin].
  apply (out_path_not_map _ _ (dirs_output narps) hyp) in Hin. congruence.
Qed.

(** One hypothesis, analysed: its outcome and its writes, the first [k] of
    its four result volumes (all four when it succeeds), are those of any
    files that give the same feature matrix. *)
Lemma consensus_analysis_plan (narps : narps_t) (hyp : nat) (fs : files) :
  exists (r : result unit) (ws : list (string * volume)) (k : nat),
    map fst ws = take k (out_paths narps hyp) /\
    (r = Ok tt -> k = 4%nat) /\
    forall fs', features E narps hyp fs' = features E narps hyp fs ->
      consensus_analysis E narps hyp fs' = (r, apply_writes ws fs').
Proof.
  destruct (features E narps hyp fs) as [data|e] eqn:Hf.
  2:{ exists (Err e), [], 0%nat. repeat split; try discriminate.
      intros fs' Hf'. rewrite consensus_analysis_eq, Hf'. reflexivity. }
  destruct (log_moments data) as [[]|e] eqn:Hlog.
  2:{ exists (Err e), [], 0%nat. repeat split; try discriminate.
      intros fs' Hf'. rewrite consensus_analysis_eq, Hf', Hlog. reflexivity. }
  destruct (t_corr E data (img_mean data) (img_var data) (cc data))
    as [[tvals pvals]|e] eqn:Ht.
  2:{ exists (Err e), [], 0%nat. repeat split; try discriminate.
      intros fs' Hf'. rewrite consensus_analysis_eq, Hf', Hlog, Ht. reflexivity. }
  destruct (write_results_plan E narps hyp data tvals pvals) as (k & r & Hk & Hr & Hrun).
  exists r, (take k (planned_writes E narps hyp data tvals pvals)), k.
  split; [apply planned_writes_paths|]. split; [apply Hr|].
  intros fs' Hf'. rewrite consensus_analysis_eq, Hf', Hlog, Ht. apply Hrun.
Qed.

(** One turn of the loop: the hypothesis is skipped and the files stay, or
    it is analysed. *)
Lemma run_hyp_cases (narps : narps_t) (overwrite : bool) (hyp : nat) (fs : files) :
  (overwrite = false /\
   is_Some (fs !! path_join (dirs_consensus narps) (fdr_name hyp)) /\
   run_hyp E narps overwrite hyp fs = (Ok tt, fs)) \/
  ((overwrite = true \/ fs !! path_join (dirs_consensus narps) (fdr_name hyp) = None) /\
   run_hyp E narps overwrite hyp fs = consensus_analysis E narps hyp fs).
Proof.
  destruct overwrite; [right; split; [left|]; reflexivity|].
  unfold run_hyp, use_existing, bind, path_exists. simpl.
  destruct (fs !! path_join (dirs_consensus narps) (fdr_name hyp)) as [v|] eqn:Hv.
  - left. rewrite bool_decide_eq_true_2 by eauto. repeat split; eauto.
  - right. rewrite bool_decide_eq_false_2 by (intros [v Hv']; discriminate Hv').
    split; [right|]; reflexivity.
Qed.

Lemma run_hyp_plan (narps : narps_t) (overwrite : bool) (hyp : nat) (fs : files) :
  exists (r : result unit) (ws : list (string * volume)),
    run_hyp E narps overwrite hyp fs = (r, apply_writes ws fs) /\
    (forall p, p ∈ map fst ws -> p ∈ out_paths narps hyp).
Proof.
  destruct (run_hyp_cases narps overwrite hyp fs) as [(_ & _ & ->)|[_ ->]].
  - exists (Ok tt), []. split; [reflexivity|]. intros p Hp. inversion Hp.
  - destruct (consensus_analysis_plan narps hyp fs) as (r & ws & k & Hws & _ & Hrun).
    exists r, ws. split; [apply Hrun; reflexivity|]. intros p. rewrite Hws. apply subseteq_take.
Qed.

(** After a turn that succeeded, the 1-fdr volume of the hypothesis exists,
    and all four volumes if the hypothesis was analysed. *)
Lemma run_hyp_Ok (narps : narps_t) (overwrite : bool) (hyp : nat) (fs fs' : files) :
  run_hyp E narps overwrite hyp fs = (Ok tt, fs') ->
  is_Some (fs' !! path_join (dirs_consensus narps) (fdr_name hyp)) /\
  (overwrite = true -> artifacts_exist narps hyp fs').
Proof.
  destruct (run_hyp_cases narps overwrite hyp fs) as [(-> & Hex & ->)|[_ ->]].
  - intros [= <-]. split; [exact Hex|discriminate].
  - destruct (consensus_analysis_plan narps hyp fs) as (r & ws & k & Hws & Hk & Hrun).
    rewrite (Hrun fs eq_refl). intros [= -> <-]. rewrite (Hk eq_refl) in Hws.
    assert (Hall : artifacts_exist narps hyp (apply_writes ws fs)).
    { apply Forall_forall. intros p Hp. apply apply_writes_is_Some.
      rewrite Hws. rewrite take_ge by (unfold out_paths; simpl; lia). exact Hp. }
    split; [|intros _; exact Hall].
    unfold artifacts_exist in Hall. rewrite Forall_forall in Hall. apply Hall.
    unfold out_paths. simpl. set_solver.
Qed.

(** The loop with [overwrite=True]: one outcome and one list of writes, for
    all files that give the same feature matrices. *)
Lemma for_each_plan (narps : narps_t) (l : list nat) (fs : files) :
  lists_files E ->
  exists (r : result unit) (ws : list (string * volume)),
    result_paths narps ws /\
    forall fs', (forall hyp, hyp ∈ l -> features E narps hyp fs' = features E narps hyp fs) ->
      for_each l (run_hyp E narps true) fs' = (r, apply_writes ws fs').
Proof.
  intros Hls. induction l as [|hyp l IH].
  - exists (Ok tt), []. split; [intros p Hp; inversion Hp|]. reflexivity.
  - destruct IH as (rl & wl & Hwl & IH).
    destruct (consensus_analysis_plan narps hyp fs) as (r & ws & k & Hws & _ & Hrun).
    assert (Hres : result_paths narps ws).
    { intros p Hp. exists hyp. rewrite Hws in Hp. eapply subseteq_take, Hp. }
    destruct r as [[]|e].
    + exists rl, (ws ++ wl). split.
      { intros p. rewrite map_app, elem_of_app. intros [Hp|Hp]; auto. }
      intros fs' Hf. simpl. unfold bind.
      change (run_hyp E narps true hyp fs') with (consensus_analysis E narps hyp fs').
      rewrite Hrun by (apply Hf; left). rewrite IH.
      * rewrite apply_writes_app. reflexivity.
      * intros h Hh. rewrite features_result_writes by assumption. apply Hf. right. exact Hh.
    + exists (Err e), ws. split; [exact Hres|].
      intros fs' Hf. simpl. unfold bind.
      change (run_hyp E narps true hyp fs') with (consensus_analysis E narps hyp fs').
      rewrite Hrun by (apply Hf; left). reflexivity.
Qed.

End LoopFacts.

Section LoopClaims.

Variable E : env.

Lemma for_each_frame (narps : narps_t) (overwrite : bool) (l : list nat) (fs : files)
    (p : string) :
  (forall hyp, hyp ∈ l -> p ∉ out_paths narps hyp) ->
  snd (for_each l (run_hyp E narps overwrite) fs) !! p = fs !! p.
Proof.
  revert fs. induction l as [|hyp l IH]; intros fs Hp; [reflexivity|].
  simpl. unfold bind.
  destruct (run_hyp_plan E narps overwrite hyp fs) as (r & ws & -> & Hws).
  assert (Hfs : apply_writes ws fs !! p = fs !! p).
  { apply apply_writes_lookup_notin. intros Hin. apply Hws in Hin.
    apply (Hp hyp); [left|exact Hin]. }
  destruct r as [[]|e]; [|exact Hfs].
  rewrite IH; [exact Hfs|]. intros h Hh. apply Hp. right. exact Hh.
Qed.

Lemma for_each_keeps (narps : narps_t) (overwrite : bool) (l : list nat) (fs : files)
    (p : string) :
  is_Some (fs !! p) -> is_Some (snd (for_each l (run_hyp E narps overwrite) fs) !! p).
Proof.
  revert fs. induction l as [|hyp l IH]; intros fs Hp; [exact Hp|].
  simpl. unfold bind.
  destruct (run_hyp_plan E narps overwrite hyp fs) as (r & ws & -> & _).
  pose proof (apply_writes_keeps ws fs p Hp) as Hk.
  destruct r as [[]|e]; [apply IH, Hk|exact Hk].
Qed.

Lemma for_each_Ok (narps : narps_t) (overwrite : bool) (l : list nat) (fs fs' : files) :
  for_each l (run_hyp E narps overwrite) fs = (Ok tt, fs') ->
  forall hyp, hyp ∈ l ->
    is_Some (fs' !! path_join (dirs_consensus narps) (fdr_name hyp)) /\
    (overwrite = true -> artifacts_exist narps hyp fs').
Proof.
  revert fs. induction l as [|h l IH]; intros fs Hrun hyp Hin; [inversion Hin|].
  simpl in Hrun. unfold bind in Hrun.
  destruct (run_hyp E narps overwrite h fs) as [[[]|e] fs1] eqn:Hh; [|discriminate Hrun].
  apply elem_of_cons in Hin as [->|Hin]; [|apply (IH fs1 Hrun hyp Hin)].
  apply run_hyp_Ok in Hh as [Hfdr Hall].
  assert (Hfs' : fs' = snd (for_each l (run_hyp E narps overwrite) fs1)) by (rewrite Hrun; reflexivity).
  split.
  - rewrite Hfs'. apply for_each_keeps, Hfdr.
  - intros Ho. specialize (Hall Ho). unfold artifacts_exist in *.
    rewrite Forall_forall in *. intros p Hp. rewrite Hfs'. apply for_each_keeps, Hall, Hp.
Qed.

Lemma for_each_skip (narps : narps_t) (l : list nat) (fs : files) :
  (forall hyp, hyp ∈ l -> is_Some (fs !! path_join (dirs_consensus narps) (fdr_name hyp))) ->
  for_each l (run_hyp E narps false) fs = (Ok tt, fs).
Proof.
  induction l as [|hyp l IH]; intros Hex; [reflexivity|].
  simpl. unfold bind.
  destruct (run_hyp_cases E narps false hyp fs) as [(_ & _ & ->)|[[Ho|Hno] _]].
  - apply IH. intros h Hh. apply Hex. right. exact Hh.
  - discriminate Ho.
  - destruct (Hex hyp) as [v Hv]; [left|]. rewrite Hv in Hno. discriminate Hno.
Qed.

(** X2: the first hypothesis that fails ends the run with its failure, and
    the hypotheses after it are not analysed: their result volumes hold
    what they held before the run. *)
Theorem failure_stops_the_run (narps : narps_t) (overwrite : bool) (fs fs1 : files)
    (before rest : list nat) (hyp : nat) (e : exn) :
  hypnums E = before ++ hyp :: rest ->
  for_each before (run_hyp E narps overwrite) fs = (Ok tt, fs1) ->
  fst (run_hyp E narps overwrite hyp fs1) = Err e ->
  run_ttests E narps overwrite fs = (Err e, snd (run_hyp E narps overwrite hyp fs1)) /\
  forall h p, h ∉ before -> h <> hyp -> p ∈ out_paths narps h ->
    snd (run_ttests E narps overwrite fs) !! p = fs !! p.
Proof.
  intros Hl Hdone Hfail.
  assert (Hrun : run_ttests E narps overwrite fs
                 = (Err e, snd (run_hyp E narps overwrite hyp fs1))).
  { unfold run_ttests. rewrite Hl, for_each_app, Hdone. simpl. unfold bind.
    destruct (run_hyp E narps overwrite hyp fs1) as [[[]|e'] fs2]; simpl in *;
      [discriminate Hfail|congruence]. }
  split; [exact Hrun|].
  intros h p Hd Hne Hp. rewrite Hrun. simpl.
  assert (H1 : fs1 !! p = fs !! p).
  { replace fs1 with (snd (for_each before (run_hyp E narps overwrite) fs))
      by (rewrite Hdone; reflexivity).
    apply for_each_frame. intros h' Hh' Hin.
    apply Hd. rewrite (out_paths_hyp narps h h' p Hp Hin). exact Hh'. }
  rewrite <- H1.
  destruct (run_hyp_plan E narps overwrite hyp fs1) as (r & ws & -> & Hws). simpl.
  apply apply_writes_lookup_notin. intros Hin. apply Hws in Hin.
  apply Hne, (out_paths_hyp narps h hyp p Hp Hin).
Qed.

(** X3: when the run succeeds, the 1-fdr volume of every hypothesis of the
    loop exists afterwards, and with [overwrite=True] all four of its
    result volumes do. *)
Theorem success_leaves_the_volumes (narps : narps_t) (overwrite : bool) (fs fs' : files)
    (hyp : nat) :
  run_ttests E narps overwrite fs = (Ok tt, fs') ->
  hyp ∈ hypnums E ->
  is_Some (fs' !! path_join (dirs_consensus narps) (fdr_name hyp)) /\
  (overwrite = true -> artifacts_exist narps hyp fs').
Proof. intros Hrun Hin. apply (for_each_Ok narps overwrite _ fs fs' Hrun hyp Hin). Qed.

(** X6: a result volume tells its hypothesis and its kind: the [i]-th
    volume of one hypothesis and the [j]-th of another are the same file
    only if the hypotheses and the kinds are the same. *)
Theorem result_volumes_distinct (narps : narps_t) (h1 h2 : nat) (i j : nat) (p : string) :
  out_paths narps h1 !! i = Some p ->
  out_paths narps h2 !! j = Some p ->
  h1 = h2 /\ i = j.
Proof.
  intros H1 H2.
  assert (Hh : h1 = h2).
  { apply (out_paths_hyp narps h1 h2 p); eapply list_elem_of_lookup_2; eassumption. }
  subst h2. split; [reflexivity|].
  apply (NoDup_lookup (out_paths narps h1) i j p (out_paths_NoDup narps h1) H1 H2).
Qed.

(** X7: the maps that the pattern of one hypothesis matches are matched by
    the pattern of no other: two hypotheses never read the same file. *)
Theorem maps_of_one_hypothesis (narps : narps_t) (h1 h2 : nat) (fs : files) (p : string) :
  p ∈ sorted_maps E narps h1 fs ->
  p ∈ sorted_maps E narps h2 fs ->
  h1 = h2.
Proof.
  unfold sorted_maps. rewrite !merge_sort_Permutation, !list_elem_of_filter.
  intros [H1 _] [H2 _]. apply Is_true_true in H1, H2.
  apply (is_map_hyp (dirs_output narps) h1 h2 p H1 H2).
Qed.

(** X8: with [overwrite=True] the run reads the maps of its hypotheses and
    nothing else: on two sets of files that hold the same maps for every
    hypothesis of the loop, whatever else they hold (results of an earlier
    run included), it has the same outcome and writes the same volumes. *)
Theorem run_reads_the_maps_only (narps : narps_t) (fs1 fs2 : files) :
  lists_files E ->
  (forall hyp p, hyp ∈ hypnums E -> is_map (dirs_output narps) hyp p = true ->
     fs1 !! p = fs2 !! p) ->
  exists (r : result unit) (ws : list (string * volume)),
    run_ttests E narps true fs1 = (r, apply_writes ws fs1) /\
    run_ttests E narps true fs2 = (r, apply_writes ws fs2) /\
    result_paths narps ws.
Proof.
  intros Hls Hmaps. unfold run_ttests.
  destruct (for_each_plan E narps (hypnums E) fs1 Hls) as (r & ws & Hws & Hrun).
  exists r, ws. split; [apply Hrun; reflexivity|]. split; [|exact Hws].
  apply Hrun. intros hyp Hh. symmetry. apply features_ext; [exact Hls|].
  intros p Hp. apply (Hmaps hyp p Hh Hp).
Qed.

(** X9: a feature matrix of a single team makes the analysis fail with
    numpy's [ValueError], raised by the log call before [t_corr] is called
    and before any volume is written, whatever the collaborators. *)
Theorem single_team_ValueError (narps : narps_t) (hyp : nat) (fs : files) (data : matrix) :
  features E narps hyp fs = Ok data ->
  shape0 data = 1%nat ->
  consensus_analysis E narps hyp fs = (Err ValueError, fs).
Proof.
  intros Hf Hn. rewrite consensus_analysis_eq, Hf. unfold log_moments.
  rewrite Hn. reflexivity.
Qed.

End LoopClaims.

(** ** The run with its log: what it does to the files and to the log *)

Section LoggedFacts.

Variable E : env.

(** When the store refuses the log file, the run stops at its first line. *)
Lemma run_ttests_logged_refused (narps : narps_t) (logfile : string) (overwrite : bool)
    (w : world) :
  writable E logfile = false ->
  run_ttests_logged E narps logfile overwrite w = (Err OSError, w).
Proof.
  intros Hw. unfold run_ttests_logged, lbind, log_to_file. rewrite Hw. reflexivity.
Qed.

(** One hypothesis, analysed, with the log: the outcome and the writes of
    [consensus_analysis], and the messages added to the log, are those of
    any files that give the same feature matrix. *)
Lemma consensus_analysis_logged_plan (narps : narps_t) (logfile : string) (hyp : nat)
    (fs : files) :
  writable E logfile = true ->
  exists (r : result unit) (ws : list (string * volume)) (ls : list log_msg),
    (forall p, p ∈ map fst ws -> p ∈ out_paths narps hyp) /\
    forall fs' lg, features E narps hyp fs' = features E narps hyp fs ->
      consensus_analysis E narps hyp fs' = (r, apply_writes ws fs') /\
      consensus_analysis_logged E narps logfile hyp (fs', lg)
      = (r, (apply_writes ws fs', lg ++ ls)).
Proof.
  intros Hw.
  assert (Hstart : forall fs' lg,
    consensus_analysis_logged E narps logfile hyp (fs', lg)
    = match features E narps hyp fs' with
      | Err e => (Err e, (fs', lg))
      | Ok data =>
          match log_moments data with
          | Err e => (Err e, (fs', lg))
          | Ok _ =>
              let lg1 := lg ++ [LogMoments (img_mean data) (img_var data)
                                  (mean (triu1 (cc data)))] in
              match t_corr E data (img_mean data) (img_var data) (cc data) with
              | Err e => (Err e, (fs', lg1))
              | Ok tp =>
                  (let+ _ := on_files (to_filename E (inverse_transform E (MNI_mask narps) (fst tp))
                                (path_join (dirs_consensus narps) (t_name hyp))) in
                   let+ _ := on_files (to_filename E
                                (inverse_transform E (MNI_mask narps) (one_minus (snd tp)))
                                (path_join (dirs_consensus narps) (p_name hyp))) in
                   let+ fdr_results := on_files (lift (multipletests E (snd tp) alpha_005)) in
                   let+ _ := log_to_file E logfile
                               (LogSignificant (count_true (fst fdr_results))) in
                   let+ _ := on_files (to_filename E
                                (inverse_transform E (MNI_mask narps)
                                   (one_minus (snd fdr_results)))
                                (path_join (dirs_consensus narps) (fdr_name hyp))) in
                   on_files (to_filename E
                               (inverse_transform E (MNI_mask narps) (tau data (cc data)))
                               (path_join (dirs_consensus narps) (tau_name hyp))))%run
                    (fs', lg1)
              end
          end
      end).
  { intros fs' lg. unfold consensus_analysis_logged, features, sorted_maps.
    unfold lbind at 1. unfold on_files at 1. unfold glob at 1. simpl.
    unfold lbind at 1. unfold on_files at 1. simpl.
    pose proof (fit_transform_state E (MNI_mask narps)
      (merge_sort String.le
         (filter (fun p => is_map (dirs_output narps) hyp p) (listdir E fs'))) fs') as S.
    destruct (fit_transform E _ _ fs') as [[data|e] fs1]; simpl in *; subst; [|reflexivity].
    unfold lbind at 1. unfold on_files at 1, lift at 1. simpl.
    destruct (log_moments data) as [[]|e]; [|reflexivity].
    unfold lbind at 1. unfold log_to_file at 1. rewrite Hw. simpl.
    unfold lbind at 1. unfold on_files at 1, lift at 1. simpl.
    destruct (t_corr E _ _ _ _); reflexivity. }
  destruct (features E narps hyp fs) as [data|e] eqn:Hf.
  2:{ exists (Err e), [], []. split; [intros p Hp; inversion Hp|].
      intros fs' lg Hf'. rewrite consensus_analysis_eq, Hstart, Hf', app_nil_r.
      split; reflexivity. }
  destruct (log_moments data) as [[]|e] eqn:Hlog.
  2:{ exists (Err e), [], []. split; [intros p Hp; inversion Hp|].
      intros fs' lg Hf'. rewrite consensus_analysis_eq, Hstart, Hf', Hlog, app_nil_r.
      split; reflexivity. }
  destruct (t_corr E data (img_mean data) (img_var data) (cc data))
    as [[tvals pvals]|e] eqn:Ht.
  2:{ exists (Err e), [], [LogMoments (img_mean data) (img_var data) (mean (triu1 (cc data)))].
      split; [intros p Hp; inversion Hp|].
      intros fs' lg Hf'. rewrite consensus_analysis_eq, Hstart, Hf', Hlog, Ht.
      split; reflexivity. }
  set (m1 := LogMoments (img_mean data) (img_var data) (mean (triu1 (cc data)))).
  assert (Hin : forall k (ws : list (string * volume)), map fst ws = take k (out_paths narps hyp) ->
                forall p, p ∈ map fst ws -> p ∈ out_paths narps hyp).
  { intros k ws -> p. apply subseteq_take. }
  destruct (writable E (path_join (dirs_consensus narps) (t_name hyp))) eqn:W1.
  2:{ exists (Err OSError), [], [m1]. split; [intros p Hp; inversion Hp|].
      intros fs' lg Hf'. rewrite consensus_analysis_eq, Hstart, Hf', Hlog, Ht.
      unfold write_results, lbind, bind, on_files, to_filename. simpl. rewrite W1.
      split; reflexivity. }
  destruct (writable E (path_join (dirs_consensus narps) (p_name hyp))) eqn:W2.
  2:{ eexists (Err OSError), [(_, _)], [m1]. split; [apply (Hin 1%nat); reflexivity|].
      intros fs' lg Hf'. rewrite consensus_analysis_eq, Hstart, Hf', Hlog, Ht.
      unfold write_results, lbind, bind, on_files, to_filename. simpl. rewrite W1, W2.
      split; reflexivity. }
  destruct (multipletests E pvals alpha_005) as [[rej padj]|e] eqn:MT.
  2:{ eexists (Err e), [(_, _); (_, _)], [m1]. split; [apply (Hin 2%nat); reflexivity|].
      intros fs' lg Hf'. rewrite consensus_analysis_eq, Hstart, Hf', Hlog, Ht.
      unfold write_results, lbind, bind, on_files, to_filename, lift. simpl.
      rewrite W1, W2, MT. split; reflexivity. }
  destruct (writable E (path_join (dirs_consensus narps) (fdr_name hyp))) eqn:W3.
  2:{ eexists (Err OSError), [(_, _); (_, _)], [m1; LogSignificant (count_true rej)].
      split; [apply (Hin 2%nat); reflexivity|].
      intros fs' lg Hf'. rewrite consensus_analysis_eq, Hstart, Hf', Hlog, Ht.
      unfold write_results, lbind, bind, on_files, to_filename, lift, log_to_file. simpl.
      rewrite W1, W2, MT, Hw, W3. simpl. rewrite <- app_assoc. split; reflexivity. }
  destruct (writable E (path_join (dirs_consensus narps) (tau_name hyp))) eqn:W4.
  2:{ eexists (Err OSError), [(_, _); (_, _); (_, _)], [m1; LogSignificant (count_true rej)].
      split; [apply (Hin 3%nat); reflexivity|].
      intros fs' lg Hf'. rewrite consensus_analysis_eq, Hstart, Hf', Hlog, Ht.
      unfold write_results, lbind, bind, on_files, to_filename, lift, log_to_file. simpl.
      rewrite W1, W2, MT, Hw, W3, W4. simpl. rewrite <- app_assoc. split; reflexivity. }
  eexists (Ok tt), [(_, _); (_, _); (_, _); (_, _)], [m1; LogSignificant (count_true rej)].
  split; [apply (Hin 4%nat); reflexivity|].
  intros fs' lg Hf'. rewrite consensus_analysis_eq, Hstart, Hf', Hlog, Ht.
  unfold write_results, lbind, bind, on_files, to_filename, lift, log_to_file. simpl.
  rewrite W1, W2, MT, Hw, W3, W4. simpl. rewrite <- app_assoc. split; reflexivity.
Qed.

End LoggedFacts.

Section LoggedLoop.

Variable E : env.

(** One turn of the loop with its log: skipped, or analysed, as the turn of
    [run_hyp] on the same files. *)
Lemma run_hyp_logged_cases (narps : narps_t) (logfile : string) (overwrite : bool)
    (hyp : nat) (fs : files) :
  (overwrite = false /\
   is_Some (fs !! path_join (dirs_consensus narps) (fdr_name hyp)) /\
   run_hyp E narps overwrite hyp fs = (Ok tt, fs) /\
   forall lg, run_hyp_logged E narps logfile overwrite hyp (fs, lg) = (Ok tt, (fs, lg))) \/
  ((overwrite = true \/ fs !! path_join (dirs_consensus narps) (fdr_name hyp) = None) /\
   run_hyp E narps overwrite hyp fs = consensus_analysis E narps hyp fs /\
   forall lg, run_hyp_logged E narps logfile overwrite hyp (fs, lg)
              = consensus_analysis_logged E narps logfile hyp (fs, lg)).
Proof.
  destruct overwrite; [right; split; [left|split; [|intros lg]]; reflexivity|].
  unfold run_hyp_logged, run_hyp, use_existing, lbind, bind, on_files, path_exists. simpl.
  destruct (fs !! path_join (dirs_consensus narps) (fdr_name hyp)) as [v|] eqn:Hv.
  - left. rewrite bool_decide_eq_true_2 by eauto. repeat split; eauto.
  - right. rewrite bool_decide_eq_false_2 by (intros [v Hv']; discriminate Hv').
    split; [right; reflexivity|]. split; [|intros lg]; reflexivity.
Qed.

(** The loop with its log does to the image files what the loop of
    [run_ttests] does, and adds messages to the end of the log. *)
Lemma lfor_each_files (narps : narps_t) (logfile : string) (overwrite : bool)
    (l : list nat) (fs : files) (lg : list log_msg) :
  writable E logfile = true ->
  exists ls : list log_msg,
    lfor_each l (run_hyp_logged E narps logfile overwrite) (fs, lg)
    = (fst (for_each l (run_hyp E narps overwrite) fs),
       (snd (for_each l (run_hyp E narps overwrite) fs), lg ++ ls)).
Proof.
  intros Hw. revert fs lg. induction l as [|hyp l IH]; intros fs lg.
  { exists []. rewrite app_nil_r. reflexivity. }
  simpl. unfold lbind at 1. unfold bind at 1 2.
  destruct (run_hyp_logged_cases narps logfile overwrite hyp fs)
    as [(_ & _ & -> & ->)|(_ & -> & ->)].
  - apply IH.
  - destruct (consensus_analysis_logged_plan E narps logfile hyp fs Hw)
      as (r & ws & ls & _ & Hrun).
    destruct (Hrun fs lg eq_refl) as [-> ->].
    destruct r as [[]|e].
    + destruct (IH (apply_writes ws fs) (lg ++ ls)) as [ls2 ->].
      exists (ls ++ ls2). rewrite app_assoc. reflexivity.
    + exists ls. reflexivity.
Qed.

(** With every 1-fdr volume there, the loop with [overwrite=False] skips
    every hypothesis and logs nothing. *)
Lemma lfor_each_skip (narps : narps_t) (logfile : string) (l : list nat) (fs : files)
    (lg : list log_msg) :
  (forall hyp, hyp ∈ l -> is_Some (fs !! path_join (dirs_consensus narps) (fdr_name hyp))) ->
  lfor_each l (run_hyp_logged E narps logfile false) (fs, lg) = (Ok tt, (fs, lg)).
Proof.
  induction l as [|hyp l IH]; intros Hex; [reflexivity|].
  simpl. unfold lbind at 1.
  destruct (run_hyp_logged_cases narps logfile false hyp fs)
    as [(_ & _ & _ & ->)|[[Ho|Hno] _]].
  - apply IH. intros h Hh. apply Hex. right. exact Hh.
  - discriminate Ho.
  - destruct (Hex hyp) as [v Hv]; [left|]. rewrite Hv in Hno. discriminate Hno.
Qed.

(** The loop with [overwrite=True] and its log: one outcome, one list of
    writes and one list of messages, for all files that give the same
    feature matrices. *)
Lemma lfor_each_plan (narps : narps_t) (logfile : string) (l : list nat) (fs : files) :
  lists_files E -> writable E logfile = true ->
  exists (r : result unit) (ws : list (string * volume)) (ls : list log_msg),
    result_paths narps ws /\
    forall fs' lg,
      (forall hyp, hyp ∈ l -> features E narps hyp fs' = features E narps hyp fs) ->
      lfor_each l (run_hyp_logged E narps logfile true) (fs', lg)
      = (r, (apply_writes ws fs', lg ++ ls)).
Proof.
  intros Hls Hw. induction l as [|hyp l IH].
  - exists (Ok tt), [], []. split; [intros p Hp; inversion Hp|].
    intros fs' lg _. rewrite app_nil_r. reflexivity.
  - destruct IH as (rl & wl & ll & Hwl & IH).
    destruct (consensus_analysis_logged_plan E narps logfile hyp fs Hw)
      as (r & ws & ls & Hws & Hrun).
    assert (Hres : result_paths narps ws).
    { intros p Hp. exists hyp. apply Hws, Hp. }
    destruct r as [[]|e].
    + exists rl, (ws ++ wl), (ls ++ ll). split.
      { intros p. rewrite map_app, elem_of_app. intros [Hp|Hp]; auto. }
      intros fs' lg Hf. simpl. unfold lbind at 1.
      change (run_hyp_logged E narps logfile true hyp (fs', lg))
        with (consensus_analysis_logged E narps logfile hyp (fs', lg)).
      rewrite (proj2 (Hrun fs' lg (Hf hyp ltac:(left)))). rewrite IH.
      * rewrite apply_writes_app, app_assoc. reflexivity.
      * intros h Hh. rewrite features_result_writes by assumption. apply Hf. right. exact Hh.
    + exists (Err e), ws, ls. split; [exact Hres|].
      intros fs' lg Hf. simpl. unfold lbind at 1.
      change (run_hyp_logged E narps logfile true hyp (fs', lg))
        with (consensus_analysis_logged E narps logfile hyp (fs', lg)).
      rewrite (proj2 (Hrun fs' lg (Hf hyp ltac:(left)))). reflexivity.
Qed.

(** The run with its log, when the log file can be written: the image
    files of [run_ttests], and more messages in the log. *)
Lemma run_ttests_logged_files (narps : narps_t) (logfile : string) (overwrite : bool)
    (fs : files) (lg : list log_msg) :
  writable E logfile = true ->
  exists ls : list log_msg,
    run_ttests_logged E narps logfile overwrite (fs, lg)
    = (fst (run_ttests E narps overwrite fs),
       (snd (run_ttests E narps overwrite fs), lg ++ LogFunc "run_ttests" :: ls)).
Proof.
  intros Hw. unfold run_ttests_logged, run_ttests, lbind, log_to_file. rewrite Hw. simpl.
  destruct (lfor_each_files narps logfile overwrite (hypnums E) fs
              (lg ++ [LogFunc "run_ttests"]) Hw) as [ls ->].
  exists ls. rewrite <- app_assoc. reflexivity.
Qed.

(** X1: whatever its outcome, the run changes no image file but result
    volumes of the hypotheses it loops over, and it only adds messages to
    the end of the log: a map of a team, and any path that is none of those
    result volumes, holds after the run what it held before, and the log
    starts with the messages it had. *)
Theorem run_changes_results_and_log_only (narps : narps_t) (logfile : string)
    (overwrite : bool) (fs : files) (lg : list log_msg) (p : string) :
  (exists output hyp, is_map output hyp p = true) \/
  (forall hyp, hyp ∈ hypnums E -> p ∉ out_paths narps hyp) ->
  let w' := snd (run_ttests_logged E narps logfile overwrite (fs, lg)) in
  fst w' !! p = fs !! p /\ exists ls, snd w' = lg ++ ls.
Proof.
  intros Hp. cbv zeta.
  destruct (writable E logfile) eqn:Hw.
  2:{ rewrite run_ttests_logged_refused by exact Hw. simpl.
      split; [reflexivity|]. exists []. rewrite app_nil_r. reflexivity. }
  destruct (run_ttests_logged_files narps logfile overwrite fs lg Hw) as [ls ->]. simpl.
  split; [|eauto].
  apply for_each_frame. intros hyp Hh Hin.
  destruct Hp as [(output & h & Hm)|Hp]; [|apply (Hp hyp Hh Hin)].
  rewrite (out_path_not_map narps hyp output h p Hin) in Hm. discriminate Hm.
Qed.

(** X4: after a run that succeeded, a run with [overwrite=False] skips
    every hypothesis: it succeeds, leaves the image files as they are, and
    adds one message to the log, the name of the function. *)
Theorem rerun_without_overwrite_logs_only (narps : narps_t) (logfile : string)
    (overwrite : bool) (w w' : world) :
  run_ttests_logged E narps logfile overwrite w = (Ok tt, w') ->
  run_ttests_logged E narps logfile false w'
  = (Ok tt, (fst w', snd w' ++ [LogFunc "run_ttests"])).
Proof.
  destruct w as [fs lg], w' as [fs' lg']. intros Hrun.
  destruct (writable E logfile) eqn:Hw.
  2:{ rewrite run_ttests_logged_refused in Hrun by exact Hw. discriminate Hrun. }
  destruct (run_ttests_logged_files narps logfile overwrite fs lg Hw) as [ls Hfs].
  rewrite Hfs in Hrun. injection Hrun as Hr Hfs' _.
  assert (Hplain : run_ttests E narps overwrite fs = (Ok tt, fs')).
  { destruct (run_ttests E narps overwrite fs); simpl in *. congruence. }
  unfold run_ttests_logged, lbind, log_to_file. rewrite Hw. simpl.
  apply lfor_each_skip. intros hyp Hin.
  apply (for_each_Ok E narps overwrite _ fs fs' Hplain hyp Hin).
Qed.

(** X5: with [overwrite=True], running again on what a run left, failed or
    not, gives the same outcome and the same image files, and adds to the
    log the messages that the first run added. *)
Theorem rerun_with_overwrite_repeats (narps : narps_t) (logfile : string) (fs : files)
    (lg : list log_msg) :
  lists_files E ->
  exists (r : result unit) (fs' : files) (ls : list log_msg),
    run_ttests_logged E narps logfile true (fs, lg) = (r, (fs', lg ++ ls)) /\
    run_ttests_logged E narps logfile true (fs', lg ++ ls) = (r, (fs', (lg ++ ls) ++ ls)).
Proof.
  intros Hls. destruct (writable E logfile) eqn:Hw.
  2:{ exists (Err OSError), fs, []. rewrite !app_nil_r.
      split; apply run_ttests_logged_refused, Hw. }
  destruct (lfor_each_plan narps logfile (hypnums E) fs Hls Hw) as (r & ws & ls & Hws & Hrun).
  exists r, (apply_writes ws fs), (LogFunc "run_ttests" :: ls).
  unfold run_ttests_logged, lbind, log_to_file. rewrite Hw. simpl.
  rewrite !Hrun.
  - rewrite apply_writes_twice, <- !app_assoc. split; reflexivity.
  - intros hyp _. apply features_result_writes; assumption.
  - reflexivity.
Qed.

End LoggedLoop.

(** ** The normaliser of tau *)

Lemma sqrt_scaled_by_inverse_zero (sg : bool) (q : SpecFloat.spec_float) :
  let x := SpecFloat.SFsqrt FloatOps.prec FloatOps.emax
             (SpecFloat.SFmul FloatOps.prec FloatOps.emax
                (SpecFloat.SFdiv FloatOps.prec FloatOps.emax (Prim2SF 1) (SpecFloat.S754_zero sg))
                q) in
  x = SpecFloat.S754_nan \/ x = SpecFloat.S754_infinity false.
Proof.
  change (Prim2SF 1) with (SpecFloat.S754_finite false 4503599627370496 (-52)).
  destruct sg, q as [s|s| |s m e]; simpl; try destruct s; simpl; auto.
Qed.

(** X10: [tau] does not guard its normaliser [trace(R.Q)]. When it is nan,
    every entry of tau is nan; when it is zero, [1/sampvar_est] is an
    infinity and every entry of tau is nan or [+inf]: none is a finite
    number. *)
Theorem tau_degenerate_normaliser (data Q : matrix) :
  (PrimFloat.is_nan (sampvar_est (shape0 data) Q) = true ->
   Forall (fun t => PrimFloat.is_nan t = true) (tau data Q)) /\
  (PrimFloat.is_zero (sampvar_est (shape0 data) Q) = true ->
   Forall (fun t => PrimFloat.is_nan t = true \/ t = infinity) (tau data Q)).
Proof.
  unfold tau, tau2. set (s := sampvar_est (shape0 data) Q). split.
  - intros Hs. apply is_nan_Prim2SF in Hs.
    rewrite Forall_forall. intros t Ht.
    apply list_elem_of_fmap in Ht as (x & -> & Hx).
    apply list_elem_of_fmap in Hx as (i & -> & _).
    apply is_nan_Prim2SF.
    rewrite FloatAxioms.sqrt_spec, FloatAxioms.mul_spec, FloatAxioms.div_spec, Hs.
    reflexivity.
  - intros Hs. apply is_zero_Prim2SF in Hs as [sg Hs].
    rewrite Forall_forall. intros t Ht.
    apply list_elem_of_fmap in Ht as (x & -> & Hx).
    apply list_elem_of_fmap in Hx as (i & -> & _).
    set (q := dot _ _).
    destruct (sqrt_scaled_by_inverse_zero sg (Prim2SF q)) as [H|H].
    + left. apply is_nan_Prim2SF.
      rewrite FloatAxioms.sqrt_spec, FloatAxioms.mul_spec, FloatAxioms.div_spec, Hs.
      exact H.
    + right. apply FloatAxioms.Prim2SF_inj.
      rewrite FloatAxioms.sqrt_spec, FloatAxioms.mul_spec, FloatAxioms.div_spec, Hs.
      exact H.
Qed.

(** ** The shapes of the arrays of tau *)

Lemma length_diag (a : matrix) : length (diag a) = length a.
Proof. unfold diag. rewrite length_map, length_seq. reflexivity. Qed.

Lemma cov_shape (a : matrix) :
  length (cov a) = length a /\ Forall (fun r => length r = length a) (cov a).
Proof.
  unfold cov. rewrite length_map, length_map. split; [reflexivity|].
  rewrite Forall_forall. intros r Hr.
  apply list_elem_of_fmap in Hr as (x & -> & _).
  rewrite !length_map. reflexivity.
Qed.

Lemma corrcoef_shape (a : matrix) :
  length (corrcoef a) = length a /\ Forall (fun r => length r = length a) (corrcoef a).
Proof.
  unfold corrcoef. cbv zeta. destruct (cov_shape a) as [Hn Hrows].
  set (c := cov a) in *. set (stddev := map PrimFloat.sqrt (diag c)).
  assert (Hs : length stddev = length a).
  { unfold stddev. rewrite length_map, length_diag. exact Hn. }
  split.
  - rewrite length_zip_with. unfold matrix, vec in *. rewrite Hn, Hs. lia.
  - rewrite Forall_forall. intros r Hr.
    apply list_elem_of_lookup in Hr as [i Hi].
    apply lookup_zip_with_Some in Hi as (row & si & -> & Hrow & _).
    rewrite length_zip_with. unfold matrix, vec in *. rewrite Hs.
    rewrite Forall_forall in Hrows. rewrite (Hrows row); [lia|].
    eapply list_elem_of_lookup_2, Hrow.
Qed.

Lemma eye_shape (n : nat) :
  length (eye n) = n /\ Forall (fun r => length r = n) (eye n).
Proof.
  unfold eye. rewrite length_map, length_seq. split; [reflexivity|].
  rewrite Forall_forall. intros r Hr.
  apply list_elem_of_fmap in Hr as (i & -> & _). rewrite length_map, length_seq. reflexivity.
Qed.

Lemma dot_one_one : dot [1%float] [1%float] = 1%float.
Proof. reflexivity. Qed.

Lemma map_seq_const {A} (f : nat -> A) (c : A) (s n : nat) :
  (forall j, (s <= j < s + n)%nat -> f j = c) -> map f (seq s n) = repeat c n.
Proof.
  revert s. induction n as [|n IH]; intros s Hf; [reflexivity|].
  simpl. rewrite Hf by lia. f_equal. apply IH. intros j Hj. apply Hf. lia.
Qed.

Lemma lookup_repeat {A} (x : A) (n i : nat) : (i < n)%nat -> repeat x n !! i = Some x.
Proof.
  revert i. induction n as [|n IH]; intros i Hi; [lia|].
  destruct i as [|i]; [reflexivity|]. simpl. apply IH. lia.
Qed.

(** [numpy.ones((n, 1)).dot(numpy.ones((1, n)))] is the [n] by [n] array of
    ones. *)
Lemma ones_outer (n : nat) : matmul (ones n 1) (ones 1 n) = ones n n.
Proof.
  unfold matmul, ones. rewrite map_repeat. f_equal.
  change (repeat (repeat 1%float n) 1) with [repeat 1%float n].
  unfold vecmat, shape1. rewrite repeat_length.
  apply map_seq_const. intros j Hj. unfold col. simpl.
  rewrite nth_repeat_lt by lia. reflexivity.
Qed.

(** [R = numpy.eye(n) - numpy.ones((n, 1)).dot(numpy.ones((1, n)))/n],
    entry by entry. *)
Lemma tau_R_lookup (n i j : nat) :
  (i < n)%nat -> (j < n)%nat ->
  tau_R n !! i ≫= (.!! j) = Some ((if (i =? j)%nat then 1 else 0) - 1 / of_nat n)%float.
Proof.
  intros Hi Hj. unfold tau_R, mat_sub, mat_div. rewrite ones_outer. unfold ones, eye.
  rewrite !map_repeat. unfold matrix, vec. rewrite lookup_zip_with.
  rewrite list_lookup_fmap, lookup_seq_lt by exact Hi. simpl.
  rewrite lookup_repeat by exact Hi. simpl.
  rewrite lookup_zip_with, list_lookup_fmap, lookup_seq_lt by exact Hj. simpl.
  rewrite lookup_repeat by exact Hj. reflexivity.
Qed.

Lemma tau_R_shape (n : nat) :
  length (tau_R n) = n /\ Forall (fun r => length r = n) (tau_R n).
Proof.
  unfold tau_R, mat_sub, mat_div. rewrite ones_outer. unfold ones.
  destruct (eye_shape n) as [He Hrows]. rewrite !map_repeat. split.
  - rewrite length_zip_with, repeat_length. unfold matrix, vec in *. rewrite He. lia.
  - rewrite Forall_forall. intros r Hr.
    apply list_elem_of_lookup in Hr as [i Hi].
    apply lookup_zip_with_Some in Hi as (x & y & -> & Hx & Hy).
    rewrite length_zip_with.
    rewrite Forall_forall in Hrows. rewrite (Hrows x) by (eapply list_elem_of_lookup_2, Hx).
    apply lookup_lt_Some in Hx as Hlt. unfold matrix, vec in *. rewrite He in Hlt.
    rewrite lookup_repeat in Hy by exact Hlt. injection Hy as <-.
    rewrite repeat_length. lia.
Qed.

(** X11: the arrays of [tau] fit one another. For a feature matrix of [n]
    teams (one team apart, for which numpy's [cc] is not a matrix), [cc]
    is [n] by [n], and so is [R], the centring matrix: 1 - 1/n on the
    diagonal and 0 - 1/n elsewhere; and tau has one entry per voxel
    column. *)
Theorem tau_arrays_fit (data : matrix) (i j : nat) :
  shape0 data <> 1%nat ->
  (i < shape0 data)%nat -> (j < shape0 data)%nat ->
  shape0 (cc data) = shape0 data /\
  Forall (fun r => length r = shape0 data) (cc data) /\
  shape0 (tau_R (shape0 data)) = shape0 data /\
  Forall (fun r => length r = shape0 data) (tau_R (shape0 data)) /\
  entry (tau_R (shape0 data)) i j
  = ((if (i =? j)%nat then 1 else 0) - 1 / of_nat (shape0 data))%float /\
  length (tau data (cc data)) = shape1 data.
Proof.
  intros _ Hi Hj. unfold shape0 in *.
  destruct (corrcoef_shape data) as [Hc Hcr], (tau_R_shape (length data)) as [Hr Hrr].
  repeat split; try assumption.
  - pose proof (tau_R_lookup (length data) i j Hi Hj) as Hl. unfold entry.
    destruct (tau_R (length data) !! i) as [row|] eqn:Hrow; [|discriminate Hl].
    simpl in Hl. rewrite (nth_lookup_Some _ _ _ _ Hrow).
    apply nth_lookup_Some, Hl.
  - unfold tau, tau2. rewrite !length_map, length_seq. reflexivity.
Qed.

(** ** The thresholded map and the histogram of tau (mk_figures) *)

Lemma count_if_ext (f g : float -> bool) (a : vec) :
  (forall x, f x = g x) -> count_if f a = count_if g a.
Proof.
  intros Hfg. unfold count_if. f_equal. f_equal.
  induction a as [|x a IH]; [reflexivity|]. simpl. rewrite Hfg, IH. reflexivity.
Qed.

(** Entries that satisfy neither predicate can be left out. *)
Lemma count_if_filter (f g : float -> bool) (a : vec) :
  (forall x, f x = true -> g x = true) ->
  count_if f (List.filter g a) = count_if f a.
Proof.
  intros Hfg. unfold count_if. f_equal. f_equal.
  induction a as [|x a IH]; [reflexivity|]. simpl.
  destruct (g x) eqn:Hg; simpl; rewrite IH; [reflexivity|].
  destruct (f x) eqn:Hf; [|reflexivity]. rewrite (Hfg x Hf) in Hg. discriminate Hg.
Qed.

Lemma count_if_sub (f g : float -> bool) (a : vec) :
  (forall x, g x = true -> f x = true) ->
  (count_if f a - count_if g a = count_if (fun x => f x && negb (g x)) a)%Z.
Proof.
  intros Hgf. unfold count_if.
  induction a as [|x a IH]; [reflexivity|]. simpl.
  destruct (g x) eqn:Hg.
  - rewrite (Hgf x Hg). simpl. simpl length. lia.
  - destruct (f x); simpl; simpl length; lia.
Qed.

Lemma hist_total_diff (x : Z) (c : list Z) :
  hist_total (diff (x :: c)) = (List.last (x :: c) 0 - x)%Z.
Proof.
  revert x. induction c as [|y c IH]; intros x.
  - simpl. lia.
  - change (diff (x :: y :: c)) with ((y - x)%Z :: diff (y :: c)).
    change (hist_total ((y - x)%Z :: diff (y :: c))) with ((y - x) + hist_total (diff (y :: c)))%Z.
    rewrite IH. change (List.last (x :: y :: c) 0%Z) with (List.last (y :: c) 0%Z). lia.
Qed.

(** The bins of the histogram of tau: the 500 edges [k * 0.01] in binary64,
    which increase from 0 to [last_edge]; none of them is nan. *)
Lemma tau_bins_facts :
  arange 0 5 step_001 = Some (map tau_edge (seq 0 500)) /\
  existsb (fun xy => (snd xy <? fst xy)%float)
    (zip (take 499 (map tau_edge (seq 0 500))) (tail (map tau_edge (seq 0 500)))) = false /\
  forallb (fun e => negb (PrimFloat.is_nan e)) (map tau_edge (seq 0 500)) = true /\
  tau_edge 0 = 0%float /\ tau_edge 499 = last_edge.
Proof. repeat split; vm_compute; reflexivity. Qed.

Lemma npy_lt_number (x v : float) :
  PrimFloat.is_nan v = false -> npy_lt x v = (x <? v)%float.
Proof. intros Hv. unfold npy_lt. rewrite Hv. apply orb_false_r. Qed.

Lemma npy_lt_nan_r (v x : float) :
  PrimFloat.is_nan v = false -> PrimFloat.is_nan x = true -> npy_lt v x = true.
Proof. intros Hv Hx. unfold npy_lt. rewrite Hv, Hx. apply orb_true_r. Qed.

(** What the counts from the left and from the right leave between two
    numbers. *)
Lemma between_closed (lo hi x : float) :
  PrimFloat.is_nan lo = false -> PrimFloat.is_nan hi = false ->
  negb (npy_lt hi x) && negb (npy_lt x lo) = (lo <=? x)%float && (x <=? hi)%float.
Proof.
  intros Hlo Hhi. destruct (PrimFloat.is_nan x) eqn:Hx.
  - rewrite (npy_lt_nan_r hi x Hhi Hx), (leb_nan_r lo x Hx). reflexivity.
  - rewrite (npy_lt_number x lo Hlo).
    unfold npy_lt. rewrite Hx, andb_false_l, orb_false_r.
    rewrite (leb_negb_ltb lo x Hlo Hx), (leb_negb_ltb x hi Hx Hhi).
    apply andb_comm.
Qed.

Lemma between_half_open (lo hi x : float) :
  PrimFloat.is_nan lo = false ->
  (x <? hi)%float && negb (x <? lo)%float = (lo <=? x)%float && (x <? hi)%float.
Proof.
  intros Hlo. destruct (PrimFloat.is_nan x) eqn:Hx.
  - rewrite (ltb_nan_l x hi Hx), (leb_nan_r lo x Hx). reflexivity.
  - rewrite (leb_negb_ltb lo x Hlo Hx). apply andb_comm.
Qed.

Lemma below_lo_not_above_hi (lo hi x : float) :
  PrimFloat.is_nan hi = false -> (lo <=? hi)%float = true ->
  (x <? lo)%float = true -> negb (npy_lt hi x) = true.
Proof.
  intros Hhi Hle Hlt.
  destruct (PrimFloat.is_nan x) eqn:Hx; [rewrite (ltb_nan_l x lo Hx) in Hlt; discriminate Hlt|].
  unfold npy_lt. rewrite Hx, andb_false_l, orb_false_r.
  rewrite <- (leb_negb_ltb x hi Hx Hhi).
  apply ltb_leb, (ltb_leb_trans x lo hi Hlt Hle).
Qed.

Lemma histogram_counts (a bin_edges : vec) (counts : list Z) (edges' : vec) :
  histogram a bin_edges = Some (counts, edges') ->
  counts = diff (map (searchsorted_left a) (take (length bin_edges - 1) bin_edges)
                 ++ map (searchsorted_right a) (drop (length bin_edges - 1) bin_edges)) /\
  edges' = bin_edges.
Proof.
  unfold histogram. destruct (existsb _ _); [discriminate|].
  intros [= <- <-]. split; reflexivity.
Qed.

Lemma histogram_increasing (a bin_edges : vec) (counts : list Z) (edges' : vec)
    (k : nat) (lo hi : float) :
  histogram a bin_edges = Some (counts, edges') ->
  Forall (fun e => PrimFloat.is_nan e = false) bin_edges ->
  bin_edges !! k = Some lo -> bin_edges !! S k = Some hi -> (lo <=? hi)%float = true.
Proof.
  unfold vec in *. intros Hhist Hnum Hlo Hhi. unfold histogram in Hhist.
  destruct (existsb _ _) eqn:Hm; [discriminate Hhist|].
  assert (Hk : (S k < length bin_edges)%nat) by (eapply lookup_lt_Some, Hhi).
  assert (Hin : In (lo, hi) (zip (take (length bin_edges - 1) bin_edges) (tail bin_edges))).
  { apply list_elem_of_In. apply (list_elem_of_lookup_2 _ k). apply lookup_zip_Some.
    rewrite lookup_take_lt by lia. rewrite lookup_tail. split; assumption. }
  rewrite Forall_forall in Hnum.
  rewrite leb_negb_ltb.
  - apply negb_true_iff. destruct (hi <? lo)%float eqn:Hlt; [|reflexivity].
    assert (existsb (fun xy => (snd xy <? fst xy)%float)
              (zip (take (length bin_edges - 1) bin_edges) (tail bin_edges)) = true).
    { apply existsb_exists. exists (lo, hi). split; [exact Hin|exact Hlt]. }
    congruence.
  - apply Hnum. eapply list_elem_of_lookup_2, Hlo.
  - apply Hnum. eapply list_elem_of_lookup_2, Hhi.
Qed.

(** The count of a bin is the number of entries from its left edge up to
    its right edge, which belongs to the last bin only. *)
Lemma histogram_bin (a bin_edges : vec) (counts : list Z) (edges' : vec)
    (k : nat) (lo hi : float) :
  histogram a bin_edges = Some (counts, edges') ->
  Forall (fun e => PrimFloat.is_nan e = false) bin_edges ->
  bin_edges !! k = Some lo -> bin_edges !! S k = Some hi ->
  counts !! k
  = Some (count_if (fun x => (lo <=? x)%float
                             && (if (S (S k) =? length bin_edges)%nat
                                 then (x <=? hi)%float else (x <? hi)%float)) a).
Proof.
  unfold vec in *. intros Hhist Hnum Hlo Hhi.
  pose proof (histogram_increasing _ _ _ _ k lo hi Hhist Hnum Hlo Hhi) as Hle.
  destruct (histogram_counts _ _ _ _ Hhist) as [-> _]. clear Hhist.
  assert (Hk : (S k < length bin_edges)%nat) by (eapply lookup_lt_Some, Hhi).
  assert (Nlo : PrimFloat.is_nan lo = false).
  { rewrite Forall_forall in Hnum. apply Hnum. eapply list_elem_of_lookup_2, Hlo. }
  assert (Nhi : PrimFloat.is_nan hi = false).
  { rewrite Forall_forall in Hnum. apply Hnum. eapply list_elem_of_lookup_2, Hhi. }
  set (n := length bin_edges) in *.
  assert (Hlen : length (map (searchsorted_left a) (take (n - 1) bin_edges)) = (n - 1)%nat).
  { rewrite length_map, length_take. lia. }
  unfold diff. rewrite lookup_zip_with, lookup_tail.
  rewrite (lookup_app_l _ _ k) by lia.
  rewrite (list_lookup_fmap _ _ k), lookup_take_lt, Hlo by lia.
  destruct (Nat.eqb_spec (S (S k)) n) as [Hlast|Hin].
  - rewrite lookup_app_r by lia. rewrite Hlen.
    replace (S k - (n - 1))%nat with 0%nat by lia.
    rewrite list_lookup_fmap, lookup_drop.
    replace (n - 1 + 0)%nat with (S k) by lia. rewrite Hhi. simpl. f_equal.
    unfold searchsorted_right, searchsorted_left.
    rewrite count_if_sub.
    + apply count_if_ext. intros x. apply between_closed; assumption.
    + intros x. rewrite (npy_lt_number x lo Nlo). apply below_lo_not_above_hi; assumption.
  - rewrite (lookup_app_l _ _ (S k)) by lia.
    rewrite list_lookup_fmap, lookup_take_lt, Hhi by lia. simpl. f_equal.
    unfold searchsorted_left.
    rewrite count_if_sub.
    + apply count_if_ext. intros x.
      rewrite (npy_lt_number x lo Nlo), (npy_lt_number x hi Nhi).
      apply between_half_open, Nlo.
    + intros x. rewrite (npy_lt_number x lo Nlo), (npy_lt_number x hi Nhi).
      intros Hlt. apply (ltb_leb_trans x lo hi Hlt Hle).
Qed.

(** The counts add up to the number of entries from the first edge to the
    last. *)
Lemma histogram_total (a bin_edges : vec) (counts : list Z) (edges' : vec) (lo hi : float) :
  histogram a bin_edges = Some (counts, edges') ->
  Forall (fun e => PrimFloat.is_nan e = false) bin_edges ->
  (2 <= length bin_edges)%nat ->
  bin_edges !! 0%nat = Some lo -> bin_edges !! (length bin_edges - 1)%nat = Some hi ->
  (lo <=? hi)%float = true ->
  hist_total counts = count_if (fun x => (lo <=? x)%float && (x <=? hi)%float) a.
Proof.
  unfold vec in *. intros Hhist Hnum Hn Hlo Hhi Hle.
  destruct (histogram_counts _ _ _ _ Hhist) as [-> _]. clear Hhist.
  assert (Nlo : PrimFloat.is_nan lo = false).
  { rewrite Forall_forall in Hnum. apply Hnum. eapply list_elem_of_lookup_2, Hlo. }
  assert (Nhi : PrimFloat.is_nan hi = false).
  { rewrite Forall_forall in Hnum. apply Hnum. eapply list_elem_of_lookup_2, Hhi. }
  rewrite (drop_S _ hi _ Hhi), drop_ge by lia.
  destruct bin_edges as [|e0 rest] eqn:He; [discriminate Hlo|].
  injection Hlo as ->. simpl length. replace (S (length rest) - 1)%nat with (S (length rest - 1)) by (simpl in Hn; lia).
  simpl take. simpl map.
  rewrite <- app_comm_cons, hist_total_diff, app_comm_cons, last_last.
  unfold searchsorted_right, searchsorted_left.
  rewrite count_if_sub.
  - apply count_if_ext. intros x. apply between_closed; assumption.
  - intros x. rewrite (npy_lt_number x lo Nlo). apply below_lo_not_above_hi; assumption.
Qed.

Lemma histogram_length (a bin_edges : vec) (counts : list Z) (edges' : vec) :
  histogram a bin_edges = Some (counts, edges') ->
  length counts = (length bin_edges - 1)%nat.
Proof.
  intros Hhist. destruct (histogram_counts _ _ _ _ Hhist) as [-> _]. unfold diff.
  rewrite length_zip_with, length_tl, length_app, !length_map, length_take, length_drop. lia.
Qed.

Lemma histogram_filter_nan (a bin_edges : vec) :
  Forall (fun e => PrimFloat.is_nan e = false) bin_edges ->
  histogram (List.filter (fun x => negb (PrimFloat.is_nan x)) a) bin_edges
  = histogram a bin_edges.
Proof.
  intros Hnum. rewrite Forall_forall in Hnum. unfold histogram.
  destruct (existsb _ _); [reflexivity|]. f_equal. f_equal. f_equal. f_equal.
  - apply map_ext_in. intros v Hv. apply count_if_filter. intros x.
    rewrite (npy_lt_number x v).
    + intros Hlt. destruct (PrimFloat.is_nan x) eqn:Hx; [|reflexivity].
      rewrite (ltb_nan_l x v Hx) in Hlt. discriminate Hlt.
    + apply Hnum. eapply subseteq_take, list_elem_of_In, Hv.
  - apply map_ext_in. intros v Hv. apply count_if_filter. intros x Hle.
    destruct (PrimFloat.is_nan x) eqn:Hx; [|reflexivity].
    rewrite (npy_lt_nan_r v x) in Hle; [discriminate Hle| |exact Hx].
    apply Hnum. eapply subseteq_drop, list_elem_of_In, Hv.
Qed.

Lemma tau_edges_numbers :
  Forall (fun e => PrimFloat.is_nan e = false) (map tau_edge (seq 0 500)).
Proof.
  destruct tau_bins_facts as (_ & _ & Hnn & _). rewrite forallb_forall in Hnn.
  apply Forall_forall. intros e He. apply negb_true_iff, Hnn, list_elem_of_In, He.
Qed.

Lemma tauhist_Some (taudata : matrix) :
  exists counts, tauhist taudata = Some (counts, map tau_edge (seq 0 500)).
Proof.
  destruct tau_bins_facts as (Hb & Hmono & _).
  unfold tauhist, histogram. rewrite Hb, length_map, length_seq.
  change (500 - 1)%nat with 499%nat. rewrite Hmono. eexists. reflexivity.
Qed.

Lemma tauhist_histogram (taudata : matrix) (counts : list Z) (edges : vec) :
  tauhist taudata = Some (counts, edges) ->
  histogram (concat taudata) (map tau_edge (seq 0 500)) = Some (counts, edges).
Proof.
  destruct tau_bins_facts as (Hb & _). unfold tauhist. rewrite Hb. exact id.
Qed.

Lemma tau_edge_lookup (k : nat) :
  (k < 500)%nat -> map tau_edge (seq 0 500) !! k = Some (tau_edge k).
Proof. intros Hk. rewrite list_lookup_fmap, lookup_seq_lt by exact Hk. reflexivity. Qed.

(** X13: the histogram of tau is always computed, over the 500 edges
    [k * 0.01], from 0 to 4.99, and has 499 counts, as many as the edges
    past the first that the plot pairs them with. The count of bin [k] is
    the number of tau values [v] with [edge k <= v < edge (k+1)], and
    [edge 498 <= v <= edge 499] for the last bin. *)
Theorem tauhist_bins (taudata : matrix) :
  exists counts : list Z,
    tauhist taudata = Some (counts, map tau_edge (seq 0 500)) /\
    length counts = 499%nat /\
    length counts = length (tail (map tau_edge (seq 0 500))) /\
    forall k, (k < 499)%nat ->
      counts !! k
      = Some (count_if (fun v => (tau_edge k <=? v)%float
                                 && (if (k =? 498)%nat then (v <=? tau_edge 499)%float
                                     else (v <? tau_edge (S k))%float))
                       (concat taudata)).
Proof.
  destruct (tauhist_Some taudata) as [counts Hc]. exists counts.
  pose proof (tauhist_histogram _ _ _ Hc) as Hh.
  pose proof (histogram_length _ _ _ _ Hh) as Hlen.
  rewrite length_map, length_seq in Hlen. change (500 - 1)%nat with 499%nat in Hlen.
  split; [exact Hc|]. split; [exact Hlen|]. split.
  { rewrite Hlen, length_tl, length_map, length_seq. reflexivity. }
  intros k Hk.
  rewrite (histogram_bin _ _ _ _ k (tau_edge k) (tau_edge (S k)) Hh tau_edges_numbers)
    by (apply tau_edge_lookup; lia).
  rewrite length_map, length_seq. f_equal. apply count_if_ext. intros v.
  change (S (S k) =? 500)%nat with (k =? 498)%nat.
  destruct (Nat.eqb_spec k 498) as [->|_]; reflexivity.
Qed.

(** X14: when the tau volume of a hypothesis is there, the masker takes it,
    the masked array has an entry and the log can be written, the turn of
    [mk_figures] logs the array's median and maximum, leaves the image
    files as they are, and gives a histogram whose counts add up to the
    number of entries of the masked array between 0 and the last edge, the
    float64 next to 4.99: an entry above the last edge or below 0 is in no
    bin. *)
Theorem mk_tauhist_total (E : env) (narps : narps_t) (logfile : string) (hyp : nat) (fs : files)
    (lg : list log_msg) (tauimg : volume) (taudata : matrix) :
  fs !! path_join (dirs_consensus narps) (tau_name hyp) = Some tauimg ->
  masker_transform E (MNI_mask narps) [tauimg] = Ok taudata ->
  concat taudata <> [] ->
  writable E logfile = true ->
  exists counts : list Z,
    mk_tauhist E narps logfile hyp (fs, lg)
    = (Ok (counts, map tau_edge (seq 0 500)), (fs, lg ++ [LogTau hyp taudata])) /\
    hist_total counts
    = count_if (fun v => (0 <=? v)%float && (v <=? last_edge)%float) (concat taudata).
Proof.
  intros Hload Hmask Hne Hw.
  destruct (tauhist_Some taudata) as [counts Hc]. exists counts. split.
  - unfold mk_tauhist, lbind, on_files, load, lift, log_to_file. simpl.
    rewrite Hload, Hmask. simpl.
    destruct (concat taudata) eqn:Hcat; [congruence|]. simpl.
    rewrite Hw. simpl. rewrite Hc. reflexivity.
  - pose proof (tauhist_histogram _ _ _ Hc) as Hh.
    apply (histogram_total _ _ _ _ 0%float last_edge Hh tau_edges_numbers).
    + rewrite length_map, length_seq. lia.
    + destruct tau_bins_facts as (_ & _ & _ & <- & _). apply tau_edge_lookup. lia.
    + destruct tau_bins_facts as (_ & _ & _ & _ & <-).
      rewrite length_map, length_seq. apply tau_edge_lookup. lia.
    + reflexivity.
Qed.

(** X12: at a voxel whose 1-fdr value is above the threshold the
    thresholded map holds the t value, exactly; at any other voxel, one
    whose 1-fdr value is nan included, it holds a zero, unless the t value
    is an infinity or nan, for which it holds nan. *)
Theorem threshdata_keeps_or_blanks (thresh pdata tdata : float) :
  ((thresh <? pdata)%float = true -> threshdata thresh pdata tdata = tdata) /\
  ((thresh <? pdata)%float = false -> nonfinite tdata = false ->
     PrimFloat.is_zero (threshdata thresh pdata tdata) = true) /\
  ((thresh <? pdata)%float = false -> nonfinite tdata = true ->
     PrimFloat.is_nan (threshdata thresh pdata tdata) = true) /\
  (PrimFloat.is_nan pdata = true -> (thresh <? pdata)%float = false).
Proof.
  unfold threshdata. pose proof (mul_0_l tdata) as H0. repeat split.
  - intros ->. apply mul_1_l.
  - intros -> Hf. rewrite Hf in H0. exact H0.
  - intros -> Hf. rewrite Hf in H0. exact H0.
  - apply ltb_nan_r.
Qed.

(** ** The properties of the run on concrete files *)

Lemma logged_outcome {A} (c : logged A) (w : world) (r : result A) :
  fst (c w) = r -> c w = (r, snd (c w)).
Proof. intros <-. destruct (c w); reflexivity. Qed.

(** X1 on the map of team A: the run leaves it as it was, and the log, empty
    before the run, holds three messages after it. *)
Lemma run_changes_results_and_log_only_witness :
  is_map "/data/output" 1 "/data/output/zstat/teamA/hypo1_unthresh.nii.gz" = true /\
  fst (snd (run_ttests_logged env0 narps0 logfile0 true (fs_scenario, [])))
    !! "/data/output/zstat/teamA/hypo1_unthresh.nii.gz"
  = Some img123 /\
  (exists ls, snd (snd (run_ttests_logged env0 narps0 logfile0 true (fs_scenario, [])))
              = [] ++ ls) /\
  length (snd (snd (run_ttests_logged env0 narps0 logfile0 true (fs_scenario, [])))) = 3%nat.
Proof.
  split; [vm_compute; reflexivity|].
  destruct (run_changes_results_and_log_only env0 narps0 logfile0 true fs_scenario []
              "/data/output/zstat/teamA/hypo1_unthresh.nii.gz") as [Hfile Hlog].
  - left. exists "/data/output", 1%nat. vm_compute. reflexivity.
  - split; [rewrite Hfile; vm_compute; reflexivity|].
    split; [exact Hlog|vm_compute; reflexivity].
Defined.

(** X2 on the hypotheses 1, 2 and 5: hypothesis 1 succeeds, hypothesis 2,
    with the map of a single team, fails, and no volume of hypothesis 5 is
    written. *)
Lemma failure_stops_the_run_witness :
  hypnums env125 = [1%nat] ++ 2%nat :: [5%nat] /\
  fst (run_ttests env125 narps0 true fs_two_hyps) = Err ValueError /\
  is_Some (snd (run_ttests env125 narps0 true fs_two_hyps)
             !! "/data/output/consensus_analysis/hypo1_tau.nii.gz") /\
  snd (run_ttests env125 narps0 true fs_two_hyps)
    !! "/data/output/consensus_analysis/hypo5_t.nii.gz" = None.
Proof.
  split; [reflexivity|].
  destruct (failure_stops_the_run env125 narps0 true fs_two_hyps
              (snd (run_hyp env125 narps0 true 1 fs_two_hyps))
              [1%nat] [5%nat] 2%nat ValueError) as [Hrun Hrest].
  - reflexivity.
  - apply (run_outcome (for_each [1%nat] (run_hyp env125 narps0 true))).
    vm_compute. reflexivity.
  - vm_compute. reflexivity.
  - split; [rewrite Hrun; reflexivity|]. split.
    + rewrite Hrun. vm_compute. eauto.
    + rewrite (Hrest 5%nat "/data/output/consensus_analysis/hypo5_t.nii.gz").
      * vm_compute. reflexivity.
      * intros H. apply list_elem_of_singleton in H. discriminate H.
      * discriminate.
      * apply list_elem_of_In. vm_compute. left. reflexivity.
Defined.

(** X3 on four teams: after the run, the four volumes of hypothesis 1
    exist. *)
Lemma success_leaves_the_volumes_witness :
  fst (run_ttests env0 narps0 true fs_scenario) = Ok tt /\
  artifacts_exist narps0 1 (snd (run_ttests env0 narps0 true fs_scenario)).
Proof.
  split; [vm_compute; reflexivity|].
  apply (success_leaves_the_volumes env0 narps0 true fs_scenario
           (snd (run_ttests env0 narps0 true fs_scenario)) 1%nat).
  - apply run_outcome. vm_compute. reflexivity.
  - left.
  - reflexivity.
Defined.

(** X4 on four teams: the run after the first one skips hypothesis 1 and
    logs its name. *)
Lemma rerun_without_overwrite_logs_only_witness :
  fst (run_ttests_logged env0 narps0 logfile0 true (fs_scenario, [])) = Ok tt /\
  run_ttests_logged env0 narps0 logfile0 false
    (snd (run_ttests_logged env0 narps0 logfile0 true (fs_scenario, [])))
  = (Ok tt,
     (fst (snd (run_ttests_logged env0 narps0 logfile0 true (fs_scenario, []))),
      snd (snd (run_ttests_logged env0 narps0 logfile0 true (fs_scenario, [])))
        ++ [LogFunc "run_ttests"])).
Proof.
  split; [vm_compute; reflexivity|].
  apply (rerun_without_overwrite_logs_only env0 narps0 logfile0 true (fs_scenario, [])).
  apply logged_outcome. vm_compute. reflexivity.
Defined.

(** X5 on the hypotheses 1, 2 and 5, where the run fails at hypothesis 2
    after three messages: the second run fails in the same way, leaves the
    same image files and adds the same three messages. *)
Lemma rerun_with_overwrite_repeats_witness :
  lists_files env125 /\
  exists (fs' : files) (ls : list log_msg),
    run_ttests_logged env125 narps0 logfile0 true (fs_two_hyps, [])
    = (Err ValueError, (fs', ls)) /\
    run_ttests_logged env125 narps0 logfile0 true (fs', ls)
    = (Err ValueError, (fs', ls ++ ls)) /\
    length ls = 3%nat.
Proof.
  assert (Hls : lists_files env125) by exact lists_files_env0.
  split; [exact Hls|].
  destruct (rerun_with_overwrite_repeats env125 narps0 logfile0 fs_two_hyps [] Hls)
    as (r & fs' & ls & H1 & H2).
  assert (Hr : r = Err ValueError).
  { transitivity (fst (run_ttests_logged env125 narps0 logfile0 true (fs_two_hyps, []))).
    - rewrite H1. reflexivity.
    - vm_compute. reflexivity. }
  assert (Hlen : length ls = 3%nat).
  { transitivity
      (length (snd (snd (run_ttests_logged env125 narps0 logfile0 true (fs_two_hyps, []))))).
    - rewrite H1. reflexivity.
    - vm_compute. reflexivity. }
  subst r. exists fs', ls. split; [exact H1|]. split; [exact H2|exact Hlen].
Defined.

(** X6 on the t volume of hypothesis 1. *)
Lemma result_volumes_distinct_witness :
  out_paths narps0 1 !! 0%nat = Some "/data/output/consensus_analysis/hypo1_t.nii.gz" /\
  (1 = 1 /\ 0 = 0)%nat.
Proof.
  assert (H : out_paths narps0 1 !! 0%nat
              = Some "/data/output/consensus_analysis/hypo1_t.nii.gz").
  { vm_compute. reflexivity. }
  split; [exact H|].
  apply (result_volumes_distinct narps0 1 1 0 0
           "/data/output/consensus_analysis/hypo1_t.nii.gz" H H).
Defined.

(** X7 on the map of team A for hypothesis 1. *)
Lemma maps_of_one_hypothesis_witness :
  "/data/output/zstat/teamA/hypo1_unthresh.nii.gz" ∈ sorted_maps env0 narps0 1 fs_scenario /\
  1%nat = 1%nat.
Proof.
  assert (H : "/data/output/zstat/teamA/hypo1_unthresh.nii.gz"
              ∈ sorted_maps env0 narps0 1 fs_scenario).
  { apply list_elem_of_In. vm_compute. left. reflexivity. }
  split; [exact H|].
  apply (maps_of_one_hypothesis env0 narps0 1 1 fs_scenario
           "/data/output/zstat/teamA/hypo1_unthresh.nii.gz" H H).
Defined.

(** X9 on the map of a single team. *)
Lemma single_team_ValueError_witness :
  features env0 narps0 1 fs_one_team = Ok [[1; 2; 3]]%float /\
  shape0 [[1; 2; 3]]%float = 1%nat /\
  consensus_analysis env0 narps0 1 fs_one_team = (Err ValueError, fs_one_team).
Proof.
  split; [vm_compute; reflexivity|]. split; [reflexivity|].
  apply (single_team_ValueError env0 narps0 1 fs_one_team [[1; 2; 3]]%float).
  - vm_compute. reflexivity.
  - reflexivity.
Defined.

(** X10 on four identical teams, whose normaliser is 0. *)
Lemma tau_degenerate_normaliser_witness :
  PrimFloat.is_zero (sampvar_est (shape0 scenario) (cc scenario)) = true /\
  Forall (fun t => PrimFloat.is_nan t = true \/ t = infinity) (tau scenario (cc scenario)).
Proof.
  assert (H : PrimFloat.is_zero (sampvar_est (shape0 scenario) (cc scenario)) = true).
  { vm_compute. reflexivity. }
  split; [exact H|].
  apply (proj2 (tau_degenerate_normaliser scenario (cc scenario)) H).
Defined.

(** X12 at the threshold 0.95: a voxel with 1-fdr 0.99 keeps its t value,
    a voxel with 1-fdr 0.5 is blanked, and so is a voxel whose 1-fdr value
    is nan. *)
Lemma threshdata_keeps_or_blanks_witness :
  threshdata thresh_095 0x1.fae147ae147aep-1 3.5 = 3.5%float /\
  PrimFloat.is_zero (threshdata thresh_095 0.5 3.5) = true /\
  PrimFloat.is_zero (threshdata thresh_095 nan 3.5) = true.
Proof.
  split; [|split].
  - apply (proj1 (threshdata_keeps_or_blanks thresh_095 0x1.fae147ae147aep-1 3.5)).
    vm_compute. reflexivity.
  - apply (proj1 (proj2 (threshdata_keeps_or_blanks thresh_095 0.5 3.5)));
      vm_compute; reflexivity.
  - apply (proj1 (proj2 (threshdata_keeps_or_blanks thresh_095 nan 3.5)));
      vm_compute; reflexivity.
Defined.

(** X11 on four teams: [R] is 4 by 4 with 0.75 on the diagonal and -0.25
    elsewhere. *)
Lemma tau_arrays_fit_witness :
  shape0 scenario <> 1%nat /\
  entry (tau_R (shape0 scenario)) 0 0 = 0.75%float /\
  entry (tau_R (shape0 scenario)) 0 1 = (-0.25)%float /\
  length (tau scenario (cc scenario)) = 3%nat.
Proof.
  assert (Hn : shape0 scenario <> 1%nat) by (vm_compute; lia).
  assert (H0 : (0 < shape0 scenario)%nat) by (vm_compute; lia).
  assert (H1 : (1 < shape0 scenario)%nat) by (vm_compute; lia).
  split; [exact Hn|].
  destruct (tau_arrays_fit scenario 0 0 Hn H0 H0) as (_ & _ & _ & _ & Hd & Hlen).
  destruct (tau_arrays_fit scenario 0 1 Hn H0 H1) as (_ & _ & _ & _ & Ho & _).
  split; [rewrite Hd; vm_compute; reflexivity|].
  split; [rewrite Ho; vm_compute; reflexivity|exact Hlen].
Defined.

(** X8 on the hypotheses 1, 2 and 5, with and without the volumes of an
    earlier run among the files. *)
Lemma run_reads_the_maps_only_witness :
  lists_files env125 /\
  fst (run_ttests env125 narps0 true fs_fdr_only)
  = fst (run_ttests env125 narps0 true fs_scenario).
Proof.
  assert (Hls : lists_files env125) by exact lists_files_env0.
  split; [exact Hls|].
  destruct (run_reads_the_maps_only env125 narps0 fs_scenario fs_fdr_only Hls)
    as (r & ws & H1 & H2 & _).
  - intros hyp p _ Hp. unfold fs_fdr_only. rewrite lookup_insert_ne; [reflexivity|].
    intros <-.
    rewrite (out_path_not_map narps0 1 (dirs_output narps0) hyp) in Hp; [discriminate Hp|].
    apply list_elem_of_In. vm_compute. right. right. left. reflexivity.
  - rewrite H1, H2. reflexivity.
Defined.

(** X13 on four tau values: the bin that starts at 0 holds one of them, and
    so does the bin that starts at 1. *)
Lemma tauhist_bins_witness :
  exists counts : list Z,
    tauhist taudata4 = Some (counts, map tau_edge (seq 0 500)) /\
    counts !! 0%nat = Some 1%Z /\ counts !! 100%nat = Some 1%Z.
Proof.
  destruct (tauhist_bins taudata4) as (counts & Hc & _ & _ & Hk).
  exists counts. split; [exact Hc|]. split.
  - rewrite (Hk 0%nat) by lia. vm_compute. reflexivity.
  - rewrite (Hk 100%nat) by lia. vm_compute. reflexivity.
Defined.

(** X14 on a tau volume of three voxels: two of its values are in a
    bin. *)
Lemma mk_tauhist_total_witness :
  exists counts : list Z,
    mk_tauhist env0 narps0 logfile0 1 (fs_tau, [])
    = (Ok (counts, map tau_edge (seq 0 500)), (fs_tau, [LogTau 1 [[0x1p-8; 1; 7]]%float])) /\
    hist_total counts = 2%Z.
Proof.
  destruct (mk_tauhist_total env0 narps0 logfile0 1 fs_tau [] img_tau [[0x1p-8; 1; 7]]%float)
    as (counts & Hrun & Ht).
  - vm_compute. reflexivity.
  - vm_compute. reflexivity.
  - discriminate.
  - reflexivity.
  - exists counts. split; [exact Hrun|]. rewrite Ht. vm_compute. reflexivity.
Defined.
